(** * A shallow embedding of the keyword crawler (Web_Crawler_App_14.py)

    The development follows the source file top to bottom:

    - Python string primitives used by the crawler ([str.lower], [str.strip],
      [str.replace], [in], [startswith], [endswith], slicing);
    - [is_subdomain_of] and [contains_keyword];
    - the parsed document as BeautifulSoup exposes it to the crawler, and
      [extract_categories];
    - [process_url], as a function on the three mutable objects it receives
      ([visited], [results], [status_messages]) plus a log of the HTTP
      requests it issues;
    - the body of [main]: the [crawl_data] dictionary as a record, the start
      button, and the two [while] loops (main domain and category);
    - the same code with the exceptions of [urljoin] and [urlparse].

    Strings are modelled as [string], each character standing for the code
    point of its number: the texts covered are those of code points below
    256, on which [str.lower] and [str.strip] are modelled in full.  Python
    integers are [Z].  Functions that come from other packages (urllib,
    fuzzywuzzy, requests) and the iteration order of a Python [set] are
    collected in the record [Env].

    [urljoin] and [urlparse] can raise [ValueError].  The definitions
    [process_url], [main_entry], [main_body], [tick] and the like give what a
    call or a run does when none of them raises; the module [Raising] has the
    same code with its exceptions, and the two are related at the end of the
    file. *)

From stdpp Require Import gmap strings list.
From Stdlib Require Import ZArith Lia Ascii String.

Open Scope Z_scope.
Open Scope string_scope.

(** ** Python string primitives *)

Module PyStr.

(** The capital letters below 256 are A-Z and the code points 192-222
    except the multiplication sign, 215; each has its small letter 32
    above. *)
Definition lower_char (c : ascii) : ascii :=
  let n := nat_of_ascii c in
  if (((65 <=? n)%nat && (n <=? 90)%nat)
      || ((192 <=? n)%nat && (n <=? 222)%nat && negb (n =? 215)%nat))%bool
  then ascii_of_nat (n + 32)
  else c.

(** [s.lower()] *)
Fixpoint lower (s : string) : string :=
  match s with
  | EmptyString => EmptyString
  | String c s' => String (lower_char c) (lower s')
  end.

(** The characters below 256 that [str.strip()] removes: tab, LF, VT, FF,
    CR, the four separators 0x1c..0x1f, the space, the next-line control 0x85
    and the no-break space 0xa0. *)
Definition is_space (c : ascii) : bool :=
  let n := nat_of_ascii c in
  (((9 <=? n)%nat && (n <=? 13)%nat) || ((28 <=? n)%nat && (n <=? 32)%nat)
   || (n =? 133)%nat || (n =? 160)%nat)%bool.

Definition is_empty (s : string) : bool :=
  match s with EmptyString => true | _ => false end.

Fixpoint lstrip (s : string) : string :=
  match s with
  | EmptyString => EmptyString
  | String c s' => if is_space c then lstrip s' else s
  end.

Fixpoint rstrip (s : string) : string :=
  match s with
  | EmptyString => EmptyString
  | String c s' =>
      let r := rstrip s' in
      if (is_space c && is_empty r)%bool then EmptyString else String c r
  end.

(** [s.strip()] *)
Definition strip (s : string) : string := rstrip (lstrip s).

(** [s.startswith(p)] *)
Definition startswith (p s : string) : bool := String.prefix p s.

(** [s.startswith((p1, ..., pn))] *)
Definition startswith_any (ps : list string) (s : string) : bool :=
  existsb (fun p => startswith p s) ps.

(** [sub in s] *)
Fixpoint contains (sub s : string) : bool :=
  if String.prefix sub s then true
  else match s with
       | EmptyString => false
       | String _ s' => contains sub s'
       end.

Fixpoint drop (n : nat) (s : string) : string :=
  match n, s with
  | O, _ => s
  | S _, EmptyString => EmptyString
  | S n', String _ s' => drop n' s'
  end.

(** [s[:n]] *)
Fixpoint take (n : nat) (s : string) : string :=
  match n, s with
  | O, _ => EmptyString
  | S _, EmptyString => EmptyString
  | S n', String c s' => String c (take n' s')
  end.

(** [s.endswith(suf)] *)
Definition endswith (suf s : string) : bool :=
  ((String.length suf <=? String.length s)%nat
   && String.eqb (drop (String.length s - String.length suf) s) suf)%bool.

(** [s.replace(old, new)] for a non-empty [old]: occurrences are replaced
    left to right without overlap.  [skip] counts the characters of a
    matched occurrence that are still to be passed over. *)
Fixpoint replace_from (old new : string) (skip : nat) (s : string) : string :=
  match s with
  | EmptyString => EmptyString
  | String c s' =>
      match skip with
      | S k => replace_from old new k s'
      | O =>
          if String.prefix old s
          then new ++ replace_from old new (String.length old - 1) s'
          else String c (replace_from old new O s')
      end
  end.

Definition replace (old new s : string) : string := replace_from old new O s.

(** [sep.join(l)] *)
Fixpoint join (sep : string) (l : list string) : string :=
  match l with
  | [] => EmptyString
  | [x] => x
  | x :: rest => x ++ sep ++ join sep rest
  end.

Definition len (s : string) : Z := Z.of_nat (String.length s).

End PyStr.

(** ** Lines 14-17: [is_subdomain_of] *)

Definition is_subdomain_of (url_netloc main_domain : string) : bool :=
  let main_domain := PyStr.lower (PyStr.replace "www." "" main_domain) in
  let url_netloc := PyStr.lower (PyStr.replace "www." "" url_netloc) in
  (PyStr.endswith ("." ++ main_domain) url_netloc || String.eqb url_netloc main_domain)%bool.

(** ** Lines 20-31: [contains_keyword]

    [fuzz.partial_ratio] belongs to the fuzzywuzzy package; the function takes
    it as its first argument. *)

Definition contains_keyword (partial_ratio : string -> string -> Z)
    (text : string) (keywords : list string) : bool :=
  if PyStr.is_empty text then false
  else
    let text_lower := PyStr.strip (PyStr.lower text) in
    let exact_match :=
      existsb (fun kw => PyStr.contains (PyStr.lower kw) text_lower) keywords in
    let fuzzy_match :=
      existsb (fun kw => (85 <=? partial_ratio text_lower (PyStr.lower kw))%Z) keywords in
    (exact_match || fuzzy_match)%bool.

(** ** The parsed document

    BeautifulSoup is used through [find_all], [find], [Tag.get],
    [Tag.get_text] and [Tag.name] only.  A document is the list of its tags in
    document order; each tag carries its attributes and the text nodes below
    it (the strings [get_text] is computed from). *)

Record Element := mkElement {
  el_name : string;
  el_attrs : list (string * string);
  el_strings : list string
}.

Definition Soup := list Element.

Module Bs4.

(** [tag.get(key, default)] *)
Fixpoint lookup_attr (key : string) (attrs : list (string * string)) : option string :=
  match attrs with
  | [] => None
  | (k, v) :: rest => if String.eqb k key then Some v else lookup_attr key rest
  end.

Definition get (el : Element) (key default : string) : string :=
  match lookup_attr key (el_attrs el) with
  | Some v => v
  | None => default
  end.

Definition has_attr (el : Element) (key : string) : bool :=
  match lookup_attr key (el_attrs el) with
  | Some _ => true
  | None => false
  end.

(** [tag.get_text()] *)
Definition get_text (el : Element) : string :=
  PyStr.join "" (el_strings el).

(** [tag.get_text(separator=' ', strip=True)]: every text node is stripped,
    the empty ones are dropped, the others are joined by the separator. *)
Definition get_text_sep_strip (sep : string) (el : Element) : string :=
  PyStr.join sep
    (List.filter (fun s => negb (PyStr.is_empty s)) (List.map PyStr.strip (el_strings el))).

(** [soup.find_all(names)] *)
Definition find_all (names : list string) (soup : Soup) : list Element :=
  List.filter (fun el => existsb (String.eqb (el_name el)) names) soup.

(** [soup.find_all('a', href=True)] *)
Definition find_all_a_href (soup : Soup) : list Element :=
  List.filter (fun el => (String.eqb (el_name el) "a" && has_attr el "href")%bool) soup.

(** [soup.find('meta', {'name': 'description'})] *)
Definition find_meta_description (soup : Soup) : option Element :=
  List.find
    (fun el =>
       (String.eqb (el_name el) "meta"
        && match lookup_attr "name" (el_attrs el) with
           | Some v => String.eqb v "description"
           | None => false
           end)%bool)
    soup.

End Bs4.

(** ** The two regular expressions of the source *)

Module Re.

Definition slash : ascii := ascii_of_nat 47.
Definition rparen : ascii := ascii_of_nat 41.
Definition newline : ascii := ascii_of_nat 10.

Definition is_quote (c : ascii) : bool :=
  (Ascii.eqb c (ascii_of_nat 39) || Ascii.eqb c (ascii_of_nat 34))%bool.

(** The longest prefix without a slash: the group [[^/]+]. *)
Fixpoint no_slash_run (s : string) : string :=
  match s with
  | EmptyString => EmptyString
  | String c s' => if Ascii.eqb c slash then EmptyString else String c (no_slash_run s')
  end.

(** [re.search(r'/category/([^/]+)', s)], returning [group(1)]: the
    leftmost occurrence of the literal that is followed by at least one
    character other than a slash. *)
Fixpoint search_category (s : string) : option string :=
  match s with
  | EmptyString => None
  | String _ s' =>
      if String.prefix "/category/" s
      then
        let g := no_slash_run (PyStr.drop 10 s) in
        if PyStr.is_empty g then search_category s' else Some g
      else search_category s'
  end.

(** The lazy group followed by an optional quote and a closing
    parenthesis: the shortest prefix, free of line feeds, after which the
    rest of the pattern matches. *)
Fixpoint lazy_group (s : string) : option string :=
  match s with
  | EmptyString => None
  | String c s' =>
      if Ascii.eqb c rparen then Some EmptyString
      else if (is_quote c && String.prefix ")" s')%bool then Some EmptyString
      else if Ascii.eqb c newline then None
      else option_map (String c) (lazy_group s')
  end.

Definition skip_quote (s : string) : string :=
  match s with
  | String c s' => if is_quote c then s' else s
  | EmptyString => s
  end.

(** The search for the background-image pattern, returning [group(1)]: the
    literal [url] and an opening parenthesis, an optional quote, the lazy
    group, an optional quote and a closing parenthesis. *)
Fixpoint search_bg_url (s : string) : option string :=
  match s with
  | EmptyString => None
  | String _ s' =>
      if String.prefix "url(" s
      then match lazy_group (skip_quote (PyStr.drop 4 s)) with
           | Some g => Some g
           | None => search_bg_url s'
           end
      else search_bg_url s'
  end.

End Re.

(** ** The environment: other packages and the network *)

(** What [session.get] followed by [raise_for_status] gives: the final URL
    after redirects, the Content-Type header (empty when absent) and the
    document BeautifulSoup builds from the body; or an exception. *)
Record Response := mkResponse {
  resp_url : string;
  resp_content_type : string;
  resp_soup : Soup
}.

Inductive GetResult :=
| GetOk (r : Response)
| GetError (msg : string).

Record Env := mkEnv {
  (** [urllib.parse.urljoin] *)
  urljoin : string -> string -> string;
  (** [urllib.parse.urlparse(u).netloc] *)
  netloc : string -> string;
  (** [fuzzywuzzy.fuzz.partial_ratio] *)
  partial_ratio : string -> string -> Z;
  (** the order in which a [for] loop visits a Python [set] *)
  set_iter : gset (string * string) -> list (string * string);
  (** the network, as seen through [session.get] *)
  http_get : string -> GetResult;
  (** [urljoin base url] raises [ValueError]: the message of the exception,
      or [None] when the call returns (its value is then [urljoin]) *)
  urljoin_error : string -> string -> option string;
  (** [urlparse url] raises [ValueError]: the message, or [None] when the
      call returns (its [netloc] is then [netloc]) *)
  urlparse_error : string -> option string
}.

(** ** Match records and the status feed *)

Inductive MatchKind :=
| KeywordInResolvedURL
| KeywordInURL
| KeywordInContent
| KeywordInMetaContent
| KeywordInImageAlt
| KeywordInBackgroundImage.

(** A result row [(final_url, kind, context)]. *)
Definition MatchRecord : Type := string * MatchKind * string.

Definition context (r : MatchRecord) : string := snd r.
Definition matchKind (r : MatchRecord) : MatchKind := snd (fst r).

(** One entry of the status list.  Each constructor stands for one f-string of
    the source and keeps the values interpolated in it (the elapsed time of a
    fetch is left out). *)
Inductive Status :=
| MsgStarting (url : string)
| MsgCrawled (url : string)
| MsgFetchError (url msg : string)
| MsgSkippingExternal (depth : Z) (final_url : string)
| MsgMatch (kind : MatchKind) (ctx : string)
| MsgNoMorePagesMain (pages : Z)
| MsgFoundCategories (names : list string)
| MsgFoundMatchesMain (n : Z)
| MsgReachedMaxMain (max_pages : Z)
| MsgMovingToFirst (name : string)
| MsgNoCategories
| MsgStartingCategory (name : string)
| MsgNoMorePagesCategory (name : string) (pages : Z)
| MsgFoundMatchesCategory (n : Z) (name : string)
| MsgReachedMaxCategory (max_pages : Z) (name : string)
| MsgMovingToNext (name : string)
| MsgNoMoreCategories
| MsgCategoryError (msg : string).

(** ** Lines 34-68: [extract_categories] *)

Definition category_names : list string := ["travel"; "blog"; "resources"].

Section Crawler.

Variable E : Env.

(** One pass of the loop over the anchors (lines 39-55).  The accumulator
    holds the list [categories] and the set [other_categories]. *)
Definition extract_categories_link (base_url : string)
    (acc : list (string * string) * gset (string * string)) (link : Element)
    : list (string * string) * gset (string * string) :=
  let '(categories, other_categories) := acc in
  let href := PyStr.lower (PyStr.strip (Bs4.get link "href" "")) in
  let text := PyStr.lower (PyStr.strip (Bs4.get_text link)) in
  if (PyStr.is_empty href
      || PyStr.startswith_any ["javascript:"; "#"; "mailto:"; "tel:"] href)%bool
  then acc
  else
    let categories :=
      (categories ++
       flat_map
         (fun category =>
            if ((PyStr.contains category href || PyStr.contains category text)
                && PyStr.contains "/category/" href)%bool
            then [(category, urljoin E base_url href)]
            else [])
         category_names)%list in
    let other_categories :=
      if (PyStr.contains "/category/" href
          && forallb (fun cat => negb (PyStr.contains cat href)) category_names)%bool
      then
        match Re.search_category href with
        | Some g => {[ (PyStr.lower g, urljoin E base_url href) ]} ∪ other_categories
        | None => other_categories
        end
      else other_categories in
    (categories, other_categories).

Definition extract_categories (soup : Soup) (base_url : string) : list (string * string) :=
  let '(categories, other_categories) :=
    fold_left (extract_categories_link base_url) (Bs4.find_all_a_href soup) ([], ∅) in
  let result :=
    flat_map
      (fun cat_name =>
         let matched :=
           List.map snd (List.filter (fun nu => String.eqb (fst nu) cat_name) categories) in
         match matched with
         | [] => []
         | url :: _ => [(cat_name, url)]
         end)
      category_names in
  (result ++ set_iter E other_categories)%list.

(** ** Lines 73-172: [process_url]

    [visited], [results] and [status_messages] are the objects the caller
    shares with the function; [http_log] lists the URLs given to
    [session.get], oldest first.  The definitions of this section give the
    value of a call in which neither [urljoin] nor [urlparse] raises;
    [Raising.process_url] is the call with these exceptions. *)

Record Shared := mkShared {
  visited : gset string;
  results : list MatchRecord;
  status : list Status;
  http_log : list string
}.

Definition keywords : list string :=
  ["gowithguide"; "go with guide"; "go-with-guide"; "87121"].

Definition ck (text : string) : bool := contains_keyword (partial_ratio E) text keywords.

(** [text[:200] + '...' if len(text) > 200 else text] *)
Definition truncate_context (text : string) : string :=
  if (200 <? PyStr.len text)%Z then PyStr.take 200 text ++ "..." else text.

(** The body of the loop over [elements_to_check] (lines 110-156); the
    accumulator is the pair of [results] and [status_messages]. *)
Definition scan_element (final_url : string)
    (acc : list MatchRecord * list Status) (element : option Element)
    : list MatchRecord * list Status :=
  match element with
  | None => acc
  | Some element =>
      let add (kind : MatchKind) (ctx : string) (a : list MatchRecord * list Status) :=
        ((fst a ++ [(final_url, kind, ctx)])%list, (snd a ++ [MsgMatch kind ctx])%list) in
      (* href attributes *)
      let href := Bs4.get element "href" "" in
      let acc :=
        if PyStr.is_empty href then acc
        else
          let resolved_url := urljoin E final_url href in
          let acc := if ck resolved_url then add KeywordInResolvedURL resolved_url acc else acc in
          if ck href then add KeywordInURL href acc else acc in
      (* text content *)
      let text := Bs4.get_text_sep_strip " " element in
      let acc :=
        if (negb (PyStr.is_empty text) && ck text)%bool
        then add KeywordInContent (truncate_context text) acc
        else acc in
      (* meta content *)
      let content := Bs4.get element "content" "" in
      let acc :=
        if (negb (PyStr.is_empty content) && ck content)%bool
        then add KeywordInMetaContent (truncate_context content) acc
        else acc in
      (* image alt attributes *)
      let acc :=
        if String.eqb (el_name element) "img"
        then
          let alt_text := Bs4.get element "alt" "" in
          if ck alt_text then add KeywordInImageAlt alt_text acc else acc
        else acc in
      (* CSS background images *)
      let style := Bs4.get element "style" "" in
      if PyStr.contains "background-image" style
      then
        match Re.search_bg_url style with
        | Some bg_url =>
            let resolved_bg := urljoin E final_url bg_url in
            if ck resolved_bg then add KeywordInBackgroundImage resolved_bg acc else acc
        | None => acc
        end
      else acc
  end.

Definition elements_to_check (soup : Soup) : list (option Element) :=
  (List.map Some
     (Bs4.find_all ["a"; "div"; "section"; "title"; "main"; "article"; "span"; "p"] soup)
   ++ [Bs4.find_meta_description soup])%list.

(** Lines 159-170: the links of the page with their depth. *)
Definition extract_links (final_url main_domain : string) (visited : gset string)
    (depth : Z) (soup : Soup) : list (string * Z) :=
  flat_map
    (fun link =>
       let absolute_url := urljoin E final_url (Bs4.get link "href" "") in
       let is_external_link := negb (is_subdomain_of (netloc E absolute_url) main_domain) in
       let new_depth := if is_external_link then depth + 1 else depth in
       if ((new_depth <=? 2)%Z && negb (bool_decide (absolute_url ∈ visited)))%bool
       then [(absolute_url, new_depth)]
       else [])
    (Bs4.find_all_a_href soup).

Definition process_url (url main_domain : string) (sh : Shared) (depth : Z)
    : (list (string * Z) * option Soup) * Shared :=
  if bool_decide (url ∈ visited sh) then (([], None), sh)
  else
    let visited := {[url]} ∪ visited sh in
    let http_log := (http_log sh ++ [url])%list in
    match http_get E url with
    | GetError msg =>
        (([], None),
         mkShared visited (results sh) (status sh ++ [MsgFetchError url msg])%list http_log)
    | GetOk response =>
        let status := (status sh ++ [MsgCrawled url])%list in
        if negb (PyStr.contains "text/html" (resp_content_type response))
        then (([], None), mkShared visited (results sh) status http_log)
        else
          let final_url := resp_url response in
          let is_external := negb (is_subdomain_of (netloc E final_url) main_domain) in
          if (is_external && (1 <? depth)%Z)%bool
          then
            (([], None),
             mkShared visited (results sh)
               (status ++ [MsgSkippingExternal depth final_url])%list http_log)
          else
            let soup := resp_soup response in
            let '(results, status) :=
              fold_left (scan_element final_url) (elements_to_check soup)
                (results sh, status) in
            let extracted_links := extract_links final_url main_domain visited depth soup in
            ((extracted_links, Some soup), mkShared visited results status http_log)
    end.

End Crawler.

(** ** [main]: the session dictionary [crawl_data] *)

Record CrawlData := mkCrawlData {
  running : bool;
  queue : list (string * Z);
  shared : Shared;
  main_domain : string;
  categories : list (string * string);
  current_category : option (string * string);
  pages_crawled : Z;
  max_pages : Z
}.

Definition set_running (b : bool) (cd : CrawlData) : CrawlData :=
  mkCrawlData b (queue cd) (shared cd) (main_domain cd) (categories cd)
    (current_category cd) (pages_crawled cd) (max_pages cd).

Definition set_queue (q : list (string * Z)) (cd : CrawlData) : CrawlData :=
  mkCrawlData (running cd) q (shared cd) (main_domain cd) (categories cd)
    (current_category cd) (pages_crawled cd) (max_pages cd).

Definition set_shared (sh : Shared) (cd : CrawlData) : CrawlData :=
  mkCrawlData (running cd) (queue cd) sh (main_domain cd) (categories cd)
    (current_category cd) (pages_crawled cd) (max_pages cd).

Definition set_categories (cs : list (string * string)) (cd : CrawlData) : CrawlData :=
  mkCrawlData (running cd) (queue cd) (shared cd) (main_domain cd) cs
    (current_category cd) (pages_crawled cd) (max_pages cd).

Definition set_current_category (c : option (string * string)) (cd : CrawlData) : CrawlData :=
  mkCrawlData (running cd) (queue cd) (shared cd) (main_domain cd) (categories cd)
    c (pages_crawled cd) (max_pages cd).

Definition set_pages_crawled (n : Z) (cd : CrawlData) : CrawlData :=
  mkCrawlData (running cd) (queue cd) (shared cd) (main_domain cd) (categories cd)
    (current_category cd) n (max_pages cd).

(** [crawl_data['status'].append(msg)] *)
Definition add_status (msg : Status) (cd : CrawlData) : CrawlData :=
  let sh := shared cd in
  set_shared (mkShared (visited sh) (results sh) (status sh ++ [msg]) (http_log sh)) cd.

Definition is_nil {A} (l : list A) : bool :=
  match l with [] => true | _ => false end.

Definition len_list {A} (l : list A) : Z := Z.of_nat (List.length l).

(** The dictionary written at lines 178-190, 201-213 and 420-432.  The log of
    requests is not part of it and survives. *)
Definition reset_data (log : list string) : CrawlData :=
  mkCrawlData false [] (mkShared ∅ [] [] log) "" [] None 0 8.

(** The way a loop body ends: the next test of the loop condition, or
    [break]. *)
Inductive Flow := Next | Break.

Section Controller.

Variable E : Env.

(** Lines 221-242: the start/pause button. *)
Definition press_start (url_input : string) (cd : CrawlData) : CrawlData :=
  let cd := set_running (negb (running cd)) cd in
  if (running cd && is_nil (queue cd))%bool
  then
    let initial_url := PyStr.strip url_input in
    let initial_url :=
      if PyStr.startswith_any ["http://"; "https://"] initial_url
      then initial_url
      else "https://" ++ initial_url in
    mkCrawlData true [(initial_url, 0)]
      (mkShared ∅ [] [MsgStarting initial_url] (http_log (shared cd)))
      (netloc E initial_url) [] None 0 8
  else cd.

(** Lines 200-213 and 419-432: the reset buttons. *)
Definition press_reset (cd : CrawlData) : CrawlData :=
  reset_data (http_log (shared cd)).

(** Lines 416-417: the continue button. *)
Definition press_continue (cd : CrawlData) : CrawlData := set_running true cd.

(** Lines 283-286 and 342-345: the links that are not visited are appended
    to the queue. *)
Definition enqueue_links (new_links : list (string * Z)) (cd : CrawlData) : CrawlData :=
  fold_left
    (fun cd link_info =>
       let '(link, link_depth) := link_info in
       if bool_decide (link ∈ visited (shared cd)) then cd
       else set_queue (queue cd ++ [(link, link_depth)]) cd)
    new_links cd.

(** Lines 260-286: one entry taken from the queue is processed; [cd] is the
    session after [popleft].  This is the entry when nothing raises; the
    [except] branch of lines 280-281 is in [Raising.main_entry]. *)
Definition main_entry (url : string) (depth : Z) (cd : CrawlData) : CrawlData :=
  let '((new_links, soup), sh) := process_url E url (main_domain cd) (shared cd) depth in
  let cd := set_shared sh cd in
  let cd := set_pages_crawled (pages_crawled cd + 1) cd in
  let cd :=
    match soup with
    | Some soup =>
        if (pages_crawled cd =? 1)%Z
        then
          let homepage_categories := extract_categories E soup url in
          let cd := set_categories homepage_categories cd in
          if is_nil homepage_categories then cd
          else add_status (MsgFoundCategories (List.map fst homepage_categories)) cd
        else cd
    | None => cd
    end in
  enqueue_links new_links cd.

(** Lines 254-312: the body of the main-domain loop. *)
Definition main_body (max_pages : Z) (cd : CrawlData) : CrawlData * Flow :=
  match queue cd with
  | [] => (add_status (MsgNoMorePagesMain (pages_crawled cd)) cd, Break)
  | (url, depth) :: rest =>
      let cd := main_entry url depth (set_queue rest cd) in
      if negb (is_nil (results (shared cd)))
      then
        let cd := add_status (MsgFoundMatchesMain (len_list (results (shared cd)))) cd in
        (set_running false cd, Break)
      else
        if (max_pages <=? pages_crawled cd)%Z
        then
          let cd := add_status (MsgReachedMaxMain max_pages) cd in
          match categories cd with
          | first_category :: _ =>
              let cd := set_current_category (Some first_category) cd in
              let cd := add_status (MsgMovingToFirst (fst first_category)) cd in
              let cd := set_queue [(snd first_category, 0)] cd in
              (set_pages_crawled 0 cd, Next)
          | [] =>
              let cd := add_status MsgNoCategories cd in
              (set_running false cd, Next)
          end
        else (cd, Next)
  end.

(** Lines 251-252: the main-domain [while] loop.  [None] when the loop has
    not ended within [fuel] passes. *)
Fixpoint main_loop (max_pages : Z) (fuel : nat) (cd : CrawlData) : option CrawlData :=
  if (running cd && (pages_crawled cd <? max_pages)%Z)%bool
  then
    match fuel with
    | O => None
    | S fuel' =>
        match main_body max_pages cd with
        | (cd', Break) => Some cd'
        | (cd', Next) => main_loop max_pages fuel' cd'
        end
    end
  else Some cd.

(** Line 361: the index of the first category with the given name, or -1. *)
Fixpoint index_of_name (name : string) (cats : list (string * string)) (i : Z) : Z :=
  match cats with
  | [] => -1
  | cat :: rest => if String.eqb (fst cat) name then i else index_of_name name rest (i + 1)
  end.

(** Lines 330-345: one entry taken from the queue is processed; [cd] is the
    session after [popleft]. *)
Definition category_entry (url : string) (depth : Z) (cd : CrawlData) : CrawlData :=
  let '((new_links, _), sh) := process_url E url (main_domain cd) (shared cd) depth in
  let cd := set_shared sh cd in
  let cd := set_pages_crawled (pages_crawled cd + 1) cd in
  enqueue_links new_links cd.

(** Lines 324-373: the body of the category loop.  [category_name] is the
    local variable bound at line 315, before the loop.  The index
    [current_idx + 1] lies between 0 and the last index of the list, so the
    lookup at line 364 finds an element. *)
Definition category_body (max_pages : Z) (category_name : string) (cd : CrawlData)
    : CrawlData * Flow :=
  match queue cd with
  | [] => (add_status (MsgNoMorePagesCategory category_name (pages_crawled cd)) cd, Break)
  | (url, depth) :: rest =>
      let cd := category_entry url depth (set_queue rest cd) in
      if negb (is_nil (results (shared cd)))
      then
        let cd :=
          add_status (MsgFoundMatchesCategory (len_list (results (shared cd))) category_name) cd in
        (set_running false cd, Break)
      else
        if (max_pages <=? pages_crawled cd)%Z
        then
          let cd := add_status (MsgReachedMaxCategory max_pages category_name) cd in
          let categories := categories cd in
          let current_idx := index_of_name category_name categories 0 in
          if (current_idx <? len_list categories - 1)%Z
          then
            match nth_error categories (Z.to_nat (current_idx + 1)) with
            | Some next_category =>
                let cd := set_current_category (Some next_category) cd in
                let cd := add_status (MsgMovingToNext (fst next_category)) cd in
                let cd := set_queue [(snd next_category, 0)] cd in
                (set_pages_crawled 0 cd, Next)
            | None => (cd, Next)
            end
          else
            let cd := add_status MsgNoMoreCategories cd in
            (set_running false cd, Next)
        else (cd, Next)
  end.

(** Lines 321-322: the category [while] loop. *)
Fixpoint category_loop (max_pages : Z) (category_name : string) (fuel : nat)
    (cd : CrawlData) : option CrawlData :=
  if (running cd && (pages_crawled cd <? max_pages)%Z)%bool
  then
    match fuel with
    | O => None
    | S fuel' =>
        match category_body max_pages category_name cd with
        | (cd', Break) => Some cd'
        | (cd', Next) => category_loop max_pages category_name fuel' cd'
        end
    end
  else Some cd.

(** Lines 244-373: what one run of the script does to a running session. *)
Definition tick (fuel : nat) (cd : CrawlData) : option CrawlData :=
  if running cd
  then
    match current_category cd with
    | None => main_loop (max_pages cd) fuel cd
    | Some (category_name, category_url) =>
        let cd :=
          if (pages_crawled cd =? 0)%Z
          then set_queue [(category_url, 0)] (add_status (MsgStartingCategory category_name) cd)
          else cd in
        category_loop (max_pages cd) category_name fuel cd
    end
  else Some cd.

End Controller.

(** [n] successive runs of the script on a session nobody touches. *)
Fixpoint ticks (E : Env) (fuel n : nat) (cd : CrawlData) : option CrawlData :=
  match n with
  | O => Some cd
  | S n' =>
      match tick E fuel cd with
      | Some cd' => ticks E fuel n' cd'
      | None => None
      end
  end.

(** The sessions the program can be in at the head of a loop pass or between
    two runs of the script: the initial dictionary, the effect of each
    button, the queue reset that opens a category crawl (lines 317-319) and
    every pass of either loop body. *)
Inductive reachable (E : Env) : CrawlData -> Prop :=
| reach_init log : reachable E (reset_data log)
| reach_start url_input cd :
    reachable E cd -> reachable E (press_start E url_input cd)
| reach_reset cd :
    reachable E cd -> reachable E (press_reset cd)
| reach_continue cd :
    reachable E cd -> reachable E (press_continue cd)
| reach_category_start cd category_name category_url :
    reachable E cd ->
    current_category cd = Some (category_name, category_url) ->
    reachable E
      (set_queue [(category_url, 0)] (add_status (MsgStartingCategory category_name) cd))
| reach_main_body max_pages cd :
    reachable E cd -> reachable E (fst (main_body E max_pages cd))
| reach_category_body max_pages category_name cd :
    reachable E cd -> reachable E (fst (category_body E max_pages category_name cd)).

Definition depth_ok (e : string * Z) : Prop := snd e <= 2.

(** ** The program with its exceptions

    [urljoin] and [urlparse] raise [ValueError] on some inputs, an [href]
    with an unclosed bracket in its host for one.  [process_url] calls them
    outside the [try] of lines 78-87, at lines 93, 117, 153, 161 and 162: the
    exception leaves [process_url], the loop and the run of the script, and
    what was written to the shared objects before it stays written.  The
    call of [extract_categories] at line 274 is inside the [try] of lines
    273-281.  The definitions of this module follow the source with these
    exceptions; the definitions above give the value of a call that
    returns. *)

Inductive Outcome (A : Type) : Type :=
| Returned (a : A)
| Raised (msg : string).

Arguments Returned {A} a.
Arguments Raised {A} msg.

(** How the handler of a button or a run of the script ends: at its last
    line, or by an exception, and the session it leaves. *)
Inductive Run : Type :=
| Finished (cd : CrawlData)
| Aborted (msg : string) (cd : CrawlData).

Definition session (r : Run) : CrawlData :=
  match r with
  | Finished cd => cd
  | Aborted _ cd => cd
  end.

(** Lines 288-312: what the main-domain loop does once an entry is
    processed. *)
Definition main_after_entry (max_pages : Z) (cd : CrawlData) : CrawlData * Flow :=
  if negb (is_nil (results (shared cd)))
  then
    let cd := add_status (MsgFoundMatchesMain (len_list (results (shared cd)))) cd in
    (set_running false cd, Break)
  else
    if (max_pages <=? pages_crawled cd)%Z
    then
      let cd := add_status (MsgReachedMaxMain max_pages) cd in
      match categories cd with
      | first_category :: _ =>
          let cd := set_current_category (Some first_category) cd in
          let cd := add_status (MsgMovingToFirst (fst first_category)) cd in
          let cd := set_queue [(snd first_category, 0)] cd in
          (set_pages_crawled 0 cd, Next)
      | [] =>
          let cd := add_status MsgNoCategories cd in
          (set_running false cd, Next)
      end
    else (cd, Next).

(** Lines 347-373: what the category loop does once an entry is
    processed. *)
Definition category_after_entry (max_pages : Z) (category_name : string) (cd : CrawlData)
    : CrawlData * Flow :=
  if negb (is_nil (results (shared cd)))
  then
    let cd :=
      add_status (MsgFoundMatchesCategory (len_list (results (shared cd))) category_name) cd in
    (set_running false cd, Break)
  else
    if (max_pages <=? pages_crawled cd)%Z
    then
      let cd := add_status (MsgReachedMaxCategory max_pages category_name) cd in
      let categories := categories cd in
      let current_idx := index_of_name category_name categories 0 in
      if (current_idx <? len_list categories - 1)%Z
      then
        match nth_error categories (Z.to_nat (current_idx + 1)) with
        | Some next_category =>
            let cd := set_current_category (Some next_category) cd in
            let cd := add_status (MsgMovingToNext (fst next_category)) cd in
            let cd := set_queue [(snd next_category, 0)] cd in
            (set_pages_crawled 0 cd, Next)
        | None => (cd, Next)
        end
      else
        let cd := add_status MsgNoMoreCategories cd in
        (set_running false cd, Next)
    else (cd, Next).

Module Raising.

Section Raising.

Variable E : Env.

(** Lines 110-156 for one element: the accumulator as the element leaves
    it, and the message of the exception if [urljoin] raised at line 117 or
    at line 153. *)
Definition scan_element (final_url : string)
    (acc : list MatchRecord * list Status) (element : option Element)
    : (list MatchRecord * list Status) * option string :=
  match element with
  | None => (acc, None)
  | Some element =>
      let add (kind : MatchKind) (ctx : string) (a : list MatchRecord * list Status) :=
        ((fst a ++ [(final_url, kind, ctx)])%list, (snd a ++ [MsgMatch kind ctx])%list) in
      (* href attributes *)
      let href := Bs4.get element "href" "" in
      match (if PyStr.is_empty href then None else urljoin_error E final_url href) with
      | Some msg => (acc, Some msg)
      | None =>
          let acc :=
            if PyStr.is_empty href then acc
            else
              let resolved_url := urljoin E final_url href in
              let acc :=
                if ck E resolved_url then add KeywordInResolvedURL resolved_url acc else acc in
              if ck E href then add KeywordInURL href acc else acc in
          (* text content *)
          let text := Bs4.get_text_sep_strip " " element in
          let acc :=
            if (negb (PyStr.is_empty text) && ck E text)%bool
            then add KeywordInContent (truncate_context text) acc
            else acc in
          (* meta content *)
          let content := Bs4.get element "content" "" in
          let acc :=
            if (negb (PyStr.is_empty content) && ck E content)%bool
            then add KeywordInMetaContent (truncate_context content) acc
            else acc in
          (* image alt attributes *)
          let acc :=
            if String.eqb (el_name element) "img"
            then
              let alt_text := Bs4.get element "alt" "" in
              if ck E alt_text then add KeywordInImageAlt alt_text acc else acc
            else acc in
          (* CSS background images *)
          let style := Bs4.get element "style" "" in
          if PyStr.contains "background-image" style
          then
            match Re.search_bg_url style with
            | Some bg_url =>
                match urljoin_error E final_url bg_url with
                | Some msg => (acc, Some msg)
                | None =>
                    let resolved_bg := urljoin E final_url bg_url in
                    (if ck E resolved_bg
                     then add KeywordInBackgroundImage resolved_bg acc
                     else acc,
                     None)
                end
            | None => (acc, None)
            end
          else (acc, None)
      end
  end.

(** The loop of line 110: it ends at the first element that raises. *)
Fixpoint scan_elements (final_url : string) (elements : list (option Element))
    (acc : list MatchRecord * list Status)
    : (list MatchRecord * list Status) * option string :=
  match elements with
  | [] => (acc, None)
  | element :: rest =>
      match scan_element final_url acc element with
      | (acc, Some msg) => (acc, Some msg)
      | (acc, None) => scan_elements final_url rest acc
      end
  end.

(** Lines 159-170: [urljoin] at line 161 and [urlparse] at line 162 may
    raise; the loop writes to no shared object. *)
Fixpoint extract_links (final_url main_domain : string) (visited : gset string)
    (depth : Z) (links : list Element) : Outcome (list (string * Z)) :=
  match links with
  | [] => Returned []
  | link :: rest =>
      match urljoin_error E final_url (Bs4.get link "href" "") with
      | Some msg => Raised msg
      | None =>
          let absolute_url := urljoin E final_url (Bs4.get link "href" "") in
          match urlparse_error E absolute_url with
          | Some msg => Raised msg
          | None =>
              let is_external_link :=
                negb (is_subdomain_of (netloc E absolute_url) main_domain) in
              let new_depth := if is_external_link then depth + 1 else depth in
              let found :=
                if ((new_depth <=? 2)%Z && negb (bool_decide (absolute_url ∈ visited)))%bool
                then [(absolute_url, new_depth)]
                else [] in
              match extract_links final_url main_domain visited depth rest with
              | Returned extracted_links => Returned (found ++ extracted_links)%list
              | Raised msg => Raised msg
              end
          end
      end
  end.

(** Lines 73-172: how the call ends, and the shared objects as it leaves
    them. *)
Definition process_url (url main_domain : string) (sh : Shared) (depth : Z)
    : Outcome (list (string * Z) * option Soup) * Shared :=
  if bool_decide (url ∈ visited sh) then (Returned ([], None), sh)
  else
    let visited := {[url]} ∪ visited sh in
    let http_log := (http_log sh ++ [url])%list in
    match http_get E url with
    | GetError msg =>
        (Returned ([], None),
         mkShared visited (results sh) (status sh ++ [MsgFetchError url msg])%list http_log)
    | GetOk response =>
        let status := (status sh ++ [MsgCrawled url])%list in
        if negb (PyStr.contains "text/html" (resp_content_type response))
        then (Returned ([], None), mkShared visited (results sh) status http_log)
        else
          let final_url := resp_url response in
          match urlparse_error E final_url with
          | Some msg => (Raised msg, mkShared visited (results sh) status http_log)
          | None =>
              let is_external := negb (is_subdomain_of (netloc E final_url) main_domain) in
              if (is_external && (1 <? depth)%Z)%bool
              then
                (Returned ([], None),
                 mkShared visited (results sh)
                   (status ++ [MsgSkippingExternal depth final_url])%list http_log)
              else
                let soup := resp_soup response in
                match scan_elements final_url (elements_to_check soup) (results sh, status) with
                | ((results, status), Some msg) =>
                    (Raised msg, mkShared visited results status http_log)
                | ((results, status), None) =>
                    match extract_links final_url main_domain visited depth
                            (Bs4.find_all_a_href soup) with
                    | Raised msg => (Raised msg, mkShared visited results status http_log)
                    | Returned extracted_links =>
                        (Returned (extracted_links, Some soup),
                         mkShared visited results status http_log)
                    end
                end
          end
    end.

(** Lines 46-49: the loop over the three names; [urljoin] is called, and
    may raise, for each name that applies. *)
Fixpoint extract_categories_names (base_url href text : string) (names : list string)
    (categories : list (string * string)) : Outcome (list (string * string)) :=
  match names with
  | [] => Returned categories
  | category :: rest =>
      if ((PyStr.contains category href || PyStr.contains category text)
          && PyStr.contains "/category/" href)%bool
      then
        match urljoin_error E base_url href with
        | Some msg => Raised msg
        | None =>
            extract_categories_names base_url href text rest
              (categories ++ [(category, urljoin E base_url href)])%list
        end
      else extract_categories_names base_url href text rest categories
  end.

(** Lines 39-55 for one anchor. *)
Definition extract_categories_link (base_url : string)
    (acc : list (string * string) * gset (string * string)) (link : Element)
    : Outcome (list (string * string) * gset (string * string)) :=
  let '(categories, other_categories) := acc in
  let href := PyStr.lower (PyStr.strip (Bs4.get link "href" "")) in
  let text := PyStr.lower (PyStr.strip (Bs4.get_text link)) in
  if (PyStr.is_empty href
      || PyStr.startswith_any ["javascript:"; "#"; "mailto:"; "tel:"] href)%bool
  then Returned acc
  else
    match extract_categories_names base_url href text category_names categories with
    | Raised msg => Raised msg
    | Returned categories =>
        if (PyStr.contains "/category/" href
            && forallb (fun cat => negb (PyStr.contains cat href)) category_names)%bool
        then
          match Re.search_category href with
          | Some g =>
              match urljoin_error E base_url href with
              | Some msg => Raised msg
              | None =>
                  Returned
                    (categories,
                     {[ (PyStr.lower g, urljoin E base_url href) ]} ∪ other_categories)
              end
          | None => Returned (categories, other_categories)
          end
        else Returned (categories, other_categories)
    end.

Fixpoint extract_categories_links (base_url : string) (links : list Element)
    (acc : list (string * string) * gset (string * string))
    : Outcome (list (string * string) * gset (string * string)) :=
  match links with
  | [] => Returned acc
  | link :: rest =>
      match extract_categories_link base_url acc link with
      | Raised msg => Raised msg
      | Returned acc => extract_categories_links base_url rest acc
      end
  end.

(** Lines 34-68. *)
Definition extract_categories (soup : Soup) (base_url : string)
    : Outcome (list (string * string)) :=
  match extract_categories_links base_url (Bs4.find_all_a_href soup) ([], ∅) with
  | Raised msg => Raised msg
  | Returned (categories, other_categories) =>
      let result :=
        flat_map
          (fun cat_name =>
             let matched :=
               List.map snd (List.filter (fun nu => String.eqb (fst nu) cat_name) categories) in
             match matched with
             | [] => []
             | url :: _ => [(cat_name, url)]
             end)
          category_names in
      Returned (result ++ set_iter E other_categories)%list
  end.

(** Lines 221-242: the start/pause button; [urlparse] at line 227 may raise,
    after the running flag is written. *)
Definition press_start (url_input : string) (cd : CrawlData) : Run :=
  let cd := set_running (negb (running cd)) cd in
  if (running cd && is_nil (queue cd))%bool
  then
    let initial_url := PyStr.strip url_input in
    let initial_url :=
      if PyStr.startswith_any ["http://"; "https://"] initial_url
      then initial_url
      else "https://" ++ initial_url in
    match urlparse_error E initial_url with
    | Some msg => Aborted msg cd
    | None =>
        Finished
          (mkCrawlData true [(initial_url, 0)]
             (mkShared ∅ [] [MsgStarting initial_url] (http_log (shared cd)))
             (netloc E initial_url) [] None 0 8)
    end
  else Finished cd.

(** Lines 260-286: one entry of the main-domain loop; [cd] is the session
    after [popleft].  An exception of [process_url] leaves the loop before
    the page counter is written; one of [extract_categories] is caught. *)
Definition main_entry (url : string) (depth : Z) (cd : CrawlData) : Run :=
  match process_url url (main_domain cd) (shared cd) depth with
  | (Raised msg, sh) => Aborted msg (set_shared sh cd)
  | (Returned (new_links, soup), sh) =>
      let cd := set_shared sh cd in
      let cd := set_pages_crawled (pages_crawled cd + 1) cd in
      let cd :=
        match soup with
        | Some soup =>
            if (pages_crawled cd =? 1)%Z
            then
              match extract_categories soup url with
              | Returned homepage_categories =>
                  let cd := set_categories homepage_categories cd in
                  if is_nil homepage_categories then cd
                  else add_status (MsgFoundCategories (List.map fst homepage_categories)) cd
              | Raised msg => add_status (MsgCategoryError msg) cd
              end
            else cd
        | None => cd
        end in
      Finished (enqueue_links new_links cd)
  end.

(** Lines 254-312: the body of the main-domain loop. *)
Definition main_body (max_pages : Z) (cd : CrawlData) : Run * Flow :=
  match queue cd with
  | [] => (Finished (add_status (MsgNoMorePagesMain (pages_crawled cd)) cd), Break)
  | (url, depth) :: rest =>
      match main_entry url depth (set_queue rest cd) with
      | Aborted msg cd => (Aborted msg cd, Break)
      | Finished cd =>
          let '(cd, flow) := main_after_entry max_pages cd in (Finished cd, flow)
      end
  end.

(** Lines 251-252: the main-domain [while] loop; [None] when it has not
    ended within [fuel] passes. *)
Fixpoint main_loop (max_pages : Z) (fuel : nat) (cd : CrawlData) : option Run :=
  if (running cd && (pages_crawled cd <? max_pages)%Z)%bool
  then
    match fuel with
    | O => None
    | S fuel' =>
        match main_body max_pages cd with
        | (Finished cd', Next) => main_loop max_pages fuel' cd'
        | (r, _) => Some r
        end
    end
  else Some (Finished cd).

(** Lines 330-345: one entry of the category loop. *)
Definition category_entry (url : string) (depth : Z) (cd : CrawlData) : Run :=
  match process_url url (main_domain cd) (shared cd) depth with
  | (Raised msg, sh) => Aborted msg (set_shared sh cd)
  | (Returned (new_links, _), sh) =>
      let cd := set_shared sh cd in
      let cd := set_pages_crawled (pages_crawled cd + 1) cd in
      Finished (enqueue_links new_links cd)
  end.

(** Lines 324-373: the body of the category loop. *)
Definition category_body (max_pages : Z) (category_name : string) (cd : CrawlData)
    : Run * Flow :=
  match queue cd with
  | [] =>
      (Finished (add_status (MsgNoMorePagesCategory category_name (pages_crawled cd)) cd),
       Break)
  | (url, depth) :: rest =>
      match category_entry url depth (set_queue rest cd) with
      | Aborted msg cd => (Aborted msg cd, Break)
      | Finished cd =>
          let '(cd, flow) := category_after_entry max_pages category_name cd in
          (Finished cd, flow)
      end
  end.

(** Lines 321-322: the category [while] loop. *)
Fixpoint category_loop (max_pages : Z) (category_name : string) (fuel : nat)
    (cd : CrawlData) : option Run :=
  if (running cd && (pages_crawled cd <? max_pages)%Z)%bool
  then
    match fuel with
    | O => None
    | S fuel' =>
        match category_body max_pages category_name cd with
        | (Finished cd', Next) => category_loop max_pages category_name fuel' cd'
        | (r, _) => Some r
        end
    end
  else Some (Finished cd).

(** Lines 244-373: what a run of the script does to the session once the
    buttons are handled. *)
Definition tick (fuel : nat) (cd : CrawlData) : option Run :=
  if running cd
  then
    match current_category cd with
    | None => main_loop (max_pages cd) fuel cd
    | Some (category_name, category_url) =>
        let cd :=
          if (pages_crawled cd =? 0)%Z
          then set_queue [(category_url, 0)] (add_status (MsgStartingCategory category_name) cd)
          else cd in
        category_loop (max_pages cd) category_name fuel cd
    end
  else Some (Finished cd).

(** A run of the script in which the start button was pressed: the handler
    of lines 220-242, then the loops of lines 244-373 unless the handler
    raised. *)
Definition run_start (fuel : nat) (url_input : string) (cd : CrawlData) : option Run :=
  match press_start url_input cd with
  | Aborted msg cd => Some (Aborted msg cd)
  | Finished cd => tick fuel cd
  end.


End Raising.

End Raising.

(** ** The similarity score *)

Module Fuzz.

(** One row of the longest-common-subsequence table: [prev] is the row
    above from column 1 on, [diag] the entry above and to the left, [left]
    the entry to the left. *)
Fixpoint lcs_row (x : ascii) (b : string) (prev : list nat) (diag left : nat) : list nat :=
  match b, prev with
  | String y b', p :: prev' =>
      let cur := if Ascii.eqb x y then S diag else Nat.max p left in
      cur :: lcs_row x b' prev' p cur
  | _, _ => []
  end.

Fixpoint lcs_rows (a b : string) (prev : list nat) : list nat :=
  match a with
  | EmptyString => prev
  | String x a' => lcs_rows a' b (lcs_row x b prev 0 0)
  end.

(** The length of a longest common subsequence of [a] and [b]. *)
Definition lcs (a b : string) : nat :=
  List.last (lcs_rows a b (repeat O (String.length b))) O.

(** [int(round(num / den))], Python rounding a tie to the even neighbour. *)
Definition round_div (num den : Z) : Z :=
  let q := num / den in
  let r := num mod den in
  if (2 * r <? den)%Z then q
  else if (den <? 2 * r)%Z then q + 1
  else if Z.even q then q else q + 1.

(** The similarity of two strings on the scale 0..100: twice the number of
    characters the insert/delete edit distance leaves in place, over the
    total number of characters. *)
Definition ratio (a b : string) : Z :=
  round_div (200 * Z.of_nat (lcs a b)) (PyStr.len a + PyStr.len b).

(** The substrings of [s] that start at each position and have at most [m]
    characters. *)
Fixpoint windows (m : nat) (s : string) : list string :=
  match s with
  | EmptyString => []
  | String _ s' => PyStr.take m s :: windows m s'
  end.

(** Modelled from the spec: [fuzz.partial_ratio] of the fuzzywuzzy package,
    which is not among the sources.  Section 4.2: compute the best-aligned
    substring match between the shorter and longer string and return a
    0-100 similarity score based on edit distance of that alignment.  The
    alignments are the windows of the longer string that have the length of
    the shorter one; the score is the best [ratio] over them, and 0 when a
    string is empty.  The package looks at some of these windows only and
    never scores a window higher than [ratio] does, so its score is at most
    this one. *)
Definition partial_ratio (s1 s2 : string) : Z :=
  if (PyStr.is_empty s1 || PyStr.is_empty s2)%bool then 0
  else
    let '(shorter, longer) :=
      if (String.length s1 <=? String.length s2)%nat then (s1, s2) else (s2, s1) in
    fold_left Z.max
      (List.map (ratio shorter) (windows (String.length shorter) longer)) 0.

End Fuzz.

(** ** The classifier as the specification words it *)

(** Follows the specification, not the source: both hosts lose a leading
    [www.] and are lower-cased; the first is then equal to the second or ends
    with a dot followed by the second. *)
Definition strip_leading_www (host : string) : string :=
  if String.prefix "www." host then PyStr.drop 4 host else host.

Definition isSameSite_spec (hostA mainHost : string) : bool :=
  let a := strip_leading_www (PyStr.lower hostA) in
  let m := strip_leading_www (PyStr.lower mainHost) in
  (String.eqb a m || PyStr.endswith ("." ++ m) a)%bool.

(** [sub] occurs in [s]. *)
Definition occurs_in (sub s : string) : Prop :=
  exists pre post, s = pre ++ sub ++ post.

(** ** Concrete sites *)

Module Sites.

(** [urljoin] on the hrefs used below, which are all absolute URLs: the
    href is the result. *)
Definition urljoin_absolute (base href : string) : string := href.

Fixpoint after_scheme (s : string) : option string :=
  match s with
  | EmptyString => None
  | String _ s' => if String.prefix "://" s then Some (PyStr.drop 3 s) else after_scheme s'
  end.

(** The host part of [scheme://host/path]. *)
Definition netloc_of (url : string) : string :=
  match after_scheme url with
  | Some rest => Re.no_slash_run rest
  | None => EmptyString
  end.

Fixpoint lookup_page (url : string) (pages : list (string * Response)) : GetResult :=
  match pages with
  | [] => GetError "404 Client Error"
  | (u, r) :: rest => if String.eqb u url then GetOk r else lookup_page url rest
  end.

(** A site given by its pages; every other URL fails to load. *)
Definition site (pages : list (string * Response)) : Env :=
  mkEnv urljoin_absolute netloc_of Fuzz.partial_ratio elements (fun url => lookup_page url pages)
    (fun _ _ => None) (fun _ => None).

Definition anchor (href text : string) : Element := mkElement "a" [("href", href)] [text].
Definition para (text : string) : Element := mkElement "p" [] [text].
Definition html (url : string) (soup : Soup) : string * Response :=
  (url, mkResponse url "text/html; charset=utf-8" soup).

Definition fresh : CrawlData := reset_data [].

(** Scenario A: one page, no link, no keyword. *)
Definition lonely : Env :=
  site [html "https://example.com" [mkElement "title" [] ["Example"]; para "Nothing to see here"]].


(** The home page links to a partner site, whose page links to a third
    site: that last link is an entry of depth 2. *)
Definition foreign : Env :=
  site [html "https://example.com" [anchor "https://partner.net/" "Our partner"];
        html "https://partner.net/" [anchor "https://other.org/deep" "Read more"];
        html "https://other.org/deep" [anchor "https://other.org/more" "More"]].

(** The session once the home page and the partner page are processed. *)
Definition foreign_session : CrawlData :=
  mkCrawlData true [("https://other.org/deep", 2)]
    (mkShared ({["https://partner.net/"]} ∪ {["https://example.com"]}) [] []
       ["https://example.com"; "https://partner.net/"])
    "example.com" [] None 2 8.

(** A page whose paragraph has 201 characters and holds a keyword. *)
Definition long_text : string :=
  "gowithguide " ++ PyStr.join "" (repeat "abcdefghi" 21).

Definition wordy : Env :=
  site [html "https://example.com" [para long_text]].

(** A home page with seven plain links and a category link; the category
    page links to another category. *)
Definition home_links : Soup :=
  [anchor "https://example.com/p1" "Page one";
   anchor "https://example.com/p2" "Page two";
   anchor "https://example.com/p3" "Page three";
   anchor "https://example.com/p4" "Page four";
   anchor "https://example.com/p5" "Page five";
   anchor "https://example.com/p6" "Page six";
   anchor "https://example.com/p7" "Page seven";
   anchor "https://example.com/category/travel" "Travel"].

Definition shop : Env :=
  site [html "https://example.com" home_links;
        html "https://example.com/p1" [para "One"];
        html "https://example.com/p2" [para "Two"];
        html "https://example.com/p3" [para "Three"];
        html "https://example.com/p4" [para "Four"];
        html "https://example.com/p5" [para "Five"];
        html "https://example.com/p6" [para "Six"];
        html "https://example.com/p7" [para "Seven"];
        html "https://example.com/category/travel"
          [anchor "https://example.com/category/blog" "Blog"];
        html "https://example.com/category/blog" [para "Posts"]].

(** Two anchors under the same category path segment. *)
Definition twin_links : Soup :=
  [anchor "https://example.com/category/foo/1" "First";
   anchor "https://example.com/category/foo/2" "Second"].

Definition twins : Env :=
  site [html "https://example.com" twin_links;
        html "https://example.com/x" [para "Plain"]].

(** The category loop is about to process its eighth page while the
    second of two categories of the same name is current. *)
Definition twin_session : CrawlData :=
  mkCrawlData true [("https://example.com/x", 0)]
    (mkShared {["https://example.com"]} [] [] ["https://example.com"])
    "example.com"
    [("foo", "https://example.com/category/foo/1");
     ("foo", "https://example.com/category/foo/2")]
    (Some ("foo", "https://example.com/category/foo/2")) 7 8.

(** A home page with seven plain links and two categories; the page of the
    first category has eight plain links and the same two category links. *)
Definition magazine_home : Soup :=
  [anchor "https://example.com/p1" "Page one";
   anchor "https://example.com/p2" "Page two";
   anchor "https://example.com/p3" "Page three";
   anchor "https://example.com/p4" "Page four";
   anchor "https://example.com/p5" "Page five";
   anchor "https://example.com/p6" "Page six";
   anchor "https://example.com/p7" "Page seven";
   anchor "https://example.com/category/travel" "Travel";
   anchor "https://example.com/category/blog" "Blog"].

Definition magazine_travel : Soup :=
  [anchor "https://example.com/t1" "Trip one";
   anchor "https://example.com/t2" "Trip two";
   anchor "https://example.com/t3" "Trip three";
   anchor "https://example.com/t4" "Trip four";
   anchor "https://example.com/t5" "Trip five";
   anchor "https://example.com/t6" "Trip six";
   anchor "https://example.com/t7" "Trip seven";
   anchor "https://example.com/t8" "Trip eight";
   anchor "https://example.com/category/travel" "Travel";
   anchor "https://example.com/category/blog" "Blog"].

Definition magazine : Env :=
  site [html "https://example.com" magazine_home;
        html "https://example.com/category/travel" magazine_travel;
        html "https://example.com/category/blog" [para "Posts"]].

(** A page with an image whose alternative text holds a keyword, and a
    paragraph that holds one too. *)
Definition gallery : Env :=
  site [html "https://example.com"
          [mkElement "img" [("src", "/tour.png"); ("alt", "gowithguide tour")] [];
           para "Book with gowithguide"]].

(** The site of [shop] without its category pages, with a keyword on the
    eighth page crawled. *)
Definition late : Env :=
  site [html "https://example.com" home_links;
        html "https://example.com/p1" [para "One"];
        html "https://example.com/p2" [para "Two"];
        html "https://example.com/p3" [para "Three"];
        html "https://example.com/p4" [para "Four"];
        html "https://example.com/p5" [para "Five"];
        html "https://example.com/p6" [para "Six"];
        html "https://example.com/p7" [para "Tours by gowithguide"]].

(** A home page with two plain links; the first page linked has an anchor
    whose href holds a keyword, followed by an anchor whose href has an
    unclosed bracket in its host, on which [urljoin] raises. *)
Definition broken_pages : list (string * Response) :=
  [html "https://example.com"
     [anchor "https://example.com/p1" "Page one";
      anchor "https://example.com/p2" "Page two"];
   html "https://example.com/p1"
     [anchor "https://example.com/gowithguide" "Partner";
      anchor "http://[" "Contact"];
   html "https://example.com/p2" [para "Two"]].

Definition broken : Env :=
  mkEnv urljoin_absolute netloc_of Fuzz.partial_ratio elements
    (fun url => lookup_page url broken_pages)
    (fun _ href => if String.eqb href "http://[" then Some "Invalid IPv6 URL" else None)
    (fun _ => None).

End Sites.

(** ** Predicates used in the statements *)

(** What the match scan stores as the context of a record: for the two kinds
    cut by [truncate_context], the cut form of a text that matched, which has
    at most 203 characters; for the other kinds, the very string that
    matched. *)
Definition context_as_scanned (E : Env) (r : MatchRecord) : Prop :=
  match matchKind r with
  | KeywordInContent | KeywordInMetaContent =>
      (String.length (context r) <= 203)%nat /\
      exists text, ck E text = true /\ context r = truncate_context text
  | _ => ck E (context r) = true
  end.

(** [acc'] is [acc] with records appended, each as the scan stores them. *)
Definition scan_extends (E : Env) (acc acc' : list MatchRecord) : Prop :=
  exists new, acc' = (acc ++ new)%list /\ Forall (context_as_scanned E) new.

Definition is_found_categories (msg : Status) : bool :=
  match msg with MsgFoundCategories _ => true | _ => false end.

Definition is_moving (msg : Status) : bool :=
  match msg with MsgMovingToFirst _ | MsgMovingToNext _ => true | _ => false end.

(** A running main-domain session with nothing to crawl, no match and no
    category. *)
Definition idle_running (cd : CrawlData) : Prop :=
  running cd = true /\ current_category cd = None /\ queue cd = [] /\
  pages_crawled cd < max_pages cd /\ categories cd = [] /\ results (shared cd) = [].

(** ** Lines 384-405: what is shown and exported *)

(** [l[-n:]] for a positive [n]. *)
Definition last_n {A} (n : nat) (l : list A) : list A :=
  skipn (List.length l - n) l.

(** Lines 384-386: the activity feed, the last 15 entries, newest first. *)
Definition status_window (cd : CrawlData) : list Status :=
  rev (last_n 15 (status (shared cd))).

(** Lines 389-397: the matches shown, the last 10, newest first; an empty
    context is shown as N/A. *)
Definition shown_context (r : MatchRecord) : string :=
  if PyStr.is_empty (context r) then "N/A" else context r.

Definition results_view (cd : CrawlData) : list (string * MatchKind * string) :=
  List.map (fun r => (fst (fst r), matchKind r, shown_context r))
    (rev (last_n 10 (results (shared cd)))).

(** ** Further predicates used in the statements *)

(** The feed entry that goes with a match record. *)
Definition match_message (r : MatchRecord) : Status :=
  MsgMatch (matchKind r) (context r).

(** The shared objects with entries appended to the feed. *)
Definition with_status (msgs : list Status) (sh : Shared) : Shared :=
  mkShared (visited sh) (results sh) (status sh ++ msgs)%list (http_log sh).

(** From [sh] to [sh'] the URLs [new] were requested, in that order: they are
    pairwise distinct, none was visited in [sh], and they are what the
    visited set has gained; the results and the feed were only appended
    to. *)
Definition shared_extends (sh sh' : Shared) (new : list string) : Prop :=
  http_log sh' = (http_log sh ++ new)%list /\
  (visited sh' = visited sh ∪ list_to_set new) /\
  NoDup new /\
  (forall u, In u new -> u ∉ visited sh) /\
  (exists added, results sh' = (results sh ++ added)%list) /\
  (exists msgs, status sh' = (status sh ++ msgs)%list).

Definition crawl_extends (cd cd' : CrawlData) (new : list string) : Prop :=
  main_domain cd' = main_domain cd /\
  max_pages cd' = max_pages cd /\
  shared_extends (shared cd) (shared cd') new.

(** [acc'] is [acc] with records appended and, for each of them and in the
    same order, its entry in the feed; the records name [final_url] as their
    source and none is of the image kind. *)
Definition scan_reports (final_url : string) (acc acc' : list MatchRecord * list Status)
    : Prop :=
  exists new,
    fst acc' = (fst acc ++ new)%list /\
    snd acc' = (snd acc ++ List.map match_message new)%list /\
    Forall (fun r => fst (fst r) = final_url /\ matchKind r <> KeywordInImageAlt) new.

(** The shared objects once the entry at the head of the queue, if there is
    one, has been given to [process_url]. *)
Definition entry_shared (E : Env) (cd : CrawlData) : Shared :=
  match queue cd with
  | [] => shared cd
  | (url, depth) :: _ => snd (process_url E url (main_domain cd) (shared cd) depth)
  end.

(** The session was stopped by the loop whose page limit is [mp], and the
    last entry of the feed says why: a match was found, or the page limit was
    reached without a match and no category is left to move to. *)
Definition stopped_with_reason (mp : Z) (cd : CrawlData) : Prop :=
  exists pre last,
    status (shared cd) = (pre ++ [last])%list /\
    match last with
    | MsgFoundMatchesMain n | MsgFoundMatchesCategory n _ =>
        results (shared cd) <> [] /\ n = len_list (results (shared cd))
    | MsgNoCategories =>
        results (shared cd) = [] /\ categories cd = [] /\ mp <= pages_crawled cd
    | MsgNoMoreCategories =>
        results (shared cd) = [] /\ mp <= pages_crawled cd
    | _ => False
    end.

(** The URL [url] was built by [extract_categories] from an anchor of the
    page: the anchor's [href], stripped and lower-cased, holds [/category/]
    and is joined to the base URL. *)
Definition category_source (E : Env) (soup : Soup) (base_url url : string) : Prop :=
  exists link,
    In link (Bs4.find_all_a_href soup) /\
    PyStr.contains "/category/" (PyStr.lower (PyStr.strip (Bs4.get link "href" ""))) = true /\
    url = urljoin E base_url (PyStr.lower (PyStr.strip (Bs4.get link "href" ""))).

(** A host without [www.] in any letter case. *)
Definition plain_host (host : string) : Prop :=
  PyStr.contains "www." (PyStr.lower host) = false.

(** Lines 361-364: the category the category loop moves to at the page
    limit, if there is one. *)
Definition next_category (name : string) (cats : list (string * string))
    : option (string * string) :=
  let current_idx := index_of_name name cats 0 in
  if (current_idx <? len_list cats - 1)%Z
  then nth_error cats (Z.to_nat (current_idx + 1))
  else None.

(** A bound on the passes the category loop with page limit [mp] still makes
    from [cd], where [target] is the URL the loop restarts from at the page
    limit.  Once that URL is visited, a restart finds it visited, gets no
    link from it and ends on the empty queue. *)
Definition target_seen (target : option string) (sh : Shared) : bool :=
  match target with
  | Some u => bool_decide (u ∈ visited sh)
  | None => true
  end.

Definition at_restart (target : option string) (cd : CrawlData) : bool :=
  match queue cd, target with
  | [(url, _)], Some u => ((pages_crawled cd =? 0)%Z && String.eqb url u)%bool
  | _, _ => false
  end.

Definition passes_left (mp : Z) (target : option string) (cd : CrawlData) : Z :=
  if (running cd && (pages_crawled cd <? mp)%Z)%bool
  then
    match queue cd with
    | [] => 1
    | _ :: _ =>
        let after_restart := if target_seen target (shared cd) then 2 else mp + 2 in
        if at_restart target cd then after_restart
        else (mp - pages_crawled cd) + after_restart
    end
  else 0.

(** In the environment [E] neither [urljoin] nor [urlparse] raises. *)
Definition never_raises (E : Env) : Prop :=
  (forall base url, urljoin_error E base url = None) /\
  (forall url, urlparse_error E url = None).

(** The page counter is within the budget. *)
Definition within_budget (cd : CrawlData) : Prop :=
  0 <= pages_crawled cd <= max_pages cd.

(** * Properties *)

(** ** Strings *)

Lemma app_String (c : ascii) (s t : string) : String c s ++ t = String c (s ++ t).
Proof. reflexivity. Qed.

Lemma app_empty (t : string) : "" ++ t = t.
Proof. reflexivity. Qed.

Ltac simpl_app := rewrite ?app_String, ?app_empty in *.

Lemma prefix_spec (p s : string) :
  String.prefix p s = true <-> exists post, s = p ++ post.
Proof.
  revert s. induction p as [|a p IH]; intros s.
  - destruct s; simpl; split; eauto.
  - destruct s as [|b s]; simpl.
    + split; [discriminate | intros [post H]; discriminate].
    + destruct (ascii_dec a b) as [->|Hne].
      * rewrite IH. split; intros [post H]; exists post; simpl_app; congruence.
      * split; [discriminate | intros [post H]; simpl_app; congruence].
Qed.

Lemma contains_unfold (sub s : string) :
  PyStr.contains sub s =
  if String.prefix sub s then true
  else match s with
       | EmptyString => false
       | String _ s' => PyStr.contains sub s'
       end.
Proof. destruct s; reflexivity. Qed.

Lemma contains_spec (sub s : string) :
  PyStr.contains sub s = true <-> occurs_in sub s.
Proof.
  induction s as [|c s IH]; rewrite contains_unfold.
  - destruct (String.prefix sub "") eqn:Hp.
    + apply prefix_spec in Hp as [post Hp]. split; [|reflexivity].
      intros _. exists "", post. exact Hp.
    + split; [discriminate|]. intros (pre & post & H).
      destruct pre; [|discriminate]. simpl_app.
      assert (String.prefix sub "" = true) as Hq by (apply prefix_spec; eauto).
      congruence.
  - destruct (String.prefix sub (String c s)) eqn:Hp.
    + apply prefix_spec in Hp as [post Hp]. split; [|reflexivity].
      intros _. exists "", post. exact Hp.
    + rewrite IH. split.
      * intros (pre & post & ->). exists (String c pre), post. reflexivity.
      * intros (pre & post & H). destruct pre as [|c' pre].
        -- assert (String.prefix sub (String c s) = true) as Hq
             by (apply prefix_spec; eauto).
           congruence.
        -- simpl_app. injection H as _ ->. exists pre, post. reflexivity.
Qed.

Lemma length_take (n : nat) (s : string) :
  String.length (PyStr.take n s) = Nat.min n (String.length s).
Proof.
  revert s. induction n as [|n IH]; intros [|c s]; simpl; auto.
Qed.

Lemma length_app (a b : string) :
  String.length (a ++ b) = (String.length a + String.length b)%nat.
Proof. induction a as [|c a IH]; simpl_app; simpl; auto. Qed.


(** ** [is_subdomain_of] *)

(** C6.  The three hosts of the specification are classified as it says, but
    the classifier removes every occurrence of [www.], not only a leading
    one: the host [mywww.example.com] ends with [.example.com] and is
    reported as foreign to [example.com], while [awww.b.com] is reported
    as belonging to [ab.com]; the classifier worded by the specification
    decides both the other way. *)
Theorem is_subdomain_of_removes_inner_www :
  is_subdomain_of "www.Example.com" "example.com" = true /\
  is_subdomain_of "sub.example.com" "example.com" = true /\
  is_subdomain_of "example.org" "example.com" = false /\
  is_subdomain_of "mywww.example.com" "example.com" = false /\
  isSameSite_spec "mywww.example.com" "example.com" = true /\
  is_subdomain_of "awww.b.com" "ab.com" = true /\
  isSameSite_spec "awww.b.com" "ab.com" = false.
Proof. repeat split; vm_compute; reflexivity. Qed.

(** ** [contains_keyword] *)

Lemma contains_keyword_unfold pr (text : string) (kws : list string) :
  contains_keyword pr text kws = true <->
  text <> "" /\
  exists kw, In kw kws /\
    (PyStr.contains (PyStr.lower kw) (PyStr.strip (PyStr.lower text)) = true \/
     85 <= pr (PyStr.strip (PyStr.lower text)) (PyStr.lower kw)).
Proof.
  unfold contains_keyword. destruct text as [|c text]; simpl PyStr.is_empty; cbv iota.
  - split; [discriminate | intros [H _]; congruence].
  - rewrite orb_true_iff, !existsb_exists. split.
    + intros [(kw & Hin & H) | (kw & Hin & H)]; (split; [discriminate|]);
        exists kw; split; auto.
      right. apply Z.leb_le. exact H.
    + intros (_ & kw & Hin & [H | H]); [left | right]; exists kw; split; auto.
      apply Z.leb_le. exact H.
Qed.

(** The score that decides the first example is 82, and no score bounded by
    the modelled one accepts it. *)
Lemma visit_example_score :
  Fuzz.partial_ratio (PyStr.strip (PyStr.lower "Visit Go With Guide today"))
    (PyStr.lower "gowithguide") = 82.
Proof. vm_compute. reflexivity. Qed.

Lemma visit_example_rejected_below pr :
  (forall a b, pr a b <= Fuzz.partial_ratio a b) ->
  contains_keyword pr "Visit Go With Guide today" ["gowithguide"] = false.
Proof.
  intros Hle. destruct (contains_keyword pr _ _) eqn:H; [|reflexivity].
  apply contains_keyword_unfold in H as (_ & kw & Hin & Hkw).
  destruct Hin as [<-|[]].
  destruct Hkw as [Hc | Hs].
  - vm_compute in Hc. discriminate.
  - specialize (Hle (PyStr.strip (PyStr.lower "Visit Go With Guide today"))
                    (PyStr.lower "gowithguide")).
    rewrite visit_example_score in Hle. lia.
Qed.

(** C5, as the code has it.  The matcher rejects the empty text.  For any
    score function, it accepts a text exactly when the text is not empty and,
    once lower-cased and stripped of surrounding white space, it contains
    some lower-cased keyword or scores at least 85 against one.  With the
    modelled score, the spaced phrase of the specification is rejected for
    the keyword [gowithguide] (the score is 82) and accepted for the keyword
    [go with guide], and the unrelated text is rejected. *)
Theorem contains_keyword_characterised :
  (forall pr kws, contains_keyword pr "" kws = false) /\
  (forall pr text kws,
     contains_keyword pr text kws = true <->
     text <> "" /\
     exists kw, In kw kws /\
       (occurs_in (PyStr.lower kw) (PyStr.strip (PyStr.lower text)) \/
        85 <= pr (PyStr.strip (PyStr.lower text)) (PyStr.lower kw))) /\
  contains_keyword Fuzz.partial_ratio "Visit Go With Guide today" ["gowithguide"] = false /\
  contains_keyword Fuzz.partial_ratio "Visit Go With Guide today" ["go with guide"] = true /\
  contains_keyword Fuzz.partial_ratio "completely unrelated text" ["gowithguide"] = false.
Proof.
  split; [reflexivity|]. split.
  - intros pr text kws. rewrite contains_keyword_unfold.
    split; intros (Hne & kw & Hin & H); (split; [exact Hne|]); exists kw; split; auto.
    + destruct H as [H|H]; [left; apply contains_spec; exact H | right; exact H].
    + destruct H as [H|H]; [left; apply contains_spec; exact H | right; exact H].
  - repeat split; vm_compute; reflexivity.
Qed.

(** C5, as the specification has it: the spaced phrase is claimed to match the
    keyword [gowithguide]; it does not. *)
Lemma visit_example_is_rejected :
  contains_keyword Fuzz.partial_ratio "Visit Go With Guide today" ["gowithguide"] <> true.
Proof. vm_compute. discriminate. Qed.

(** ** [process_url] on a visited URL *)

(** C10.  On a URL that is already in the visited set, [process_url] returns
    no link and no document and hands back the shared objects as they were:
    the visited set, the results, the status feed, and the log of requests,
    so no request was sent. *)
Theorem process_url_visited (E : Env) (url main_domain : string) (sh : Shared) (depth : Z) :
  url ∈ visited sh ->
  process_url E url main_domain sh depth = (([], None), sh).
Proof.
  intros Hin. unfold process_url. rewrite bool_decide_eq_true_2; [reflexivity | exact Hin].
Qed.

Lemma process_url_visited_witness :
  process_url Sites.foreign "https://example.com" "example.com"
    (shared Sites.foreign_session) 0
  = (([], None), shared Sites.foreign_session).
Proof.
  apply (process_url_visited Sites.foreign).
  apply (bool_decide_unpack _). vm_compute. exact I.
Defined.

(** ** The external gate of [process_url] *)

(** C3, as the code has it.  An entry that is not yet visited, loads as HTML,
    ends (after redirects) on a host foreign to the main site and has a depth
    above 1 is requested all the same: the URL joins the visited set and the
    request log, the load is reported, and only then is the page dropped
    unparsed, with no record, no link, no document and a skip message. *)
Theorem external_entry_fetched_then_skipped (E : Env) (url main_domain : string)
    (sh : Shared) (depth : Z) (r : Response) :
  url ∉ visited sh ->
  http_get E url = GetOk r ->
  PyStr.contains "text/html" (resp_content_type r) = true ->
  is_subdomain_of (netloc E (resp_url r)) main_domain = false ->
  1 < depth ->
  process_url E url main_domain sh depth =
    (([], None),
     mkShared ({[url]} ∪ visited sh) (results sh)
       (status sh ++ [MsgCrawled url; MsgSkippingExternal depth (resp_url r)])
       (http_log sh ++ [url])).
Proof.
  intros Hnew Hget Hhtml Hext Hdepth. unfold process_url.
  rewrite bool_decide_eq_false_2 by exact Hnew.
  rewrite Hget, Hhtml, Hext. simpl negb.
  apply Z.ltb_lt in Hdepth. rewrite Hdepth. simpl andb. cbv iota.
  rewrite <- app_assoc. reflexivity.
Qed.

Lemma external_entry_fetched_then_skipped_witness :
  process_url Sites.foreign "https://other.org/deep" "example.com"
    (shared Sites.foreign_session) 2
  = (([], None),
     mkShared ({["https://other.org/deep"]} ∪ visited (shared Sites.foreign_session))
       (results (shared Sites.foreign_session))
       (status (shared Sites.foreign_session)
        ++ [MsgCrawled "https://other.org/deep";
            MsgSkippingExternal 2 "https://other.org/deep"])
       (http_log (shared Sites.foreign_session) ++ ["https://other.org/deep"])).
Proof.
  apply (external_entry_fetched_then_skipped Sites.foreign "https://other.org/deep"
           "example.com" (shared Sites.foreign_session) 2
           (mkResponse "https://other.org/deep" "text/html; charset=utf-8"
              [Sites.anchor "https://other.org/more" "More"])).
  - apply (bool_decide_eq_false_1 _). vm_compute. reflexivity.
  - reflexivity.
  - vm_compute. reflexivity.
  - vm_compute. reflexivity.
  - lia.
Defined.

(** C3, as the specification has it: no request for an external entry of
    depth 2.  On the three-site example the crawl started at the home page
    requests all three pages, the last one being foreign to the main site
    and queued at depth 2. *)
Lemma external_depth_2_is_requested :
  is_subdomain_of (netloc Sites.foreign "https://other.org/deep") "example.com" = false /\
  option_map
    (fun cd => (http_log (shared cd), status (shared cd)))
    (tick Sites.foreign 10 (press_start Sites.foreign "example.com" Sites.fresh))
  = Some
      (["https://example.com"; "https://partner.net/"; "https://other.org/deep"],
       [MsgStarting "https://example.com";
        MsgCrawled "https://example.com";
        MsgCrawled "https://partner.net/";
        MsgCrawled "https://other.org/deep";
        MsgSkippingExternal 2 "https://other.org/deep";
        MsgNoMorePagesMain 3]).
Proof. split; vm_compute; reflexivity. Qed.

(** ** The contexts stored by the match scan *)

Lemma truncate_context_length (text : string) :
  (String.length (truncate_context text) <= 203)%nat.
Proof.
  unfold truncate_context, PyStr.len.
  destruct (200 <? Z.of_nat (String.length text))%Z eqn:Hlen.
  - rewrite length_app, length_take. change (String.length "...") with 3%nat. lia.
  - apply Z.ltb_ge in Hlen. lia.
Qed.

Lemma truncate_context_short (text : string) :
  (String.length text <= 200)%nat -> truncate_context text = text.
Proof.
  intros H. unfold truncate_context, PyStr.len.
  destruct (200 <? Z.of_nat (String.length text))%Z eqn:Hlen; [|reflexivity].
  apply Z.ltb_lt in Hlen. lia.
Qed.

Lemma scan_extends_refl (E : Env) (acc : list MatchRecord) : scan_extends E acc acc.
Proof. exists []. split; [symmetry; apply app_nil_r | constructor]. Qed.

Lemma scan_extends_snoc (E : Env) (acc acc' : list MatchRecord) (r : MatchRecord) :
  scan_extends E acc acc' -> context_as_scanned E r -> scan_extends E acc (acc' ++ [r]).
Proof.
  intros (new & -> & Hnew) Hr. exists (new ++ [r])%list. split.
  - symmetry. apply app_assoc.
  - apply Forall_app. split; [exact Hnew | constructor; [exact Hr | constructor]].
Qed.

Lemma scan_extends_trans (E : Env) (a b c : list MatchRecord) :
  scan_extends E a b -> scan_extends E b c -> scan_extends E a c.
Proof.
  intros (n1 & -> & H1) (n2 & -> & H2). exists (n1 ++ n2)%list. split.
  - symmetry. apply app_assoc.
  - apply Forall_app. split; assumption.
Qed.

Lemma context_cut (E : Env) (final_url : string) (kind : MatchKind) (text : string) :
  kind = KeywordInContent \/ kind = KeywordInMetaContent ->
  ck E text = true ->
  context_as_scanned E (final_url, kind, truncate_context text).
Proof.
  intros Hkind Hck. unfold context_as_scanned, matchKind, context. simpl.
  destruct Hkind as [-> | ->]; (split; [apply truncate_context_length | eauto]).
Qed.

Ltac split_scan :=
  repeat match goal with
         | |- context [if ?b then _ else _] => destruct b eqn:?
         | |- context [match ?o with Some _ => _ | None => _ end] => destruct o eqn:?
         end.

Ltac scanned_context :=
  match goal with
  | |- context_as_scanned _ (_, KeywordInContent, truncate_context _) =>
      apply context_cut; [left; reflexivity |]
  | |- context_as_scanned _ (_, KeywordInMetaContent, truncate_context _) =>
      apply context_cut; [right; reflexivity |]
  | |- context_as_scanned _ _ => unfold context_as_scanned, matchKind, context; simpl
  end;
  repeat match goal with
         | H : (_ && _)%bool = true |- _ => apply andb_true_iff in H as [? ?]
         end;
  assumption.

Lemma scan_element_extends (E : Env) (final_url : string)
    (acc : list MatchRecord * list Status) (element : option Element) :
  scan_extends E (fst acc) (fst (scan_element E final_url acc element)).
Proof.
  unfold scan_element. destruct element as [element|]; [|apply scan_extends_refl].
  cbv zeta beta. split_scan; cbn [fst snd];
    repeat first [apply scan_extends_refl | apply scan_extends_snoc];
    scanned_context.
Qed.

Lemma scan_elements_extend (E : Env) (final_url : string)
    (elements : list (option Element)) (acc : list MatchRecord * list Status) :
  scan_extends E (fst acc) (fst (fold_left (scan_element E final_url) elements acc)).
Proof.
  revert acc. induction elements as [|element elements IH]; intros acc; simpl.
  - apply scan_extends_refl.
  - eapply scan_extends_trans; [apply scan_element_extends | apply IH].
Qed.

Lemma process_url_results (E : Env) (url main_domain : string) (sh : Shared) (depth : Z) :
  scan_extends E (results sh) (results (snd (process_url E url main_domain sh depth))).
Proof.
  unfold process_url.
  destruct (bool_decide (url ∈ visited sh)); [apply scan_extends_refl|].
  destruct (http_get E url) as [response|msg]; [|apply scan_extends_refl].
  destruct (negb (PyStr.contains "text/html" (resp_content_type response)));
    [apply scan_extends_refl|].
  destruct (negb (is_subdomain_of (netloc E (resp_url response)) main_domain) && (1 <? depth)%Z)%bool;
    [apply scan_extends_refl|].
  pose proof (scan_elements_extend E (resp_url response)
                (elements_to_check (resp_soup response))
                (results sh, (status sh ++ [MsgCrawled url])%list)) as Hscan.
  destruct (fold_left _ _ _) as [results' status']. exact Hscan.
Qed.

(** C7, as the code has it.  Whatever [process_url] adds to the results was
    stored by the match scan: a record of kind content or meta content holds
    the cut form of a text that matched, at most 203 characters (the first
    200 and three dots when the text is longer, the text itself otherwise);
    a record of any other kind holds the string that matched, whole. *)
Theorem scanned_contexts (E : Env) (url main_domain : string) (sh sh' : Shared) (depth : Z)
    (links : list (string * Z)) (soup : option Soup) :
  process_url E url main_domain sh depth = ((links, soup), sh') ->
  exists new,
    results sh' = (results sh ++ new)%list /\
    Forall (context_as_scanned E) new /\
    Forall (fun r => matchKind r = KeywordInContent \/ matchKind r = KeywordInMetaContent ->
                     (String.length (context r) <= 203)%nat) new.
Proof.
  intros Hrun. pose proof (process_url_results E url main_domain sh depth) as Hext.
  rewrite Hrun in Hext. destruct Hext as (new & Heq & Hnew).
  exists new. split; [exact Heq|]. split; [exact Hnew|].
  eapply Forall_impl; [exact Hnew|]. intros r Hr Hkind.
  unfold context_as_scanned in Hr. destruct Hkind as [Hk | Hk]; rewrite Hk in Hr; apply Hr.
Qed.

Lemma scanned_contexts_witness :
  exists new,
    results (snd (process_url Sites.wordy "https://example.com" "example.com"
                    (shared Sites.fresh) 0))
    = (results (shared Sites.fresh) ++ new)%list /\
    Forall (context_as_scanned Sites.wordy) new /\
    Forall (fun r => matchKind r = KeywordInContent \/ matchKind r = KeywordInMetaContent ->
                     (String.length (context r) <= 203)%nat) new.
Proof.
  apply (scanned_contexts Sites.wordy "https://example.com" "example.com"
           (shared Sites.fresh) _ 0
           (fst (fst (process_url Sites.wordy "https://example.com" "example.com"
                        (shared Sites.fresh) 0)))
           (snd (fst (process_url Sites.wordy "https://example.com" "example.com"
                        (shared Sites.fresh) 0)))).
  vm_compute. reflexivity.
Defined.

(** C7, as the specification has it: at most 200 characters.  A paragraph of
    201 characters that holds a keyword is recorded with a context of 203
    characters. *)
Lemma content_context_of_203_characters :
  String.length Sites.long_text = 201%nat /\
  option_map
    (fun cd =>
       List.map (fun r => (matchKind r, String.length (context r))) (results (shared cd)))
    (tick Sites.wordy 10 (press_start Sites.wordy "example.com" Sites.fresh))
  = Some [(KeywordInContent, 203%nat)].
Proof. split; vm_compute; reflexivity. Qed.

(** ** What the loop bodies leave untouched *)

Ltac crawl_cbn :=
  cbn [running queue shared main_domain categories current_category pages_crawled
       max_pages set_running set_queue set_shared set_categories set_current_category
       set_pages_crawled add_status visited results status http_log fst snd] in *.

Lemma enqueue_links_frame (new_links : list (string * Z)) (cd : CrawlData) :
  running (enqueue_links new_links cd) = running cd /\
  shared (enqueue_links new_links cd) = shared cd /\
  main_domain (enqueue_links new_links cd) = main_domain cd /\
  categories (enqueue_links new_links cd) = categories cd /\
  current_category (enqueue_links new_links cd) = current_category cd /\
  pages_crawled (enqueue_links new_links cd) = pages_crawled cd /\
  max_pages (enqueue_links new_links cd) = max_pages cd /\
  exists added,
    queue (enqueue_links new_links cd) = (queue cd ++ added)%list /\
    forall e, In e added -> In e new_links.
Proof.
  unfold enqueue_links. revert cd.
  induction new_links as [|[link link_depth] new_links IH]; intros cd; simpl.
  - repeat split. exists []. split; [symmetry; apply app_nil_r | intros e []].
  - destruct (bool_decide (link ∈ visited (shared cd))).
    + destruct (IH cd) as (? & ? & ? & ? & ? & ? & ? & added & Hq & Hin).
      repeat split; try assumption. exists added. split; [exact Hq | auto].
    + destruct (IH (set_queue (queue cd ++ [(link, link_depth)]) cd))
        as (? & ? & ? & ? & ? & ? & ? & added & Hq & Hin).
      crawl_cbn. repeat split; try assumption.
      exists ((link, link_depth) :: added). split.
      * rewrite Hq, <- app_assoc. reflexivity.
      * intros e [<- | He]; [left; reflexivity | right; auto].
Qed.

Lemma enqueue_links_running new_links cd :
  running (enqueue_links new_links cd) = running cd.
Proof. apply enqueue_links_frame. Qed.

Lemma enqueue_links_shared new_links cd :
  shared (enqueue_links new_links cd) = shared cd.
Proof. apply enqueue_links_frame. Qed.

Lemma enqueue_links_categories new_links cd :
  categories (enqueue_links new_links cd) = categories cd.
Proof. apply enqueue_links_frame. Qed.

Lemma enqueue_links_current_category new_links cd :
  current_category (enqueue_links new_links cd) = current_category cd.
Proof. apply enqueue_links_frame. Qed.

Lemma enqueue_links_pages_crawled new_links cd :
  pages_crawled (enqueue_links new_links cd) = pages_crawled cd.
Proof. apply enqueue_links_frame. Qed.

Lemma enqueue_links_max_pages new_links cd :
  max_pages (enqueue_links new_links cd) = max_pages cd.
Proof. apply enqueue_links_frame. Qed.

Lemma enqueue_links_main_domain new_links cd :
  main_domain (enqueue_links new_links cd) = main_domain cd.
Proof. apply enqueue_links_frame. Qed.

Lemma enqueue_links_queue new_links cd :
  exists added,
    queue (enqueue_links new_links cd) = (queue cd ++ added)%list /\
    forall e, In e added -> In e new_links.
Proof. apply enqueue_links_frame. Qed.

Create Rewrite HintDb crawl.
#[local] Hint Rewrite enqueue_links_running enqueue_links_shared enqueue_links_categories
  enqueue_links_current_category enqueue_links_pages_crawled enqueue_links_max_pages
  enqueue_links_main_domain : crawl.

Ltac crawl_simpl := repeat (progress (crawl_cbn; autorewrite with crawl in * )).

(** ** Category extraction *)

Lemma main_entry_categories (E : Env) (url : string) (depth : Z) (cd : CrawlData) :
  categories (main_entry E url depth cd) =
  match snd (fst (process_url E url (main_domain cd) (shared cd) depth)) with
  | Some soup =>
      if (pages_crawled cd =? 0)%Z then extract_categories E soup url else categories cd
  | None => categories cd
  end.
Proof.
  unfold main_entry.
  destruct (process_url E url (main_domain cd) (shared cd) depth) as [[new_links soup] sh].
  crawl_simpl. destruct soup as [soup|]; crawl_simpl; [|reflexivity].
  replace (pages_crawled cd + 1 =? 1)%Z with (pages_crawled cd =? 0)%Z
    by (destruct (Z.eqb_spec (pages_crawled cd) 0), (Z.eqb_spec (pages_crawled cd + 1) 1);
        first [reflexivity | lia]).
  destruct (pages_crawled cd =? 0)%Z; [|reflexivity].
  destruct (is_nil (extract_categories E soup url)); crawl_simpl; reflexivity.
Qed.

Lemma category_entry_categories (E : Env) (url : string) (depth : Z) (cd : CrawlData) :
  categories (category_entry E url depth cd) = categories cd.
Proof.
  unfold category_entry.
  destruct (process_url E url (main_domain cd) (shared cd) depth) as [[new_links soup] sh].
  crawl_simpl. reflexivity.
Qed.

(** ** The depth of queued entries *)

Lemma extract_links_depth (E : Env) (final_url main_domain : string) (visited : gset string)
    (depth : Z) (soup : Soup) :
  Forall depth_ok (extract_links E final_url main_domain visited depth soup).
Proof.
  unfold extract_links. apply List.Forall_forall. intros e Hin.
  apply in_flat_map in Hin as (link & _ & Hin).
  destruct ((_ <=? 2)%Z && _)%bool eqn:Hkeep; [|destruct Hin].
  destruct Hin as [<- | []]. apply andb_true_iff in Hkeep as [Hle _].
  apply Z.leb_le in Hle. exact Hle.
Qed.

Lemma process_url_links_depth (E : Env) (url main_domain : string) (sh : Shared) (depth : Z) :
  Forall depth_ok (fst (fst (process_url E url main_domain sh depth))).
Proof.
  unfold process_url.
  destruct (bool_decide (url ∈ visited sh)); [constructor|].
  destruct (http_get E url) as [response|msg]; [|constructor].
  destruct (negb (PyStr.contains "text/html" (resp_content_type response))); [constructor|].
  destruct (negb (is_subdomain_of (netloc E (resp_url response)) main_domain) && (1 <? depth)%Z)%bool;
    [constructor|].
  destruct (fold_left _ _ _) as [results' status']. cbn [fst].
  apply extract_links_depth.
Qed.

Lemma enqueue_links_depth (new_links : list (string * Z)) (cd : CrawlData) :
  Forall depth_ok (queue cd) -> Forall depth_ok new_links ->
  Forall depth_ok (queue (enqueue_links new_links cd)).
Proof.
  intros Hq Hl. destruct (enqueue_links_queue new_links cd) as (added & -> & Hin).
  apply Forall_app. split; [exact Hq|].
  apply List.Forall_forall. intros e He.
  apply (proj1 (List.Forall_forall depth_ok new_links) Hl e (Hin e He)).
Qed.

Lemma main_entry_depth (E : Env) (url : string) (depth : Z) (cd : CrawlData) :
  Forall depth_ok (queue cd) -> Forall depth_ok (queue (main_entry E url depth cd)).
Proof.
  intros Hq. unfold main_entry.
  pose proof (process_url_links_depth E url (main_domain cd) (shared cd) depth) as Hl.
  destruct (process_url E url (main_domain cd) (shared cd) depth) as [[new_links soup] sh].
  cbn [fst] in Hl. apply enqueue_links_depth; [|exact Hl].
  destruct soup as [soup|]; crawl_simpl; [|exact Hq].
  destruct (pages_crawled cd + 1 =? 1)%Z; crawl_simpl; [|exact Hq].
  destruct (is_nil (extract_categories E soup url)); crawl_simpl; exact Hq.
Qed.

Lemma category_entry_depth (E : Env) (url : string) (depth : Z) (cd : CrawlData) :
  Forall depth_ok (queue cd) -> Forall depth_ok (queue (category_entry E url depth cd)).
Proof.
  intros Hq. unfold category_entry.
  pose proof (process_url_links_depth E url (main_domain cd) (shared cd) depth) as Hl.
  destruct (process_url E url (main_domain cd) (shared cd) depth) as [[new_links soup] sh].
  cbn [fst] in Hl. apply enqueue_links_depth; [|exact Hl]. crawl_simpl. exact Hq.
Qed.

Lemma depth_ok_seed (url : string) : Forall depth_ok [(url, 0)].
Proof. constructor; [unfold depth_ok; simpl; lia | constructor]. Qed.

Lemma main_body_depth (E : Env) (max_pages : Z) (cd : CrawlData) :
  Forall depth_ok (queue cd) -> Forall depth_ok (queue (fst (main_body E max_pages cd))).
Proof.
  intros Hq. unfold main_body. destruct (queue cd) as [|[url depth] rest] eqn:Hqueue.
  - crawl_simpl. rewrite Hqueue. constructor.
  - assert (Forall depth_ok (queue (main_entry E url depth (set_queue rest cd)))) as Hentry.
    { apply main_entry_depth. crawl_simpl. inversion Hq; assumption. }
    destruct (negb (is_nil (results (shared (main_entry E url depth (set_queue rest cd))))));
      crawl_simpl; [exact Hentry|].
    destruct (max_pages <=? pages_crawled (main_entry E url depth (set_queue rest cd)))%Z;
      crawl_simpl; [|exact Hentry].
    destruct (categories (main_entry E url depth (set_queue rest cd)));
      crawl_simpl; [exact Hentry | apply depth_ok_seed].
Qed.

Lemma category_body_depth (E : Env) (max_pages : Z) (category_name : string)
    (cd : CrawlData) :
  Forall depth_ok (queue cd) ->
  Forall depth_ok (queue (fst (category_body E max_pages category_name cd))).
Proof.
  intros Hq. unfold category_body. destruct (queue cd) as [|[url depth] rest] eqn:Hqueue.
  - crawl_simpl. rewrite Hqueue. constructor.
  - assert (Forall depth_ok (queue (category_entry E url depth (set_queue rest cd))))
      as Hentry.
    { apply category_entry_depth. crawl_simpl. inversion Hq; assumption. }
    destruct (negb (is_nil (results (shared (category_entry E url depth (set_queue rest cd))))));
      crawl_simpl; [exact Hentry|].
    destruct (max_pages <=? pages_crawled (category_entry E url depth (set_queue rest cd)))%Z;
      crawl_simpl; [|exact Hentry].
    destruct (index_of_name category_name
                (categories (category_entry E url depth (set_queue rest cd))) 0
              <? len_list (categories (category_entry E url depth (set_queue rest cd))) - 1)%Z;
      crawl_simpl; [|exact Hentry].
    destruct (nth_error _ _); crawl_simpl; [apply depth_ok_seed | exact Hentry].
Qed.

Lemma reachable_queue_depth (E : Env) (cd : CrawlData) :
  reachable E cd -> Forall depth_ok (queue cd).
Proof.
  induction 1 as [log | url_input cd _ IH | cd _ IH | cd _ IH
                  | cd name url _ IH Hcur | max_pages cd _ IH | max_pages name cd _ IH].
  - constructor.
  - unfold press_start. crawl_cbn.
    destruct (negb (running cd) && is_nil (queue cd))%bool; crawl_simpl;
      [apply depth_ok_seed | exact IH].
  - constructor.
  - exact IH.
  - crawl_simpl. apply depth_ok_seed.
  - apply main_body_depth. exact IH.
  - apply category_body_depth. exact IH.
Qed.

(** The runs of the script stay within the reachable sessions. *)
Lemma main_loop_reachable (E : Env) (max_pages : Z) (fuel : nat) (cd cd' : CrawlData) :
  reachable E cd -> main_loop E max_pages fuel cd = Some cd' -> reachable E cd'.
Proof.
  revert cd. induction fuel as [|fuel IH]; intros cd Hreach; simpl;
    destruct (running cd && (pages_crawled cd <? max_pages)%Z)%bool;
    try discriminate; try (intros [= <-]; exact Hreach).
  pose proof (reach_main_body E max_pages cd Hreach) as Hnext.
  destruct (main_body E max_pages cd) as [cd1 [|]]; cbn [fst] in Hnext.
  - apply IH. exact Hnext.
  - intros [= <-]. exact Hnext.
Qed.

Lemma category_loop_reachable (E : Env) (max_pages : Z) (name : string) (fuel : nat)
    (cd cd' : CrawlData) :
  reachable E cd -> category_loop E max_pages name fuel cd = Some cd' -> reachable E cd'.
Proof.
  revert cd. induction fuel as [|fuel IH]; intros cd Hreach; simpl;
    destruct (running cd && (pages_crawled cd <? max_pages)%Z)%bool;
    try discriminate; try (intros [= <-]; exact Hreach).
  pose proof (reach_category_body E max_pages name cd Hreach) as Hnext.
  destruct (category_body E max_pages name cd) as [cd1 [|]]; cbn [fst] in Hnext.
  - apply IH. exact Hnext.
  - intros [= <-]. exact Hnext.
Qed.

Lemma tick_reachable (E : Env) (fuel : nat) (cd cd' : CrawlData) :
  reachable E cd -> tick E fuel cd = Some cd' -> reachable E cd'.
Proof.
  intros Hreach. unfold tick. destruct (running cd); [|intros [= <-]; exact Hreach].
  destruct (current_category cd) as [[name url]|] eqn:Hcur.
  - destruct (pages_crawled cd =? 0)%Z.
    + apply category_loop_reachable. apply reach_category_start; assumption.
    + apply category_loop_reachable. exact Hreach.
  - apply main_loop_reachable. exact Hreach.
Qed.

(** C4.  In every session the program can reach (from the initial
    dictionary, through the buttons and any number of loop passes), every
    entry of the queue has a depth of at most 2; and whatever entry
    [process_url] is given, at whatever depth, every link it returns for the
    queue has a depth of at most 2: a link whose computed depth is above 2 is
    not returned, so nothing is queued for it. *)
Theorem queued_depth_at_most_2 (E : Env) (cd : CrawlData) :
  reachable E cd ->
  Forall depth_ok (queue cd) /\
  forall url depth,
    Forall depth_ok (fst (fst (process_url E url (main_domain cd) (shared cd) depth))).
Proof.
  intros Hreach. split.
  - apply (reachable_queue_depth E). exact Hreach.
  - intros url depth. apply process_url_links_depth.
Qed.

Lemma queued_depth_at_most_2_witness :
  let cd :=
    fst (main_body Sites.foreign 8
           (fst (main_body Sites.foreign 8
                   (press_start Sites.foreign "example.com" (reset_data []))))) in
  queue cd = [("https://other.org/deep", 2)] /\
  Forall depth_ok (queue cd) /\
  forall url depth,
    Forall depth_ok
      (fst (fst (process_url Sites.foreign url (main_domain cd) (shared cd) depth))).
Proof.
  split; [vm_compute; reflexivity|].
  apply (queued_depth_at_most_2 Sites.foreign).
  apply reach_main_body, reach_main_body, reach_start, reach_init.
Defined.

(** ** Pause on the first match *)

Lemma main_loop_unfold (E : Env) (max_pages : Z) (fuel : nat) (cd : CrawlData) :
  main_loop E max_pages (S fuel) cd =
  if (running cd && (pages_crawled cd <? max_pages)%Z)%bool
  then match main_body E max_pages cd with
       | (cd', Break) => Some cd'
       | (cd', Next) => main_loop E max_pages fuel cd'
       end
  else Some cd.
Proof. reflexivity. Qed.

Lemma category_loop_unfold (E : Env) (max_pages : Z) (name : string) (fuel : nat)
    (cd : CrawlData) :
  category_loop E max_pages name (S fuel) cd =
  if (running cd && (pages_crawled cd <? max_pages)%Z)%bool
  then match category_body E max_pages name cd with
       | (cd', Break) => Some cd'
       | (cd', Next) => category_loop E max_pages name fuel cd'
       end
  else Some cd.
Proof. reflexivity. Qed.

Lemma process_url_http_log (E : Env) (url main_domain : string) (sh : Shared) (depth : Z) :
  http_log (snd (process_url E url main_domain sh depth)) = http_log sh \/
  http_log (snd (process_url E url main_domain sh depth)) = (http_log sh ++ [url])%list.
Proof.
  unfold process_url.
  destruct (bool_decide (url ∈ visited sh)); [left; reflexivity|]. right.
  destruct (http_get E url) as [response|msg]; [|reflexivity].
  destruct (negb (PyStr.contains "text/html" (resp_content_type response))); [reflexivity|].
  destruct (negb (is_subdomain_of (netloc E (resp_url response)) main_domain) && (1 <? depth)%Z)%bool;
    [reflexivity|].
  destruct (fold_left _ _ _) as [results' status']. reflexivity.
Qed.

(** What processing one entry does to the queue, the request log and the
    page counter: the rest of the queue is kept and links are appended, at
    most one request is sent, for the entry itself, and the counter grows by
    one. *)
Lemma main_entry_effect (E : Env) (url : string) (depth : Z) (rest : list (string * Z))
    (cd : CrawlData) :
  let cd1 := main_entry E url depth (set_queue rest cd) in
  (exists added, queue cd1 = (rest ++ added)%list) /\
  (http_log (shared cd1) = http_log (shared cd) \/
   http_log (shared cd1) = (http_log (shared cd) ++ [url])%list) /\
  pages_crawled cd1 = pages_crawled cd + 1 /\
  running cd1 = running cd.
Proof.
  unfold main_entry. crawl_cbn.
  pose proof (process_url_http_log E url (main_domain cd) (shared cd) depth) as Hlog.
  destruct (process_url E url (main_domain cd) (shared cd) depth) as [[new_links soup] sh].
  cbn [snd] in Hlog.
  match goal with
  | |- context [enqueue_links new_links ?c] =>
      destruct (enqueue_links_queue new_links c) as (added & Hq & _);
      assert (queue c = rest /\ http_log (shared c) = http_log sh
              /\ pages_crawled c = pages_crawled cd + 1
              /\ running c = running cd) as (Hc1 & Hc2 & Hc3 & Hc4)
  end.
  { destruct soup as [soup|]; crawl_simpl; [|repeat split].
    destruct (pages_crawled cd + 1 =? 1)%Z; crawl_simpl; [|repeat split].
    destruct (is_nil (extract_categories E soup url)); crawl_simpl; repeat split. }
  crawl_simpl. rewrite Hq, Hc1, Hc2, Hc3, Hc4.
  split; [exists added; reflexivity|]. split; [exact Hlog | split; reflexivity].
Qed.

Lemma category_entry_effect (E : Env) (url : string) (depth : Z) (rest : list (string * Z))
    (cd : CrawlData) :
  let cd1 := category_entry E url depth (set_queue rest cd) in
  (exists added, queue cd1 = (rest ++ added)%list) /\
  (http_log (shared cd1) = http_log (shared cd) \/
   http_log (shared cd1) = (http_log (shared cd) ++ [url])%list) /\
  pages_crawled cd1 = pages_crawled cd + 1 /\
  running cd1 = running cd.
Proof.
  unfold category_entry. crawl_cbn.
  pose proof (process_url_http_log E url (main_domain cd) (shared cd) depth) as Hlog.
  destruct (process_url E url (main_domain cd) (shared cd) depth) as [[new_links soup] sh].
  cbn [snd] in Hlog.
  match goal with
  | |- context [enqueue_links new_links ?c] =>
      destruct (enqueue_links_queue new_links c) as (added & Hq & _)
  end.
  crawl_simpl. rewrite Hq. crawl_simpl.
  split; [exists added; reflexivity|]. split; [exact Hlog | split; reflexivity].
Qed.

Lemma is_nil_false {A} (l : list A) : l <> [] -> is_nil l = false.
Proof. destruct l; [congruence | reflexivity]. Qed.

Lemma is_nil_true {A} (l : list A) : l = [] -> is_nil l = true.
Proof. intros ->. reflexivity. Qed.

Lemma main_body_match (E : Env) (max_pages : Z) (cd : CrawlData) (url : string) (depth : Z)
    (rest : list (string * Z)) :
  queue cd = (url, depth) :: rest ->
  results (shared (main_entry E url depth (set_queue rest cd))) <> [] ->
  main_body E max_pages cd =
    (set_running false
       (add_status
          (MsgFoundMatchesMain
             (len_list (results (shared (main_entry E url depth (set_queue rest cd))))))
          (main_entry E url depth (set_queue rest cd))),
     Break).
Proof.
  intros Hq Hres. unfold main_body. rewrite Hq. rewrite (is_nil_false _ Hres). reflexivity.
Qed.

Lemma category_body_match (E : Env) (max_pages : Z) (name : string) (cd : CrawlData)
    (url : string) (depth : Z) (rest : list (string * Z)) :
  queue cd = (url, depth) :: rest ->
  results (shared (category_entry E url depth (set_queue rest cd))) <> [] ->
  category_body E max_pages name cd =
    (set_running false
       (add_status
          (MsgFoundMatchesCategory
             (len_list (results (shared (category_entry E url depth (set_queue rest cd)))))
             name)
          (category_entry E url depth (set_queue rest cd))),
     Break).
Proof.
  intros Hq Hres. unfold category_body. rewrite Hq. rewrite (is_nil_false _ Hres).
  reflexivity.
Qed.

(** A pass that ends with a match in the results, having started without
    one, ends by [break] with the session paused; a pass that lets the loop
    go on leaves the results empty. *)
Lemma main_body_flow (E : Env) (max_pages : Z) (cd : CrawlData) :
  match main_body E max_pages cd with
  | (cd', Next) => results (shared cd') = []
  | (cd', Break) =>
      results (shared cd) = [] -> results (shared cd') <> [] -> running cd' = false
  end.
Proof.
  unfold main_body. destruct (queue cd) as [|[url depth] rest].
  - crawl_simpl. congruence.
  - destruct (results (shared (main_entry E url depth (set_queue rest cd)))) eqn:Hres;
      cbn [is_nil negb].
    + destruct (max_pages <=? _)%Z; [|exact Hres].
      destruct (categories _); crawl_simpl; exact Hres.
    + crawl_simpl. reflexivity.
Qed.

Lemma category_body_flow (E : Env) (max_pages : Z) (name : string) (cd : CrawlData) :
  match category_body E max_pages name cd with
  | (cd', Next) => results (shared cd') = []
  | (cd', Break) =>
      results (shared cd) = [] -> results (shared cd') <> [] -> running cd' = false
  end.
Proof.
  unfold category_body. destruct (queue cd) as [|[url depth] rest].
  - crawl_simpl. congruence.
  - destruct (results (shared (category_entry E url depth (set_queue rest cd)))) eqn:Hres;
      cbn [is_nil negb].
    + destruct (max_pages <=? _)%Z; [|exact Hres].
      destruct (_ <? _)%Z; [|crawl_simpl; exact Hres].
      destruct (nth_error _ _); crawl_simpl; exact Hres.
    + crawl_simpl. reflexivity.
Qed.

Lemma main_loop_match_pauses (E : Env) (max_pages : Z) (fuel : nat) (cd cd' : CrawlData) :
  results (shared cd) = [] ->
  main_loop E max_pages fuel cd = Some cd' ->
  results (shared cd') <> [] ->
  running cd' = false.
Proof.
  revert cd. induction fuel as [|fuel IH]; intros cd Hempty.
  - simpl. destruct (running cd && _)%bool; [discriminate|]. intros [= <-]. congruence.
  - rewrite main_loop_unfold. destruct (running cd && _)%bool;
      [|intros [= <-]; congruence].
    pose proof (main_body_flow E max_pages cd) as Hflow.
    destruct (main_body E max_pages cd) as [cd1 [|]].
    + apply IH. exact Hflow.
    + intros [= <-]. apply Hflow. exact Hempty.
Qed.

Lemma category_loop_match_pauses (E : Env) (max_pages : Z) (name : string) (fuel : nat)
    (cd cd' : CrawlData) :
  results (shared cd) = [] ->
  category_loop E max_pages name fuel cd = Some cd' ->
  results (shared cd') <> [] ->
  running cd' = false.
Proof.
  revert cd. induction fuel as [|fuel IH]; intros cd Hempty.
  - simpl. destruct (running cd && _)%bool; [discriminate|]. intros [= <-]. congruence.
  - rewrite category_loop_unfold. destruct (running cd && _)%bool;
      [|intros [= <-]; congruence].
    pose proof (category_body_flow E max_pages name cd) as Hflow.
    destruct (category_body E max_pages name cd) as [cd1 [|]].
    + apply IH. exact Hflow.
    + intros [= <-]. apply Hflow. exact Hempty.
Qed.

Lemma tick_match_pauses (E : Env) (fuel : nat) (cd cd' : CrawlData) :
  results (shared cd) = [] ->
  tick E fuel cd = Some cd' ->
  results (shared cd') <> [] ->
  running cd' = false.
Proof.
  intros Hempty. unfold tick. destruct (running cd); [|intros [= <-]; congruence].
  destruct (current_category cd) as [[name url]|].
  - apply category_loop_match_pauses.
    destruct (pages_crawled cd =? 0)%Z; crawl_simpl; exact Hempty.
  - apply main_loop_match_pauses. exact Hempty.
Qed.

Lemma tick_paused (E : Env) (fuel : nat) (cd : CrawlData) :
  running cd = false -> tick E fuel cd = Some cd.
Proof. intros Hrun. unfold tick. rewrite Hrun. reflexivity. Qed.

(** ** The end of a phase on an empty queue *)

Lemma tick_idle (E : Env) (fuel : nat) (cd : CrawlData) :
  idle_running cd ->
  tick E (S fuel) cd = Some (add_status (MsgNoMorePagesMain (pages_crawled cd)) cd) /\
  idle_running (add_status (MsgNoMorePagesMain (pages_crawled cd)) cd).
Proof.
  intros (Hrun & Hcur & Hq & Hpages & Hcat & Hres). split.
  - unfold tick. rewrite Hrun, Hcur, main_loop_unfold, Hrun.
    apply Z.ltb_lt in Hpages. rewrite Hpages. cbn [andb].
    unfold main_body. rewrite Hq. reflexivity.
  - unfold idle_running. crawl_simpl. repeat split; assumption.
Qed.

Lemma ticks_idle (E : Env) (fuel n : nat) (cd : CrawlData) :
  idle_running cd ->
  exists cd', ticks E (S fuel) n cd = Some cd' /\ idle_running cd'.
Proof.
  revert cd. induction n as [|n IH]; intros cd Hidle.
  - exists cd. split; [reflexivity | exact Hidle].
  - destruct (tick_idle E fuel cd Hidle) as [Htick Hidle']. cbn [ticks]. rewrite Htick.
    apply IH. exact Hidle'.
Qed.

(** C1, on the code.  The site has one page, without links and without
    keyword.  After the crawl is started, however often the script is run,
    the session is still running: it has no match, no category and an empty
    queue, and the fallback that would end the crawl is not evaluated. *)
Theorem lonely_site_never_completes (n : nat) :
  exists cd,
    ticks Sites.lonely 10 (S n) (press_start Sites.lonely "example.com" Sites.fresh) = Some cd /\
    running cd = true /\ queue cd = [] /\ categories cd = [] /\
    results (shared cd) = [] /\ current_category cd = None.
Proof.
  assert (exists cd1,
             tick Sites.lonely 10 (press_start Sites.lonely "example.com" Sites.fresh) = Some cd1
             /\ idle_running cd1) as (cd1 & Htick & Hidle).
  { eexists. split; [vm_compute; reflexivity|]. vm_compute. repeat split. }
  destruct (ticks_idle Sites.lonely 9 n cd1 Hidle) as (cd & Hticks & Hcd).
  exists cd. cbn [ticks]. rewrite Htick. split; [exact Hticks|].
  destruct Hcd as (? & ? & ? & ? & ? & ?). repeat split; assumption.
Qed.

(** ** The next category *)


Lemma index_of_name_distinct (cats : list (string * string)) (i : nat) (k : Z)
    (c : string * string) :
  NoDup (List.map fst cats) ->
  nth_error cats i = Some c ->
  index_of_name (fst c) cats k = k + Z.of_nat i.
Proof.
  revert i k. induction cats as [|cat cats IH]; intros i k Hnd Hnth.
  - destruct i; discriminate.
  - cbn [List.map] in Hnd. apply NoDup_cons in Hnd as [Hfresh Hnd].
    destruct i as [|i]; cbn [nth_error] in Hnth; cbn [index_of_name].
    + injection Hnth as ->. rewrite String.eqb_refl. lia.
    + destruct (String.eqb_spec (fst cat) (fst c)) as [Heq | _].
      * exfalso. apply Hfresh. rewrite Heq.
        apply list_elem_of_In, in_map, (nth_error_In _ _ Hnth).
      * rewrite (IH i (k + 1) Hnd Hnth). lia.
Qed.

(** C9, on the code.  The page has two anchors under the category segment
    [foo]; [extract_categories] returns two categories of that name.  When
    the category loop reaches the page limit while the second, last one is
    current, the lookup by name finds the first, and the session moves to
    the second category again instead of ending: it keeps running with the
    queue reset to that category.  On the magazine site, whose two
    categories have distinct names, the run started at the home page moves
    to the first category when the main domain reaches the page limit, and
    when that category reaches the limit in turn it moves to the first
    category again; the second category is never requested. *)
Theorem repeated_category_name_restarts :
  extract_categories Sites.twins Sites.twin_links "https://example.com"
  = categories Sites.twin_session /\
  current_category Sites.twin_session = nth_error (categories Sites.twin_session) 1 /\
  nth_error (categories Sites.twin_session) 2 = None /\
  (let cd := fst (category_body Sites.twins 8 "foo" Sites.twin_session) in
   running cd = true /\
   results (shared cd) = [] /\
   current_category cd = Some ("foo", "https://example.com/category/foo/2") /\
   queue cd = [("https://example.com/category/foo/2", 0)] /\
   pages_crawled cd = 0) /\
  option_map running (tick Sites.twins 40 Sites.twin_session) = Some true /\
  option_map
    (fun cd =>
       (running cd, results (shared cd), categories cd,
        List.filter is_moving (status (shared cd)),
        existsb (String.eqb "https://example.com/category/blog") (http_log (shared cd))))
    (tick Sites.magazine 60 (press_start Sites.magazine "example.com" Sites.fresh))
  = Some
      (true, [],
       [("travel", "https://example.com/category/travel");
        ("blog", "https://example.com/category/blog")],
       [MsgMovingToFirst "travel"; MsgMovingToFirst "travel"],
       false).
Proof. repeat split; vm_compute; reflexivity. Qed.

(** With pairwise distinct names, and the local name that of the category at
    index [i], the end of a category phase on the page limit is as the
    specification words it. *)
Lemma category_body_next_distinct (E : Env) (max_pages : Z) (cd : CrawlData) (url : string)
    (depth : Z) (rest : list (string * Z)) (i : nat) (c : string * string) :
  queue cd = (url, depth) :: rest ->
  results (shared (category_entry E url depth (set_queue rest cd))) = [] ->
  max_pages <= pages_crawled (category_entry E url depth (set_queue rest cd)) ->
  NoDup (List.map fst (categories cd)) ->
  nth_error (categories cd) i = Some c ->
  match nth_error (categories cd) (S i) with
  | Some next =>
      current_category (fst (category_body E max_pages (fst c) cd)) = Some next /\
      queue (fst (category_body E max_pages (fst c) cd)) = [(snd next, 0)] /\
      pages_crawled (fst (category_body E max_pages (fst c) cd)) = 0 /\
      running (fst (category_body E max_pages (fst c) cd)) = running cd
  | None => running (fst (category_body E max_pages (fst c) cd)) = false
  end.
Proof.
  intros Hq Hres Hmax Hnd Hnth. unfold category_body. rewrite Hq.
  pose proof (category_entry_categories E url depth (set_queue rest cd)) as Hcat.
  pose proof (category_entry_effect E url depth rest cd) as (_ & _ & _ & Hrun).
  crawl_cbn. rewrite Hres. cbn [is_nil negb].
  apply Z.leb_le in Hmax. rewrite Hmax. crawl_simpl. rewrite Hcat.
  rewrite (index_of_name_distinct (categories cd) i 0 c Hnd Hnth).
  assert (i < List.length (categories cd))%nat as Hlt
    by (apply nth_error_Some; congruence).
  replace (Z.to_nat (0 + Z.of_nat i + 1)) with (S i) by lia.
  destruct (nth_error (categories cd) (S i)) as [next|] eqn:Hnext.
  - assert (S i < List.length (categories cd))%nat as Hlt'
      by (apply nth_error_Some; congruence).
    replace (0 + Z.of_nat i <? len_list (categories cd) - 1)%Z with true
      by (symmetry; apply Z.ltb_lt; unfold len_list; lia).
    crawl_simpl. repeat split. exact Hrun.
  - apply nth_error_None in Hnext.
    replace (0 + Z.of_nat i <? len_list (categories cd) - 1)%Z with false
      by (symmetry; apply Z.ltb_ge; unfold len_list; lia).
    crawl_simpl. reflexivity.
Qed.

(** * Further properties of the crawler *)

(** ** The outcomes of [process_url] *)

(** The five ways through [process_url]: the URL was visited; the request
    failed; the content is not HTML; the page is foreign and too deep; the
    page is parsed. *)
Lemma process_url_cases (E : Env) (url main_domain : string) (sh : Shared) (depth : Z) :
  ((url ∈ visited sh) /\ process_url E url main_domain sh depth = (([], None), sh)) \/
  ((url ∉ visited sh) /\
   ((exists msg,
       http_get E url = GetError msg /\
       process_url E url main_domain sh depth =
         (([], None),
          mkShared ({[url]} ∪ visited sh) (results sh)
            (status sh ++ [MsgFetchError url msg]) (http_log sh ++ [url]))) \/
    (exists r,
       http_get E url = GetOk r /\
       ((PyStr.contains "text/html" (resp_content_type r) = false /\
         process_url E url main_domain sh depth =
           (([], None),
            mkShared ({[url]} ∪ visited sh) (results sh)
              (status sh ++ [MsgCrawled url]) (http_log sh ++ [url]))) \/
        (PyStr.contains "text/html" (resp_content_type r) = true /\
         is_subdomain_of (netloc E (resp_url r)) main_domain = false /\ 1 < depth /\
         process_url E url main_domain sh depth =
           (([], None),
            mkShared ({[url]} ∪ visited sh) (results sh)
              (status sh ++ [MsgCrawled url; MsgSkippingExternal depth (resp_url r)])
              (http_log sh ++ [url]))) \/
        (PyStr.contains "text/html" (resp_content_type r) = true /\
         (is_subdomain_of (netloc E (resp_url r)) main_domain = true \/ depth <= 1) /\
         process_url E url main_domain sh depth =
           ((extract_links E (resp_url r) main_domain ({[url]} ∪ visited sh) depth
               (resp_soup r),
             Some (resp_soup r)),
            mkShared ({[url]} ∪ visited sh)
              (fst (fold_left (scan_element E (resp_url r)) (elements_to_check (resp_soup r))
                      (results sh, (status sh ++ [MsgCrawled url])%list)))
              (snd (fold_left (scan_element E (resp_url r)) (elements_to_check (resp_soup r))
                      (results sh, (status sh ++ [MsgCrawled url])%list)))
              (http_log sh ++ [url]))))))).
Proof.
  unfold process_url. destruct (decide (url ∈ visited sh)) as [Hin | Hnew].
  - left. rewrite bool_decide_eq_true_2 by exact Hin. split; [exact Hin | reflexivity].
  - right. split; [exact Hnew|]. rewrite bool_decide_eq_false_2 by exact Hnew.
    destruct (http_get E url) as [r|msg]; [right | left; eauto].
    exists r. split; [reflexivity|].
    destruct (PyStr.contains "text/html" (resp_content_type r)) eqn:Hhtml; cbn [negb];
      [right | left; split; reflexivity].
    destruct (is_subdomain_of (netloc E (resp_url r)) main_domain) eqn:Hsub; cbn [negb andb].
    + right. split; [reflexivity|]. split; [left; reflexivity|].
      destruct (fold_left _ _ _) as [results' status']. reflexivity.
    + destruct (1 <? depth)%Z eqn:Hdepth.
      * left. split; [reflexivity|]. split; [reflexivity|].
        apply Z.ltb_lt in Hdepth. split; [exact Hdepth|].
        rewrite <- app_assoc. reflexivity.
      * right. apply Z.ltb_ge in Hdepth. split; [reflexivity|].
        split; [right; exact Hdepth|].
        destruct (fold_left _ _ _) as [results' status']. reflexivity.
Qed.

(** X1.  Whatever happens, the URL given to [process_url] is in the visited
    set afterwards.  When no document is returned (URL already visited,
    failed request, content that is not HTML, foreign page too deep) no link
    is returned and the results are unchanged.  A document is returned only
    for a URL that was not visited, whose request succeeded with HTML
    content, and whose final host belongs to the main site or whose depth is
    at most 1; it is the document of that response. *)
Theorem process_url_outcome (E : Env) (url main_domain : string) (sh : Shared) (depth : Z) :
  (url ∈ visited (snd (process_url E url main_domain sh depth))) /\
  (snd (fst (process_url E url main_domain sh depth)) = None ->
   fst (fst (process_url E url main_domain sh depth)) = [] /\
   results (snd (process_url E url main_domain sh depth)) = results sh) /\
  (forall soup,
     snd (fst (process_url E url main_domain sh depth)) = Some soup ->
     (url ∉ visited sh) /\
     exists r,
       http_get E url = GetOk r /\ soup = resp_soup r /\
       PyStr.contains "text/html" (resp_content_type r) = true /\
       (is_subdomain_of (netloc E (resp_url r)) main_domain = true \/ depth <= 1)).
Proof.
  destruct (process_url_cases E url main_domain sh depth)
    as [[Hin ->] | [Hnew [(msg & Hget & ->) | (r & Hget & [(Hct & ->) | [(Hct & Hext & Hd & ->)
                                                       | (Hct & Hgate & ->)]])]]];
    cbn [fst snd visited results].
  - split; [exact Hin|]. split; [split; reflexivity | discriminate].
  - split; [set_solver|]. split; [split; reflexivity | discriminate].
  - split; [set_solver|]. split; [split; reflexivity | discriminate].
  - split; [set_solver|]. split; [split; reflexivity | discriminate].
  - split; [apply elem_of_union_l, elem_of_singleton; reflexivity|]. split; [discriminate|].
    intros soup [= <-]. split; [exact Hnew|]. exists r. auto.
Qed.

(** X2.  Every link [process_url] returns is not in the visited set it
    hands back, so it differs from the URL just processed; its depth is that
    of the page when the link's host belongs to the main site and one more
    when it does not, and it is at most 2. *)
Theorem returned_link (E : Env) (url main_domain : string) (sh : Shared) (depth : Z)
    (u : string) (d : Z) :
  In (u, d) (fst (fst (process_url E url main_domain sh depth))) ->
  (u ∉ visited (snd (process_url E url main_domain sh depth))) /\
  u <> url /\
  d = (if is_subdomain_of (netloc E u) main_domain then depth else depth + 1) /\
  d <= 2.
Proof.
  destruct (process_url_cases E url main_domain sh depth)
    as [[Hin ->] | [Hnew [(msg & Hget & ->) | (r & Hget & [(Hct & ->) | [(Hct & Hext & Hd & ->)
                                                       | (Hct & Hgate & ->)]])]]];
    cbn [fst snd visited]; try (intros []).
  clear Hgate. unfold extract_links. intros Hlink.
  apply in_flat_map in Hlink as (link & _ & Hlink).
  destruct ((_ <=? 2)%Z && _)%bool eqn:Hkeep; [|destruct Hlink].
  destruct Hlink as [[= Hu Hd] | []]. subst u d.
  apply andb_true_iff in Hkeep as [Hle Hfresh].
  apply Z.leb_le in Hle. apply negb_true_iff, bool_decide_eq_false in Hfresh.
  split; [exact Hfresh|]. split; [intros Heq; apply Hfresh; rewrite Heq; set_solver|].
  split; [|exact Hle].
  destruct (is_subdomain_of (netloc E (urljoin _ _ _)) _); reflexivity.
Qed.

Lemma returned_link_witness :
  let out := process_url Sites.foreign "https://partner.net/" "example.com"
               (mkShared {["https://example.com"]} [] [] ["https://example.com"]) 1 in
  ("https://other.org/deep" ∉ visited (snd out)) /\
  "https://other.org/deep" <> "https://partner.net/" /\
  2 = (if is_subdomain_of (netloc Sites.foreign "https://other.org/deep") "example.com"
       then 1 else 1 + 1) /\
  2 <= 2.
Proof.
  apply (returned_link Sites.foreign "https://partner.net/" "example.com"
           (mkShared {["https://example.com"]} [] [] ["https://example.com"]) 1
           "https://other.org/deep" 2).
  vm_compute. left. reflexivity.
Defined.

(** ** Links and the queue *)

Lemma process_url_links_fresh (E : Env) (url main_domain : string) (sh : Shared) (depth : Z)
    (e : string * Z) :
  In e (fst (fst (process_url E url main_domain sh depth))) ->
  fst e ∉ visited (snd (process_url E url main_domain sh depth)).
Proof.
  destruct (process_url_cases E url main_domain sh depth)
    as [[Hin ->] | [Hnew [(msg & Hget & ->) | (r & Hget & [(Hct & ->) | [(Hct & Hext & Hd & ->)
                                                       | (Hct & Hgate & ->)]])]]];
    cbn [fst snd visited]; try (intros []).
  clear Hgate. unfold extract_links. intros Hlink.
  apply in_flat_map in Hlink as (link & _ & Hlink).
  destruct ((_ <=? 2)%Z && _)%bool eqn:Hkeep; [|destruct Hlink].
  destruct Hlink as [<- | []]. cbn [fst].
  apply andb_true_iff in Hkeep as [_ Hfresh].
  apply negb_true_iff, bool_decide_eq_false in Hfresh. exact Hfresh.
Qed.

Lemma enqueue_links_fresh (new_links : list (string * Z)) (cd : CrawlData) :
  (forall e, In e new_links -> fst e ∉ visited (shared cd)) ->
  queue (enqueue_links new_links cd) = (queue cd ++ new_links)%list.
Proof.
  unfold enqueue_links. revert cd.
  induction new_links as [|[link link_depth] new_links IH]; intros cd Hfresh; simpl.
  - symmetry. apply app_nil_r.
  - rewrite bool_decide_eq_false_2 by (apply (Hfresh (link, link_depth)); left; reflexivity).
    rewrite IH.
    + crawl_cbn. rewrite <- app_assoc. reflexivity.
    + intros e He. crawl_cbn. apply Hfresh. right. exact He.
Qed.

(** X3.  Every link [process_url] returns is put on the queue, behind the
    entries already there and in the order of the page, in the main-domain
    loop and in the category loop alike: the test of the visited set made
    before each append (lines 285 and 344) never rejects a link. *)
Theorem returned_links_all_queued (E : Env) (url : string) (depth : Z) (cd : CrawlData) :
  queue (main_entry E url depth cd) =
    (queue cd ++ fst (fst (process_url E url (main_domain cd) (shared cd) depth)))%list /\
  queue (category_entry E url depth cd) =
    (queue cd ++ fst (fst (process_url E url (main_domain cd) (shared cd) depth)))%list.
Proof.
  pose proof (process_url_links_fresh E url (main_domain cd) (shared cd) depth) as Hfresh.
  unfold main_entry, category_entry.
  destruct (process_url E url (main_domain cd) (shared cd) depth) as [[new_links soup] sh].
  cbn [fst snd] in *. split.
  - match goal with
    | |- context [enqueue_links new_links ?c] =>
        assert (queue c = queue cd /\ visited (shared c) = visited sh) as [Hq Hv]
    end.
    { destruct soup as [soup|]; crawl_simpl; [|split; reflexivity].
      destruct (pages_crawled cd + 1 =? 1)%Z; crawl_simpl; [|split; reflexivity].
      destruct (is_nil (extract_categories E soup url)); crawl_simpl; split; reflexivity. }
    rewrite enqueue_links_fresh; [rewrite Hq; reflexivity|].
    intros e He. rewrite Hv. apply Hfresh, He.
  - rewrite enqueue_links_fresh; [reflexivity|].
    intros e He. crawl_cbn. apply Hfresh, He.
Qed.

(** ** The match scan and the feed *)

Lemma scan_reports_refl (u : string) (acc : list MatchRecord * list Status) :
  scan_reports u acc acc.
Proof.
  exists []. simpl. rewrite !app_nil_r. repeat split. constructor.
Qed.

Lemma scan_reports_snoc (u : string) (acc : list MatchRecord * list Status)
    (res : list MatchRecord) (st : list Status) (k : MatchKind) (c : string) :
  scan_reports u acc (res, st) ->
  k <> KeywordInImageAlt ->
  scan_reports u acc ((res ++ [(u, k, c)])%list, (st ++ [MsgMatch k c])%list).
Proof.
  intros (new & Hres & Hst & Hnew) Hk. cbn [fst snd] in *. subst res st.
  exists (new ++ [(u, k, c)])%list. cbn [fst snd]. split; [|split].
  - symmetry. apply app_assoc.
  - rewrite map_app, app_assoc. reflexivity.
  - apply Forall_app. split; [exact Hnew|]. constructor; [|constructor].
    split; [reflexivity | exact Hk].
Qed.

Lemma scan_reports_trans (u : string) (a b c : list MatchRecord * list Status) :
  scan_reports u a b -> scan_reports u b c -> scan_reports u a c.
Proof.
  intros (n1 & Hr1 & Hs1 & H1) (n2 & Hr2 & Hs2 & H2). exists (n1 ++ n2)%list.
  rewrite Hr2, Hs2, Hr1, Hs1, map_app, <- !app_assoc. repeat split.
  apply Forall_app. split; assumption.
Qed.

Lemma scan_element_reports (E : Env) (u : string) (acc : list MatchRecord * list Status)
    (element : option Element) :
  (forall el, element = Some el -> String.eqb (el_name el) "img" = false) ->
  scan_reports u acc (scan_element E u acc element).
Proof.
  intros Himg. destruct element as [el|]; [|apply scan_reports_refl].
  unfold scan_element. rewrite (Himg el eq_refl). destruct acc as [res st].
  cbv zeta beta. split_scan; cbn [fst snd];
    repeat first [apply scan_reports_refl | apply scan_reports_snoc]; discriminate.
Qed.

Lemma scan_elements_report (E : Env) (u : string) (elements : list (option Element))
    (acc : list MatchRecord * list Status) :
  (forall e el, In e elements -> e = Some el -> String.eqb (el_name el) "img" = false) ->
  scan_reports u acc (fold_left (scan_element E u) elements acc).
Proof.
  revert acc. induction elements as [|element elements IH]; intros acc Himg; simpl.
  - apply scan_reports_refl.
  - eapply scan_reports_trans.
    + apply scan_element_reports. intros el Hel. apply (Himg element el); [left; reflexivity | exact Hel].
    + apply IH. intros e el He. apply Himg. right. exact He.
Qed.

(** The scan never looks at an [img] element: the elements come from the
    eight names of line 107 or are the description [meta]. *)
Lemma elements_to_check_not_img (soup : Soup) (e : option Element) (el : Element) :
  In e (elements_to_check soup) -> e = Some el -> String.eqb (el_name el) "img" = false.
Proof.
  unfold elements_to_check. intros He ->. apply in_app_iff in He as [He | [He | []]].
  - apply in_map_iff in He as (x & [= ->] & Hx).
    apply filter_In in Hx as [_ Hname]. simpl in Hname.
    repeat (apply orb_true_iff in Hname as [Hname | Hname];
            [apply String.eqb_eq in Hname; rewrite Hname; reflexivity|]).
    discriminate.
  - unfold Bs4.find_meta_description in He. apply find_some in He as [_ Hmeta].
    apply andb_true_iff in Hmeta as [Hname _].
    apply String.eqb_eq in Hname. rewrite Hname. reflexivity.
Qed.

(** X4.  What [process_url] adds to the results and to the feed go together:
    the feed gets the entries about the fetch (none of them a match entry),
    then one match entry per new record, in the order of the records, with
    the record's kind and context.  Every new record names as its source the
    final URL of the response, after redirects, not the URL requested. *)
Theorem matches_reported (E : Env) (url main_domain : string) (sh : Shared) (depth : Z) :
  exists fetch new,
    results (snd (process_url E url main_domain sh depth)) = (results sh ++ new)%list /\
    status (snd (process_url E url main_domain sh depth)) =
      (status sh ++ fetch ++ List.map match_message new)%list /\
    Forall (fun m => forall k c, m <> MsgMatch k c) fetch /\
    Forall (fun r => exists resp, http_get E url = GetOk resp /\ fst (fst r) = resp_url resp)
      new.
Proof.
  destruct (process_url_cases E url main_domain sh depth)
    as [[Hin ->] | [Hnew [(msg & Hget & ->) | (r & Hget & [(Hct & ->) | [(Hct & Hext & Hd & ->)
                                                       | (Hct & Hgate & ->)]])]]];
    cbn [fst snd results status].
  - exists [], []. simpl. rewrite !app_nil_r. repeat split; constructor.
  - exists [MsgFetchError url msg], []. simpl. rewrite !app_nil_r.
    repeat split; repeat constructor; discriminate.
  - exists [MsgCrawled url], []. simpl. rewrite !app_nil_r.
    repeat split; repeat constructor; discriminate.
  - exists [MsgCrawled url; MsgSkippingExternal depth (resp_url r)], []. simpl.
    rewrite ?app_nil_r, <- ?app_assoc. simpl. repeat split; repeat constructor; discriminate.
  - destruct (scan_elements_report E (resp_url r) (elements_to_check (resp_soup r))
                (results sh, (status sh ++ [MsgCrawled url])%list)
                (elements_to_check_not_img (resp_soup r)))
      as (new & Hres & Hst & Hrecs).
    cbn [fst snd] in Hres, Hst. exists [MsgCrawled url], new.
    rewrite Hres, Hst, <- app_assoc. repeat split.
    + repeat constructor; discriminate.
    + eapply Forall_impl; [exact Hrecs|]. intros rec [Hsrc _]. exists r. auto.
Qed.

(** ** What a pass of a loop does to the shared objects *)

Lemma with_status_nil (sh : Shared) : with_status [] sh = sh.
Proof. destruct sh. unfold with_status. simpl. rewrite app_nil_r. reflexivity. Qed.

Lemma main_entry_shared (E : Env) (url : string) (depth : Z) (cd : CrawlData) :
  exists msgs,
    shared (main_entry E url depth cd) =
    with_status msgs (snd (process_url E url (main_domain cd) (shared cd) depth)).
Proof.
  unfold main_entry.
  destruct (process_url E url (main_domain cd) (shared cd) depth) as [[new_links soup] sh].
  crawl_simpl.
  destruct soup as [soup|]; crawl_simpl; [|exists []; symmetry; apply with_status_nil].
  destruct (pages_crawled cd + 1 =? 1)%Z; crawl_simpl;
    [|exists []; symmetry; apply with_status_nil].
  destruct (is_nil (extract_categories E soup url)); crawl_simpl.
  - exists []. symmetry. apply with_status_nil.
  - eexists. reflexivity.
Qed.

Lemma category_entry_shared (E : Env) (url : string) (depth : Z) (cd : CrawlData) :
  shared (category_entry E url depth cd) =
  snd (process_url E url (main_domain cd) (shared cd) depth).
Proof.
  unfold category_entry.
  destruct (process_url E url (main_domain cd) (shared cd) depth) as [[new_links soup] sh].
  crawl_simpl. reflexivity.
Qed.

Lemma main_entry_frame (E : Env) (url : string) (depth : Z) (cd : CrawlData) :
  main_domain (main_entry E url depth cd) = main_domain cd /\
  max_pages (main_entry E url depth cd) = max_pages cd /\
  running (main_entry E url depth cd) = running cd /\
  current_category (main_entry E url depth cd) = current_category cd /\
  pages_crawled (main_entry E url depth cd) = pages_crawled cd + 1.
Proof.
  unfold main_entry.
  destruct (process_url E url (main_domain cd) (shared cd) depth) as [[new_links soup] sh].
  crawl_simpl.
  destruct soup as [soup|]; crawl_simpl; [|repeat split].
  destruct (pages_crawled cd + 1 =? 1)%Z; crawl_simpl; [|repeat split].
  destruct (is_nil (extract_categories E soup url)); crawl_simpl; repeat split.
Qed.

Lemma category_entry_frame (E : Env) (url : string) (depth : Z) (cd : CrawlData) :
  main_domain (category_entry E url depth cd) = main_domain cd /\
  max_pages (category_entry E url depth cd) = max_pages cd /\
  running (category_entry E url depth cd) = running cd /\
  current_category (category_entry E url depth cd) = current_category cd /\
  pages_crawled (category_entry E url depth cd) = pages_crawled cd + 1.
Proof.
  unfold category_entry.
  destruct (process_url E url (main_domain cd) (shared cd) depth) as [[new_links soup] sh].
  crawl_simpl. repeat split.
Qed.

Ltac split_body :=
  repeat match goal with
         | |- context [if ?b then _ else _] => destruct b eqn:?
         | |- context [match ?l with [] => _ | _ :: _ => _ end] => destruct l eqn:?
         | |- context [match ?o with Some _ => _ | None => _ end] => destruct o eqn:?
         end.

Lemma main_body_shared (E : Env) (max_pages : Z) (cd : CrawlData) :
  exists msgs, shared (fst (main_body E max_pages cd)) = with_status msgs (entry_shared E cd).
Proof.
  unfold main_body, entry_shared. destruct (queue cd) as [|[url depth] rest].
  - eexists. reflexivity.
  - destruct (main_entry_shared E url depth (set_queue rest cd)) as [msgs Hm].
    cbn [main_domain shared set_queue] in Hm.
    set (c := main_entry E url depth (set_queue rest cd)) in *.
    split_body; crawl_cbn; rewrite ?Hm; unfold with_status;
      cbn [visited results status http_log]; rewrite <- ?app_assoc;
      eexists; reflexivity.
Qed.

Lemma category_body_shared (E : Env) (max_pages : Z) (name : string) (cd : CrawlData) :
  exists msgs,
    shared (fst (category_body E max_pages name cd)) = with_status msgs (entry_shared E cd).
Proof.
  unfold category_body, entry_shared. destruct (queue cd) as [|[url depth] rest].
  - eexists. reflexivity.
  - pose proof (category_entry_shared E url depth (set_queue rest cd)) as Hm.
    cbn [main_domain shared set_queue] in Hm.
    set (c := category_entry E url depth (set_queue rest cd)) in *.
    split_body; crawl_cbn; rewrite ?Hm; unfold with_status;
      cbn [visited results status http_log]; rewrite <- ?app_assoc;
      first [eexists; reflexivity | exists []; symmetry; apply with_status_nil].
Qed.

Lemma main_body_frame (E : Env) (mp : Z) (cd : CrawlData) :
  main_domain (fst (main_body E mp cd)) = main_domain cd /\
  max_pages (fst (main_body E mp cd)) = max_pages cd.
Proof.
  unfold main_body. destruct (queue cd) as [|[url depth] rest]; [split; reflexivity|].
  destruct (main_entry_frame E url depth (set_queue rest cd)) as (Hd & Hm & _).
  cbn [main_domain max_pages set_queue] in Hd, Hm.
  set (c := main_entry E url depth (set_queue rest cd)) in *.
  split_body; crawl_cbn; split; assumption.
Qed.

Lemma category_body_frame (E : Env) (mp : Z) (name : string) (cd : CrawlData) :
  main_domain (fst (category_body E mp name cd)) = main_domain cd /\
  max_pages (fst (category_body E mp name cd)) = max_pages cd.
Proof.
  unfold category_body. destruct (queue cd) as [|[url depth] rest]; [split; reflexivity|].
  destruct (category_entry_frame E url depth (set_queue rest cd)) as (Hd & Hm & _).
  cbn [main_domain max_pages set_queue] in Hd, Hm.
  set (c := category_entry E url depth (set_queue rest cd)) in *.
  split_body; crawl_cbn; split; assumption.
Qed.

(** ** No record of the image kind *)

Lemma process_url_kinds (E : Env) (url main_domain : string) (sh : Shared) (depth : Z) :
  Forall (fun r => matchKind r <> KeywordInImageAlt) (results sh) ->
  Forall (fun r => matchKind r <> KeywordInImageAlt)
    (results (snd (process_url E url main_domain sh depth))).
Proof.
  intros Hold.
  destruct (process_url_cases E url main_domain sh depth)
    as [[Hin ->] | [Hnew [(msg & Hget & ->) | (r & Hget & [(Hct & ->) | [(Hct & Hext & Hd & ->)
                                                       | (Hct & Hgate & ->)]])]]];
    cbn [fst snd results]; try exact Hold.
  destruct (scan_elements_report E (resp_url r) (elements_to_check (resp_soup r))
              (results sh, (status sh ++ [MsgCrawled url])%list)
              (elements_to_check_not_img (resp_soup r)))
    as (new & Hres & _ & Hrecs).
  cbn [fst] in Hres. rewrite Hres. apply Forall_app. split; [exact Hold|].
  eapply Forall_impl; [exact Hrecs|]. intros rec [_ Hk]. exact Hk.
Qed.

Lemma entry_shared_kinds (E : Env) (cd : CrawlData) :
  Forall (fun r => matchKind r <> KeywordInImageAlt) (results (shared cd)) ->
  Forall (fun r => matchKind r <> KeywordInImageAlt) (results (entry_shared E cd)).
Proof.
  unfold entry_shared. destruct (queue cd) as [|[url depth] rest]; [auto|].
  apply process_url_kinds.
Qed.

(** X5.  No session the program can reach holds a match record of the
    image-alt kind: the branch of lines 140-146 looks for [img] elements, but
    the elements scanned are those of the eight names of line 107 and the
    description [meta], so it is never taken. *)
Theorem no_image_alt_record (E : Env) (cd : CrawlData) :
  reachable E cd ->
  Forall (fun r => matchKind r <> KeywordInImageAlt) (results (shared cd)).
Proof.
  induction 1 as [log | url_input cd _ IH | cd _ IH | cd _ IH
                  | cd name category_url _ IH _ | mp cd _ IH | mp name cd _ IH].
  - constructor.
  - unfold press_start. destruct (_ && _)%bool; crawl_cbn; [constructor | exact IH].
  - constructor.
  - exact IH.
  - crawl_cbn. exact IH.
  - destruct (main_body_shared E mp cd) as [msgs ->]. apply entry_shared_kinds, IH.
  - destruct (category_body_shared E mp name cd) as [msgs ->]. apply entry_shared_kinds, IH.
Qed.

Lemma no_image_alt_record_witness :
  Forall (fun r => matchKind r <> KeywordInImageAlt)
    (results (shared (fst (main_body Sites.gallery 8
                             (press_start Sites.gallery "example.com" Sites.fresh))))).
Proof.
  apply (no_image_alt_record Sites.gallery).
  apply reach_main_body, reach_start. exact (reach_init Sites.gallery []).
Defined.

(** ** A run only adds *)

Lemma shared_extends_refl (sh : Shared) : shared_extends sh sh [].
Proof.
  unfold shared_extends. simpl. rewrite app_nil_r.
  split; [reflexivity|]. split; [symmetry; apply union_empty_r_L|]. split; [constructor|].
  split; [intros u []|]. split; exists []; symmetry; apply app_nil_r.
Qed.

Lemma shared_extends_trans (a b c : Shared) (n1 n2 : list string) :
  shared_extends a b n1 -> shared_extends b c n2 -> shared_extends a c (n1 ++ n2)%list.
Proof.
  intros (Hl1 & Hv1 & Hd1 & Hf1 & [r1 Hr1] & [m1 Hm1])
         (Hl2 & Hv2 & Hd2 & Hf2 & [r2 Hr2] & [m2 Hm2]).
  unfold shared_extends. rewrite Hl2, Hl1, Hv2, Hv1, Hr2, Hr1, Hm2, Hm1, <- !app_assoc.
  split; [reflexivity|]. split; [rewrite list_to_set_app_L; symmetry; apply (assoc_L (∪))|].
  split; [|split; [|split; eexists; reflexivity]].
  - apply NoDup_app. split; [exact Hd1|]. split; [|exact Hd2].
    intros u Hu1 Hu2. apply list_elem_of_In in Hu2. apply (Hf2 u Hu2).
    rewrite Hv1. apply elem_of_union_r, elem_of_list_to_set. exact Hu1.
  - intros u Hu. apply in_app_iff in Hu as [Hu | Hu]; [apply Hf1, Hu|].
    intros Hin. apply (Hf2 u Hu). rewrite Hv1. apply elem_of_union_l. exact Hin.
Qed.

Lemma shared_extends_with_status (sh sh' : Shared) (new : list string) (msgs : list Status) :
  shared_extends sh sh' new -> shared_extends sh (with_status msgs sh') new.
Proof.
  intros (Hl & Hv & Hd & Hf & Hr & [m Hm]). unfold shared_extends, with_status.
  cbn [visited results status http_log]. repeat split; try assumption.
  exists (m ++ msgs)%list. rewrite Hm, <- app_assoc. reflexivity.
Qed.

Lemma process_url_extends (E : Env) (url main_domain : string) (sh : Shared) (depth : Z) :
  exists new, shared_extends sh (snd (process_url E url main_domain sh depth)) new.
Proof.
  destruct (process_url_cases E url main_domain sh depth)
    as [[Hin ->] | [Hnew [(msg & Hget & ->) | (r & Hget & [(Hct & ->) | [(Hct & Hext & Hd & ->)
                                                       | (Hct & Hgate & ->)]])]]];
    cbn [fst snd]; [exists []; apply shared_extends_refl | exists [url] ..];
    unfold shared_extends; cbn [visited results status http_log];
    (split; [reflexivity|]);
    (split; [simpl; rewrite union_empty_r_L; apply (comm_L (∪))|]);
    (split; [apply NoDup_cons_2; [apply not_elem_of_nil | apply NoDup_nil_2]|]);
    (split; [intros u [<- | []]; exact Hnew|]).
  - split; [exists []; symmetry; apply app_nil_r | eexists; reflexivity].
  - split; [exists []; symmetry; apply app_nil_r | eexists; reflexivity].
  - split; [exists []; symmetry; apply app_nil_r | eexists; reflexivity].
  - destruct (scan_elements_report E (resp_url r) (elements_to_check (resp_soup r))
                (results sh, (status sh ++ [MsgCrawled url])%list)
                (elements_to_check_not_img (resp_soup r)))
      as (new & Hres & Hst & _).
    cbn [fst snd] in Hres, Hst. rewrite Hres, Hst, <- app_assoc.
    split; eexists; reflexivity.
Qed.

Lemma entry_shared_extends (E : Env) (cd : CrawlData) :
  exists new, shared_extends (shared cd) (entry_shared E cd) new.
Proof.
  unfold entry_shared. destruct (queue cd) as [|[url depth] rest].
  - exists []. apply shared_extends_refl.
  - apply process_url_extends.
Qed.

Lemma crawl_extends_refl (cd : CrawlData) : crawl_extends cd cd [].
Proof. split; [reflexivity|]. split; [reflexivity|]. apply shared_extends_refl. Qed.

Lemma crawl_extends_trans (a b c : CrawlData) (n1 n2 : list string) :
  crawl_extends a b n1 -> crawl_extends b c n2 -> crawl_extends a c (n1 ++ n2)%list.
Proof.
  intros (Hd1 & Hm1 & Hs1) (Hd2 & Hm2 & Hs2). split; [congruence|]. split; [congruence|].
  eapply shared_extends_trans; eassumption.
Qed.

Lemma main_body_extends (E : Env) (mp : Z) (cd : CrawlData) :
  exists new, crawl_extends cd (fst (main_body E mp cd)) new.
Proof.
  destruct (main_body_frame E mp cd) as [Hd Hm].
  destruct (main_body_shared E mp cd) as [msgs Hs].
  destruct (entry_shared_extends E cd) as [new Hnew].
  exists new. split; [exact Hd|]. split; [exact Hm|].
  rewrite Hs. apply shared_extends_with_status, Hnew.
Qed.

Lemma category_body_extends (E : Env) (mp : Z) (name : string) (cd : CrawlData) :
  exists new, crawl_extends cd (fst (category_body E mp name cd)) new.
Proof.
  destruct (category_body_frame E mp name cd) as [Hd Hm].
  destruct (category_body_shared E mp name cd) as [msgs Hs].
  destruct (entry_shared_extends E cd) as [new Hnew].
  exists new. split; [exact Hd|]. split; [exact Hm|].
  rewrite Hs. apply shared_extends_with_status, Hnew.
Qed.

(** A relation that holds along every pass holds along the loop. *)
Lemma main_loop_rel (E : Env) (mp : Z) (R : CrawlData -> CrawlData -> Prop) :
  (forall cd, R cd cd) ->
  (forall a b c, R a b -> R b c -> R a c) ->
  (forall cd, running cd = true -> pages_crawled cd < mp -> R cd (fst (main_body E mp cd))) ->
  forall fuel cd cd', main_loop E mp fuel cd = Some cd' -> R cd cd'.
Proof.
  intros Hrefl Htrans Hstep. induction fuel as [|fuel IH]; intros cd cd'.
  - simpl. destruct (running cd && (pages_crawled cd <? mp)%Z)%bool; [discriminate|].
    intros [= <-]. apply Hrefl.
  - rewrite main_loop_unfold.
    destruct (running cd && (pages_crawled cd <? mp)%Z)%bool eqn:Hcond;
      [|intros [= <-]; apply Hrefl].
    apply andb_true_iff in Hcond as [Hrun Hlt]. apply Z.ltb_lt in Hlt.
    specialize (Hstep cd Hrun Hlt).
    destruct (main_body E mp cd) as [cd1 [|]]; cbn [fst] in Hstep.
    + intros Hloop. eapply Htrans; [exact Hstep | apply IH, Hloop].
    + intros [= <-]. exact Hstep.
Qed.

Lemma category_loop_rel (E : Env) (mp : Z) (name : string)
    (R : CrawlData -> CrawlData -> Prop) :
  (forall cd, R cd cd) ->
  (forall a b c, R a b -> R b c -> R a c) ->
  (forall cd, running cd = true -> pages_crawled cd < mp ->
              R cd (fst (category_body E mp name cd))) ->
  forall fuel cd cd', category_loop E mp name fuel cd = Some cd' -> R cd cd'.
Proof.
  intros Hrefl Htrans Hstep. induction fuel as [|fuel IH]; intros cd cd'.
  - simpl. destruct (running cd && (pages_crawled cd <? mp)%Z)%bool; [discriminate|].
    intros [= <-]. apply Hrefl.
  - rewrite category_loop_unfold.
    destruct (running cd && (pages_crawled cd <? mp)%Z)%bool eqn:Hcond;
      [|intros [= <-]; apply Hrefl].
    apply andb_true_iff in Hcond as [Hrun Hlt]. apply Z.ltb_lt in Hlt.
    specialize (Hstep cd Hrun Hlt).
    destruct (category_body E mp name cd) as [cd1 [|]]; cbn [fst] in Hstep.
    + intros Hloop. eapply Htrans; [exact Hstep | apply IH, Hloop].
    + intros [= <-]. exact Hstep.
Qed.

Lemma tick_extends (E : Env) (fuel : nat) (cd cd' : CrawlData) :
  tick E fuel cd = Some cd' -> exists new, crawl_extends cd cd' new.
Proof.
  set (R := fun a b : CrawlData => exists new, crawl_extends a b new).
  assert (Hrefl : forall a, R a a) by (intros a; exists []; apply crawl_extends_refl).
  assert (Htrans : forall a b c, R a b -> R b c -> R a c).
  { intros a b c [n1 H1] [n2 H2]. exists (n1 ++ n2)%list.
    eapply crawl_extends_trans; eassumption. }
  unfold tick. destruct (running cd); [|intros [= <-]; apply Hrefl].
  destruct (current_category cd) as [[name category_url]|].
  - intros Hloop. eapply Htrans; [|eapply (category_loop_rel E _ name R Hrefl Htrans);
                                    [|exact Hloop]].
    + destruct (pages_crawled cd =? 0)%Z; [|apply Hrefl].
      exists []. split; [reflexivity|]. split; [reflexivity|]. crawl_cbn.
      apply (shared_extends_with_status _ _ _ [MsgStartingCategory name]),
        shared_extends_refl.
    + intros c _ _. apply category_body_extends.
  - apply (main_loop_rel E _ R Hrefl Htrans). intros c _ _. apply main_body_extends.
Qed.

(** X6.  A run of the script never rewrites what the session holds: the
    main domain and the page limit are kept, and the results and the feed of
    the session it returns are those it was given with entries appended. *)
Theorem run_only_appends (E : Env) (fuel : nat) (cd cd' : CrawlData) :
  tick E fuel cd = Some cd' ->
  main_domain cd' = main_domain cd /\
  max_pages cd' = max_pages cd /\
  (exists added, results (shared cd') = (results (shared cd) ++ added)%list) /\
  (exists msgs, status (shared cd') = (status (shared cd) ++ msgs)%list).
Proof.
  intros Htick. destruct (tick_extends E fuel cd cd' Htick)
    as (new & Hd & Hm & _ & _ & _ & _ & Hr & Hs).
  repeat split; assumption.
Qed.

Lemma run_only_appends_witness :
  let cd := press_start Sites.shop "example.com" Sites.fresh in
  exists cd',
    tick Sites.shop 40 cd = Some cd' /\
    main_domain cd' = main_domain cd /\
    max_pages cd' = max_pages cd /\
    (exists added, results (shared cd') = (results (shared cd) ++ added)%list) /\
    (exists msgs, status (shared cd') = (status (shared cd) ++ msgs)%list).
Proof.
  intros cd. destruct (tick Sites.shop 40 cd) as [cd'|] eqn:Htick.
  - exists cd'. split; [reflexivity|].
    exact (run_only_appends Sites.shop 40 cd cd' Htick).
  - vm_compute in Htick. discriminate.
Defined.

(** X7.  The URLs requested during a run of the script are pairwise
    distinct, none of them was in the visited set when the run began, and the
    visited set of the session returned is the one given together with
    exactly these URLs: nothing is requested twice and every URL requested is
    marked. *)
Theorem run_requests_distinct (E : Env) (fuel : nat) (cd cd' : CrawlData) :
  tick E fuel cd = Some cd' ->
  exists new,
    http_log (shared cd') = (http_log (shared cd) ++ new)%list /\
    NoDup new /\
    (forall u, In u new -> u ∉ visited (shared cd)) /\
    visited (shared cd') = visited (shared cd) ∪ list_to_set new.
Proof.
  intros Htick. destruct (tick_extends E fuel cd cd' Htick)
    as (new & _ & _ & Hl & Hv & Hd & Hf & _).
  exists new. repeat split; assumption.
Qed.

Lemma run_requests_distinct_witness :
  let cd := press_start Sites.shop "example.com" Sites.fresh in
  exists cd',
    tick Sites.shop 40 cd = Some cd' /\
    exists new,
      http_log (shared cd') = (http_log (shared cd) ++ new)%list /\
      NoDup new /\
      (forall u, In u new -> u ∉ visited (shared cd)) /\
      visited (shared cd') = visited (shared cd) ∪ list_to_set new.
Proof.
  intros cd. destruct (tick Sites.shop 40 cd) as [cd'|] eqn:Htick.
  - exists cd'. split; [reflexivity|].
    exact (run_requests_distinct Sites.shop 40 cd cd' Htick).
  - vm_compute in Htick. discriminate.
Defined.

(** ** Why a run stops the session *)

Lemma is_nil_nonempty {A} (l : list A) : is_nil l = false -> l <> [].
Proof. destruct l; [discriminate | discriminate]. Qed.

Lemma is_nil_empty {A} (l : list A) : is_nil l = true -> l = [].
Proof. destruct l; [reflexivity | discriminate]. Qed.

Lemma main_body_stops (E : Env) (mp : Z) (cd : CrawlData) :
  running cd = true ->
  running (fst (main_body E mp cd)) = false ->
  stopped_with_reason mp (fst (main_body E mp cd)).
Proof.
  intros Hrun. unfold main_body. destruct (queue cd) as [|[url depth] rest].
  - crawl_cbn. congruence.
  - destruct (main_entry_frame E url depth (set_queue rest cd)) as (_ & _ & Hr & _).
    cbn [running set_queue] in Hr.
    set (c := main_entry E url depth (set_queue rest cd)) in *.
    destruct (is_nil (results (shared c))) eqn:Hres; cbn [negb].
    + apply is_nil_empty in Hres.
      destruct (mp <=? pages_crawled c)%Z eqn:Hlimit; [|crawl_cbn; congruence].
      apply Z.leb_le in Hlimit. cbv zeta. crawl_cbn.
      destruct (categories c) as [|first_category others] eqn:Hcat; crawl_cbn; [|congruence].
      intros _. eexists _, MsgNoCategories. crawl_cbn. split; [reflexivity|].
      repeat split; assumption.
    + apply is_nil_nonempty in Hres. crawl_cbn. intros _.
      eexists _, (MsgFoundMatchesMain _). crawl_cbn. split; [reflexivity|].
      split; [exact Hres | reflexivity].
Qed.

Lemma category_body_stops (E : Env) (mp : Z) (name : string) (cd : CrawlData) :
  running cd = true ->
  running (fst (category_body E mp name cd)) = false ->
  stopped_with_reason mp (fst (category_body E mp name cd)).
Proof.
  intros Hrun. unfold category_body. destruct (queue cd) as [|[url depth] rest].
  - crawl_cbn. congruence.
  - destruct (category_entry_frame E url depth (set_queue rest cd)) as (_ & _ & Hr & _).
    cbn [running set_queue] in Hr.
    set (c := category_entry E url depth (set_queue rest cd)) in *.
    destruct (is_nil (results (shared c))) eqn:Hres; cbn [negb].
    + apply is_nil_empty in Hres.
      destruct (mp <=? pages_crawled c)%Z eqn:Hlimit; [|crawl_cbn; congruence].
      apply Z.leb_le in Hlimit. cbv zeta.
      destruct (_ <? _)%Z.
      * destruct (nth_error _ _); crawl_cbn; congruence.
      * crawl_cbn. intros _. eexists _, MsgNoMoreCategories. crawl_cbn.
        split; [reflexivity|]. split; assumption.
    + apply is_nil_nonempty in Hres. crawl_cbn. intros _.
      eexists _, (MsgFoundMatchesCategory _ _). crawl_cbn. split; [reflexivity|].
      split; [exact Hres | reflexivity].
Qed.

Lemma main_loop_stops (E : Env) (mp : Z) (fuel : nat) (cd cd' : CrawlData) :
  main_loop E mp fuel cd = Some cd' ->
  running cd' = false ->
  cd' = cd \/ stopped_with_reason mp cd'.
Proof.
  revert cd. induction fuel as [|fuel IH]; intros cd.
  - simpl. destruct (running cd && _)%bool; [discriminate|]. intros [= <-] _. left; reflexivity.
  - rewrite main_loop_unfold. destruct (running cd && _)%bool eqn:Hcond;
      [|intros [= <-] _; left; reflexivity].
    apply andb_true_iff in Hcond as [Hrun _].
    pose proof (main_body_stops E mp cd Hrun) as Hstop.
    destruct (main_body E mp cd) as [cd1 [|]]; cbn [fst] in Hstop.
    + intros Hloop Hoff. destruct (IH cd1 Hloop Hoff) as [-> | Hreason]; [|right; exact Hreason].
      right. apply Hstop, Hoff.
    + intros [= <-] Hoff. right. apply Hstop, Hoff.
Qed.

Lemma category_loop_stops (E : Env) (mp : Z) (name : string) (fuel : nat)
    (cd cd' : CrawlData) :
  category_loop E mp name fuel cd = Some cd' ->
  running cd' = false ->
  cd' = cd \/ stopped_with_reason mp cd'.
Proof.
  revert cd. induction fuel as [|fuel IH]; intros cd.
  - simpl. destruct (running cd && _)%bool; [discriminate|]. intros [= <-] _. left; reflexivity.
  - rewrite category_loop_unfold. destruct (running cd && _)%bool eqn:Hcond;
      [|intros [= <-] _; left; reflexivity].
    apply andb_true_iff in Hcond as [Hrun _].
    pose proof (category_body_stops E mp name cd Hrun) as Hstop.
    destruct (category_body E mp name cd) as [cd1 [|]]; cbn [fst] in Hstop.
    + intros Hloop Hoff. destruct (IH cd1 Hloop Hoff) as [-> | Hreason]; [|right; exact Hreason].
      right. apply Hstop, Hoff.
    + intros [= <-] Hoff. right. apply Hstop, Hoff.
Qed.

(** X8.  A run of the script turns a running session off for two reasons
    only, and the last entry of the feed names the one that applied: a match
    is in the results (the entry gives their number), or the page limit was
    reached with no match and there is no category to move to.  In
    particular a run never stops a session because its queue is empty. *)
Theorem run_stops_with_reason (E : Env) (fuel : nat) (cd cd' : CrawlData) :
  running cd = true ->
  tick E fuel cd = Some cd' ->
  running cd' = false ->
  stopped_with_reason (max_pages cd') cd'.
Proof.
  intros Hrun Htick Hoff.
  destruct (tick_extends E fuel cd cd' Htick) as (new & _ & Hmax & _).
  rewrite Hmax. revert Htick. unfold tick. rewrite Hrun.
  destruct (current_category cd) as [[name category_url]|].
  - intros Hloop.
    destruct (category_loop_stops E _ name fuel _ cd' Hloop Hoff) as [Heq | Hreason].
    + rewrite Heq in Hoff. destruct (pages_crawled cd =? 0)%Z; crawl_cbn; congruence.
    + destruct (pages_crawled cd =? 0)%Z; crawl_cbn; exact Hreason.
  - intros Hloop.
    destruct (main_loop_stops E _ fuel cd cd' Hloop Hoff) as [Heq | Hreason];
      [congruence | exact Hreason].
Qed.

Lemma run_stops_with_reason_witness :
  let cd := press_start Sites.late "example.com" Sites.fresh in
  exists cd',
    tick Sites.late 40 cd = Some cd' /\ stopped_with_reason (max_pages cd') cd'.
Proof.
  intros cd. destruct (tick Sites.late 40 cd) as [cd'|] eqn:Htick.
  - exists cd'. split; [reflexivity|].
    apply (run_stops_with_reason Sites.late 40 cd cd'); [reflexivity | exact Htick |].
    vm_compute in Htick. injection Htick as <-. reflexivity.
  - vm_compute in Htick. discriminate.
Defined.

(** ** The page counter *)

Lemma main_body_pages (E : Env) (mp : Z) (cd : CrawlData) :
  0 <= pages_crawled cd < mp ->
  0 <= pages_crawled (fst (main_body E mp cd)) <= mp.
Proof.
  intros Hc. unfold main_body. destruct (queue cd) as [|[url depth] rest]; [crawl_cbn; lia|].
  destruct (main_entry_frame E url depth (set_queue rest cd)) as (_ & _ & _ & _ & Hp).
  cbn [pages_crawled set_queue] in Hp.
  set (c := main_entry E url depth (set_queue rest cd)) in *.
  split_body; crawl_cbn; lia.
Qed.

Lemma category_body_pages (E : Env) (mp : Z) (name : string) (cd : CrawlData) :
  0 <= pages_crawled cd < mp ->
  0 <= pages_crawled (fst (category_body E mp name cd)) <= mp.
Proof.
  intros Hc. unfold category_body. destruct (queue cd) as [|[url depth] rest]; [crawl_cbn; lia|].
  destruct (category_entry_frame E url depth (set_queue rest cd)) as (_ & _ & _ & _ & Hp).
  cbn [pages_crawled set_queue] in Hp.
  set (c := category_entry E url depth (set_queue rest cd)) in *.
  split_body; crawl_cbn; lia.
Qed.

(** X9.  The page counter stays within the budget: if it lies between 0
    and the page limit of the session when a run of the script begins, it
    does when the run ends, in the main-domain loop and in the category loop
    alike. *)
Theorem page_counter_within_budget (E : Env) (fuel : nat) (cd cd' : CrawlData) :
  within_budget cd ->
  tick E fuel cd = Some cd' ->
  within_budget cd'.
Proof.
  unfold within_budget. intros Hb Htick.
  destruct (tick_extends E fuel cd cd' Htick) as (new & _ & Hmax & _).
  rewrite Hmax. revert Htick.
  set (mp := max_pages cd) in *.
  set (R := fun a b : CrawlData => 0 <= pages_crawled a <= mp -> 0 <= pages_crawled b <= mp).
  assert (Hrefl : forall a, R a a) by (intros a Ha; exact Ha).
  assert (Htrans : forall a b c, R a b -> R b c -> R a c) by (unfold R; auto).
  unfold tick. destruct (running cd); [|intros [= <-]; exact Hb].
  destruct (current_category cd) as [[name category_url]|].
  - intros Hloop.
    assert (mp = max_pages
                   (if (pages_crawled cd =? 0)%Z
                    then set_queue [(category_url, 0)]
                           (add_status (MsgStartingCategory name) cd)
                    else cd)) as Hmp
      by (destruct (pages_crawled cd =? 0)%Z; reflexivity).
    rewrite <- Hmp in Hloop.
    apply (category_loop_rel E mp name R Hrefl Htrans) in Hloop.
    + apply Hloop. destruct (pages_crawled cd =? 0)%Z; crawl_cbn; exact Hb.
    + intros c _ Hlt Hc. apply category_body_pages. lia.
  - intros Hloop. apply (main_loop_rel E mp R Hrefl Htrans) in Hloop.
    + apply Hloop, Hb.
    + intros c _ Hlt Hc. apply main_body_pages. lia.
Qed.

Lemma page_counter_within_budget_witness :
  let cd := press_start Sites.shop "example.com" Sites.fresh in
  exists cd', tick Sites.shop 40 cd = Some cd' /\ within_budget cd'.
Proof.
  intros cd. destruct (tick Sites.shop 40 cd) as [cd'|] eqn:Htick.
  - exists cd'. split; [reflexivity|].
    apply (page_counter_within_budget Sites.shop 40 cd cd'); [|exact Htick].
    vm_compute. split; discriminate.
  - vm_compute in Htick. discriminate.
Defined.

(** ** A session at the page limit *)

(** X12.  A running session whose page counter has reached the page limit
    (and is not 0) is left as it is by every run of the script, running flag
    included: neither loop is entered and nothing resets the counter.  This
    is where Continue leads when the match that paused the crawl was found on
    the last page of the budget. *)
Theorem running_at_page_limit_is_stuck (E : Env) (fuel : nat) (cd : CrawlData) :
  running cd = true ->
  max_pages cd <= pages_crawled cd ->
  pages_crawled cd <> 0 ->
  tick E fuel cd = Some cd.
Proof.
  intros Hrun Hmax Hpages. unfold tick. rewrite Hrun.
  apply Z.eqb_neq in Hpages. rewrite Hpages.
  assert ((pages_crawled cd <? max_pages cd)%Z = false) as Hlt by (apply Z.ltb_ge; exact Hmax).
  destruct (current_category cd) as [[name category_url]|]; destruct fuel; simpl;
    rewrite Hrun, Hlt; reflexivity.
Qed.

Lemma running_at_page_limit_is_stuck_witness :
  exists cd,
    tick Sites.late 40 (press_start Sites.late "example.com" Sites.fresh) = Some cd /\
    running cd = false /\
    tick Sites.late 40 (press_continue cd) = Some (press_continue cd).
Proof.
  eexists. split; [vm_compute; reflexivity|]. split; [reflexivity|].
  apply (running_at_page_limit_is_stuck Sites.late 40).
  - reflexivity.
  - vm_compute. discriminate.
  - vm_compute. discriminate.
Defined.

Lemma entry_results_kept (E : Env) (url main_domain : string) (sh : Shared) (depth : Z) :
  results sh <> [] -> results (snd (process_url E url main_domain sh depth)) <> [].
Proof.
  intros Hres. destruct (process_url_results E url main_domain sh depth) as (new & -> & _).
  destruct (results sh); [congruence | discriminate].
Qed.

(** ** [extract_categories] *)

Lemma extract_categories_link_sources (E : Env) (soup : Soup) (base_url : string)
    (acc : list (string * string) * gset (string * string)) (link : Element) :
  In link (Bs4.find_all_a_href soup) ->
  (forall n u, In (n, u) (fst acc) -> category_source E soup base_url u) ->
  (forall n u, (n, u) ∈ snd acc -> category_source E soup base_url u) ->
  (forall n u, In (n, u) (fst (extract_categories_link E base_url acc link)) ->
               category_source E soup base_url u) /\
  (forall n u, (n, u) ∈ snd (extract_categories_link E base_url acc link) ->
               category_source E soup base_url u).
Proof.
  intros Hlink Hcats Hothers. destruct acc as [cats others]. cbn [fst snd] in *.
  unfold extract_categories_link.
  set (href := PyStr.lower (PyStr.strip (Bs4.get link "href" ""))).
  set (text := PyStr.lower (PyStr.strip (Bs4.get_text link))).
  destruct (PyStr.is_empty href || PyStr.startswith_any _ href)%bool;
    cbn [fst snd]; [split; assumption|].
  split.
  - intros n u Hin. apply in_app_iff in Hin as [Hin | Hin]; [eapply Hcats, Hin|].
    apply in_flat_map in Hin as (category & _ & Hin).
    destruct ((PyStr.contains category href || PyStr.contains category text)
              && PyStr.contains "/category/" href)%bool eqn:Hcond; [|destruct Hin].
    apply andb_true_iff in Hcond as [_ Hcat]. destruct Hin as [[= _ <-] | []].
    exists link. repeat split; assumption.
  - intros n u.
    destruct (PyStr.contains "/category/" href && forallb _ category_names)%bool eqn:Hcond;
      [|apply Hothers].
    apply andb_true_iff in Hcond as [Hcat _].
    destruct (Re.search_category href) as [g|]; [|apply Hothers].
    intros Hin. apply elem_of_union in Hin as [Hin | Hin]; [|eapply Hothers, Hin].
    apply elem_of_singleton in Hin. injection Hin as _ ->.
    exists link. repeat split; assumption.
Qed.

Lemma extract_categories_fold_sources (E : Env) (soup : Soup) (base_url : string)
    (links : list Element) (acc : list (string * string) * gset (string * string)) :
  (forall link, In link links -> In link (Bs4.find_all_a_href soup)) ->
  (forall n u, In (n, u) (fst acc) -> category_source E soup base_url u) ->
  (forall n u, (n, u) ∈ snd acc -> category_source E soup base_url u) ->
  (forall n u, In (n, u) (fst (fold_left (extract_categories_link E base_url) links acc)) ->
               category_source E soup base_url u) /\
  (forall n u, (n, u) ∈ snd (fold_left (extract_categories_link E base_url) links acc) ->
               category_source E soup base_url u).
Proof.
  revert acc. induction links as [|link links IH]; intros acc Hlinks Hcats Hothers; simpl.
  - split; assumption.
  - destruct (extract_categories_link_sources E soup base_url acc link) as [Hc Ho];
      [apply Hlinks; left; reflexivity | assumption | assumption |].
    apply IH; [intros l Hl; apply Hlinks; right; exact Hl | exact Hc | exact Ho].
Qed.

(** X14.  Every category [extract_categories] returns points to a URL built
    from an anchor of the page whose [href], stripped and lower-cased, holds
    [/category/]; the URL is the base URL joined with that lower-cased
    [href], not with the [href] as written.  A page without such an anchor
    has no category. *)
Theorem extract_categories_sources (E : Env) (soup : Soup) (base_url name url : string) :
  (forall s x, In x (set_iter E s) -> x ∈ s) ->
  In (name, url) (extract_categories E soup base_url) ->
  category_source E soup base_url url.
Proof.
  intros Hiter. unfold extract_categories.
  destruct (extract_categories_fold_sources E soup base_url (Bs4.find_all_a_href soup) ([], ∅))
    as [Hcats Hothers]; [auto | intros n u [] | intros n u Hin; set_solver |].
  destruct (fold_left _ _ _) as [cats others]. cbn [fst snd] in *.
  intros Hin. apply in_app_iff in Hin as [Hin | Hin].
  - apply in_flat_map in Hin as (cat_name & _ & Hin).
    destruct (List.map snd (List.filter _ cats)) as [|first others'] eqn:Hmatched;
      [destruct Hin|].
    destruct Hin as [[= _ <-] | []].
    assert (In first (List.map snd (List.filter
              (fun nu => String.eqb (fst nu) cat_name) cats))) as Hfirst
      by (rewrite Hmatched; left; reflexivity).
    apply in_map_iff in Hfirst as ([n u] & <- & Hfilter).
    apply filter_In in Hfilter as [Hin _]. eapply Hcats, Hin.
  - eapply Hothers, Hiter, Hin.
Qed.

Lemma extract_categories_sources_witness :
  category_source Sites.shop Sites.home_links "https://example.com"
    "https://example.com/category/travel".
Proof.
  apply (extract_categories_sources Sites.shop Sites.home_links "https://example.com"
           "travel" "https://example.com/category/travel").
  - intros s x Hin. apply elem_of_elements, list_elem_of_In. exact Hin.
  - vm_compute. left. reflexivity.
Defined.

(** *** Lower case and substrings *)

Lemma lower_char_idem (c : ascii) : PyStr.lower_char (PyStr.lower_char c) = PyStr.lower_char c.
Proof. destruct c as [[] [] [] [] [] [] [] []]; vm_compute; reflexivity. Qed.

Lemma lower_idem (s : string) : PyStr.lower (PyStr.lower s) = PyStr.lower s.
Proof. induction s as [|c s IH]; simpl; [reflexivity|]. rewrite lower_char_idem, IH. reflexivity. Qed.

Lemma lower_app (a b : string) : PyStr.lower (a ++ b) = PyStr.lower a ++ PyStr.lower b.
Proof. induction a as [|c a IH]; simpl_app; simpl; [reflexivity|]. rewrite IH. reflexivity. Qed.

Lemma lower_length (s : string) : String.length (PyStr.lower s) = String.length s.
Proof. induction s as [|c s IH]; simpl; auto. Qed.

Lemma string_app_inj (a a' b b' : string) :
  String.length a = String.length a' -> a ++ b = a' ++ b' -> a = a' /\ b = b'.
Proof.
  revert a'. induction a as [|c a IH]; intros [|c' a'] Hlen; try discriminate; simpl_app.
  - auto.
  - intros [= -> Heq]. injection Hlen as Hlen. destruct (IH a' Hlen Heq) as [-> ->]. auto.
Qed.

(** A substring of a string in lower case is in lower case. *)
Lemma lower_fixed_sub (g s : string) : PyStr.lower s = s -> occurs_in g s -> PyStr.lower g = g.
Proof.
  intros Hfix (pre & post & ->). rewrite !lower_app in Hfix.
  apply string_app_inj in Hfix as [_ Hfix]; [|apply lower_length].
  apply string_app_inj in Hfix as [Hg _]; [exact Hg | apply lower_length].
Qed.

Lemma drop_app (p s : string) : PyStr.drop (String.length p) (p ++ s) = s.
Proof. induction p as [|c p IH]; simpl_app; [destruct s; reflexivity | exact IH]. Qed.

Lemma no_slash_run_prefix (s : string) : exists rest, s = Re.no_slash_run s ++ rest.
Proof.
  induction s as [|c s [rest IH]]; [exists ""; reflexivity|]. simpl.
  destruct (Ascii.eqb c Re.slash); [exists (String c s); reflexivity|].
  exists rest. simpl_app. rewrite <- IH. reflexivity.
Qed.

Lemma search_category_occurs (s g : string) : Re.search_category s = Some g -> occurs_in g s.
Proof.
  induction s as [|c s IH]; [discriminate|].
  assert (Hrec : Re.search_category s = Some g -> occurs_in g (String c s)).
  { intros H. destruct (IH H) as (pre & post & ->). exists (String c pre), post. reflexivity. }
  change (Re.search_category (String c s)) with
    (if String.prefix "/category/" (String c s)
     then let g := Re.no_slash_run (PyStr.drop 10 (String c s)) in
          if PyStr.is_empty g then Re.search_category s else Some g
     else Re.search_category s).
  destruct (String.prefix "/category/" (String c s)) eqn:Hp; [|exact Hrec].
  apply prefix_spec in Hp as [post Hp].
  assert (Hd : PyStr.drop 10 (String c s) = post)
    by (rewrite Hp; apply (drop_app "/category/")).
  rewrite Hd. cbv zeta. destruct (PyStr.is_empty _); [exact Hrec|].
  intros [= <-]. rewrite Hp. destruct (no_slash_run_prefix post) as [rest Hrest].
  exists "/category/", rest. rewrite <- Hrest. reflexivity.
Qed.

Lemma flat_map_sublist {A} (f : string -> list (string * A)) (names : list string) :
  (forall name, f name = [] \/ exists x, f name = [(name, x)]) ->
  sublist (List.map fst (flat_map f names)) names.
Proof.
  intros Hf. induction names as [|name names IH]; simpl; [constructor|].
  destruct (Hf name) as [-> | [x ->]]; simpl.
  - apply sublist_cons, IH.
  - apply sublist_skip, IH.
Qed.

Lemma extract_categories_link_other_names (E : Env) (base_url : string)
    (acc : list (string * string) * gset (string * string)) (link : Element) :
  (forall n u, (n, u) ∈ snd acc -> ~ In n category_names) ->
  forall n u, (n, u) ∈ snd (extract_categories_link E base_url acc link) ->
              ~ In n category_names.
Proof.
  intros Hothers. destruct acc as [cats others]. cbn [fst snd] in *.
  unfold extract_categories_link.
  set (href := PyStr.lower (PyStr.strip (Bs4.get link "href" ""))).
  assert (Hfix : PyStr.lower href = href) by apply lower_idem.
  destruct (PyStr.is_empty href || PyStr.startswith_any _ href)%bool;
    cbn [fst snd]; [assumption|].
  intros n u.
  destruct (PyStr.contains "/category/" href && forallb _ category_names)%bool eqn:Hcond;
    [|apply Hothers].
  apply andb_true_iff in Hcond as [_ Hnone].
  destruct (Re.search_category href) as [g|] eqn:Hg; [|apply Hothers].
  intros Hin. apply elem_of_union in Hin as [Hin | Hin]; [|eapply Hothers, Hin].
  apply elem_of_singleton in Hin. injection Hin as -> _.
  apply search_category_occurs in Hg.
  rewrite (lower_fixed_sub g href Hfix Hg). intros Hcanon.
  rewrite forallb_forall in Hnone. specialize (Hnone g Hcanon).
  apply negb_true_iff in Hnone.
  apply contains_spec in Hg. congruence.
Qed.

(** X15.  [extract_categories] lists the categories named travel, blog and
    resources first, in that order and each at most once, whatever the order
    of the anchors on the page; the categories that follow, found by the
    pattern of line 53, never bear one of these three names. *)
Theorem canonical_categories_first (E : Env) (soup : Soup) (base_url : string) :
  (forall s x, In x (set_iter E s) -> x ∈ s) ->
  exists canon others,
    extract_categories E soup base_url = (canon ++ others)%list /\
    sublist (List.map fst canon) category_names /\
    Forall (fun c => ~ In (fst c) category_names) others.
Proof.
  intros Hiter. unfold extract_categories.
  assert (Hnames : forall links acc,
            (forall n u, (n, u) ∈ snd acc -> ~ In n category_names) ->
            forall n u, (n, u) ∈ snd (fold_left (extract_categories_link E base_url) links acc) ->
                        ~ In n category_names).
  { induction links as [|link links IH]; intros acc Hacc; simpl; [exact Hacc|].
    apply IH. apply extract_categories_link_other_names, Hacc. }
  specialize (Hnames (Bs4.find_all_a_href soup) ([], ∅)).
  destruct (fold_left _ _ _) as [cats others]. cbn [fst snd] in *.
  eexists _, _. split; [reflexivity|]. split.
  - apply flat_map_sublist. intros name.
    destruct (List.map snd _) as [|first rest]; [left; reflexivity | right; eauto].
  - apply List.Forall_forall. intros [n u] Hin. cbn [fst].
    apply (Hnames ltac:(intros n' u' H'; apply elem_of_empty in H'; destruct H') n u).
    apply Hiter, Hin.
Qed.

Lemma canonical_categories_first_witness :
  exists canon others,
    extract_categories Sites.magazine Sites.magazine_home "https://example.com"
      = (canon ++ others)%list /\
    sublist (List.map fst canon) category_names /\
    Forall (fun c => ~ In (fst c) category_names) others.
Proof.
  apply (canonical_categories_first Sites.magazine Sites.magazine_home "https://example.com").
  intros s x Hin. apply elem_of_elements, list_elem_of_In. exact Hin.
Defined.

(** ** [is_subdomain_of] on hosts without an inner [www.] *)

Lemma replace_absent (old new s : string) :
  PyStr.contains old s = false -> PyStr.replace old new s = s.
Proof.
  unfold PyStr.replace. induction s as [|c s IH]; [reflexivity|].
  rewrite contains_unfold.
  change (PyStr.replace_from old new 0 (String c s)) with
    (if String.prefix old (String c s)
     then new ++ PyStr.replace_from old new (String.length old - 1) s
     else String c (PyStr.replace_from old new 0 s)).
  destruct (String.prefix old (String c s)); [discriminate|].
  intros Hrest. rewrite (IH Hrest). reflexivity.
Qed.

Lemma contains_lower_false (s : string) :
  PyStr.contains "www." (PyStr.lower s) = false -> PyStr.contains "www." s = false.
Proof.
  intros Hlow. destruct (PyStr.contains "www." s) eqn:Hs; [|reflexivity].
  apply contains_spec in Hs as (pre & post & ->).
  assert (PyStr.contains "www." (PyStr.lower (pre ++ "www." ++ post)) = true) as Hc.
  { apply contains_spec. exists (PyStr.lower pre), (PyStr.lower post).
    rewrite !lower_app. reflexivity. }
  congruence.
Qed.

Lemma plain_host_no_prefix (h : string) :
  plain_host h -> String.prefix "www." (PyStr.lower h) = false.
Proof.
  unfold plain_host. rewrite contains_unfold.
  destruct (String.prefix "www." (PyStr.lower h)); [discriminate | reflexivity].
Qed.

Lemma code_host_plain (h : string) :
  plain_host h ->
  PyStr.lower (PyStr.replace "www." "" h) = PyStr.lower h /\
  PyStr.lower (PyStr.replace "www." "" ("www." ++ h)) = PyStr.lower h.
Proof.
  intros Hplain. apply contains_lower_false in Hplain.
  assert (Hfront : PyStr.replace "www." "" ("www." ++ h) = PyStr.replace "www." "" h).
  { unfold PyStr.replace.
    assert (Hp : String.prefix "www." ("www." ++ h) = true)
      by (apply prefix_spec; eexists; reflexivity).
    change (PyStr.replace_from "www." "" 0 ("www." ++ h)) with
      (if String.prefix "www." ("www." ++ h)
       then "" ++ PyStr.replace_from "www." "" 0 h
       else String "w" (PyStr.replace_from "www." "" 0 ("ww." ++ h))).
    rewrite Hp. reflexivity. }
  rewrite Hfront, (replace_absent _ _ _ Hplain). split; reflexivity.
Qed.

Lemma spec_host_plain (h : string) :
  plain_host h ->
  strip_leading_www (PyStr.lower h) = PyStr.lower h /\
  strip_leading_www (PyStr.lower ("www." ++ h)) = PyStr.lower h.
Proof.
  intros Hplain. unfold strip_leading_www. rewrite (plain_host_no_prefix h Hplain).
  split; [reflexivity|]. rewrite lower_app.
  change (PyStr.lower "www.") with "www.".
  replace (String.prefix "www." ("www." ++ PyStr.lower h)) with true
    by (symmetry; apply prefix_spec; eexists; reflexivity).
  apply (drop_app "www.").
Qed.

(** X16.  On hosts that hold [www.] nowhere, in any letter case, except
    possibly once in lower case at the very front, [is_subdomain_of] is the
    relation the specification describes: with the leading [www.] taken
    off and the letters in lower case, the first host is the second or ends
    with a dot followed by the second. *)
Theorem is_subdomain_of_on_plain_hosts (a m : string) :
  plain_host a ->
  plain_host m ->
  is_subdomain_of a m = isSameSite_spec a m /\
  is_subdomain_of ("www." ++ a) m = isSameSite_spec ("www." ++ a) m /\
  is_subdomain_of a ("www." ++ m) = isSameSite_spec a ("www." ++ m) /\
  is_subdomain_of ("www." ++ a) ("www." ++ m) = isSameSite_spec ("www." ++ a) ("www." ++ m).
Proof.
  intros Ha Hm.
  destruct (code_host_plain a Ha) as [Ca Ca'], (code_host_plain m Hm) as [Cm Cm'].
  destruct (spec_host_plain a Ha) as [Sa Sa'], (spec_host_plain m Hm) as [Sm Sm'].
  unfold is_subdomain_of, isSameSite_spec. cbv zeta.
  rewrite Ca, Ca', Cm, Cm', Sa, Sa', Sm, Sm'.
  repeat split; apply orb_comm.
Qed.

Lemma is_subdomain_of_on_plain_hosts_witness :
  is_subdomain_of "Shop.Example.com" "example.com"
    = isSameSite_spec "Shop.Example.com" "example.com" /\
  is_subdomain_of ("www." ++ "Shop.Example.com") "example.com"
    = isSameSite_spec ("www." ++ "Shop.Example.com") "example.com" /\
  is_subdomain_of "Shop.Example.com" ("www." ++ "example.com")
    = isSameSite_spec "Shop.Example.com" ("www." ++ "example.com") /\
  is_subdomain_of ("www." ++ "Shop.Example.com") ("www." ++ "example.com")
    = isSameSite_spec ("www." ++ "Shop.Example.com") ("www." ++ "example.com").
Proof.
  apply (is_subdomain_of_on_plain_hosts "Shop.Example.com" "example.com"); reflexivity.
Defined.

(** ** What is shown *)

Lemma last_n_rev {A} (n : nat) (l : list A) : rev (last_n n l) = firstn n (rev l).
Proof. unfold last_n. symmetry. apply firstn_rev. Qed.

(** X17.  The activity feed shows the 15 newest entries of the status list,
    newest first: an entry just appended is shown on top and pushes the
    others down, the fifteenth out.  The results view shows the 10 newest
    records, newest first, and never an empty context. *)
Theorem views_newest_first (cd : CrawlData) (msg : Status) :
  status_window cd = firstn 15 (rev (status (shared cd))) /\
  status_window (add_status msg cd) = msg :: firstn 14 (status_window cd) /\
  (List.length (results_view cd) <= 10)%nat /\
  List.map (fun row => fst (fst row)) (results_view cd)
    = firstn 10 (rev (List.map (fun r => fst (fst r)) (results (shared cd)))) /\
  Forall (fun row => snd row <> "") (results_view cd).
Proof.
  unfold status_window, results_view. rewrite !last_n_rev. crawl_cbn.
  split; [reflexivity|]. split; [|split; [|split]].
  - rewrite rev_app_distr. cbn [rev app]. rewrite take_take. reflexivity.
  - rewrite length_map, length_firstn. lia.
  - rewrite map_map. cbn [fst]. rewrite <- map_rev, <- firstn_map. reflexivity.
  - apply List.Forall_forall. intros row Hrow.
    apply in_map_iff in Hrow as (r & <- & _). cbn [snd]. unfold shown_context.
    destruct (context r) eqn:Hc; cbn [PyStr.is_empty]; discriminate.
Qed.

(** ** The category loop ends *)

Lemma process_url_marks (E : Env) (url main_domain : string) (sh : Shared) (depth : Z) :
  url ∈ visited (snd (process_url E url main_domain sh depth)) /\
  visited sh ⊆ visited (snd (process_url E url main_domain sh depth)).
Proof.
  destruct (process_url_cases E url main_domain sh depth)
    as [[Hin ->] | [Hnew [(msg & Hget & ->) | (r & Hget & [(Hct & ->) | [(Hct & Hext & Hd & ->)
                                                       | (Hct & Hgate & ->)]])]]];
    cbn [fst snd visited];
    (split; [first [exact Hin | apply elem_of_union_l, elem_of_singleton; reflexivity]
            | first [reflexivity | apply union_subseteq_r]]).
Qed.

Lemma process_url_seen (E : Env) (url main_domain : string) (sh : Shared) (depth : Z) :
  url ∈ visited sh -> process_url E url main_domain sh depth = (([], None), sh).
Proof. intros Hin. unfold process_url. rewrite bool_decide_eq_true_2 by exact Hin. reflexivity. Qed.

Lemma category_entry_queue (E : Env) (url : string) (depth : Z) (cd : CrawlData) :
  queue (category_entry E url depth cd) =
  (queue cd ++ fst (fst (process_url E url (main_domain cd) (shared cd) depth)))%list.
Proof.
  pose proof (process_url_links_fresh E url (main_domain cd) (shared cd) depth) as Hfresh.
  unfold category_entry.
  destruct (process_url E url (main_domain cd) (shared cd) depth) as [[new_links soup] sh].
  cbn [fst snd] in *. rewrite enqueue_links_fresh; [reflexivity|].
  intros e He. crawl_cbn. apply Hfresh, He.
Qed.

Lemma target_seen_mono (target : option string) (sh sh' : Shared) :
  visited sh ⊆ visited sh' -> target_seen target sh = true -> target_seen target sh' = true.
Proof.
  intros Hsub. destruct target as [u|]; [|reflexivity]. cbn [target_seen].
  intros Hseen. apply bool_decide_eq_true in Hseen. apply bool_decide_eq_true. auto.
Qed.

Lemma at_restart_true (target : option string) (cd : CrawlData) :
  at_restart target cd = true ->
  exists url depth,
    queue cd = [(url, depth)] /\ target = Some url /\ pages_crawled cd = 0.
Proof.
  unfold at_restart. destruct (queue cd) as [|[url depth] [|e rest]]; try discriminate.
  destruct target as [u|]; [|discriminate]. intros Hat.
  apply andb_true_iff in Hat as [Hzero Heq].
  apply Z.eqb_eq in Hzero. apply String.eqb_eq in Heq. subst u. eauto.
Qed.

Lemma passes_left_off (mp : Z) (target : option string) (cd : CrawlData) :
  running cd = false \/ mp <= pages_crawled cd -> passes_left mp target cd = 0.
Proof.
  intros Hoff. unfold passes_left.
  replace (running cd && (pages_crawled cd <? mp)%Z)%bool with false; [reflexivity|].
  symmetry. apply andb_false_iff.
  destruct Hoff as [Hrun | Hlimit]; [left; exact Hrun | right; apply Z.ltb_ge; exact Hlimit].
Qed.

Lemma passes_left_on (mp : Z) (target : option string) (cd : CrawlData) :
  running cd = true ->
  pages_crawled cd < mp ->
  passes_left mp target cd =
  match queue cd with
  | [] => 1
  | _ :: _ =>
      if at_restart target cd
      then (if target_seen target (shared cd) then 2 else mp + 2)
      else (mp - pages_crawled cd) + (if target_seen target (shared cd) then 2 else mp + 2)
  end.
Proof.
  intros Hrun Hlt. unfold passes_left. apply Z.ltb_lt in Hlt. rewrite Hrun, Hlt. reflexivity.
Qed.

Lemma passes_left_positive (mp : Z) (target : option string) (cd : CrawlData) :
  0 <= mp ->
  running cd = true ->
  pages_crawled cd < mp ->
  1 <= passes_left mp target cd.
Proof.
  intros Hmp Hrun Hlt. rewrite passes_left_on by assumption.
  destruct (queue cd); [lia|].
  destruct (at_restart target cd), (target_seen target (shared cd)); lia.
Qed.

Lemma passes_left_bound (mp : Z) (target : option string) (cd : CrawlData) :
  0 <= mp ->
  0 <= pages_crawled cd ->
  passes_left mp target cd <= 2 * mp + 2.
Proof.
  intros Hmp Hc. unfold passes_left.
  destruct (running cd && (pages_crawled cd <? mp)%Z)%bool; [|lia].
  destruct (queue cd); [lia|].
  destruct (at_restart target cd), (target_seen target (shared cd)); lia.
Qed.

(** A pass of the category loop that lets the loop go on brings the end
    nearer. *)
Lemma category_body_passes_left (E : Env) (mp : Z) (name : string) (cd cd1 : CrawlData) :
  2 <= mp ->
  0 <= pages_crawled cd ->
  running cd = true ->
  pages_crawled cd < mp ->
  category_body E mp name cd = (cd1, Next) ->
  categories cd1 = categories cd /\
  0 <= pages_crawled cd1 /\
  passes_left mp (option_map snd (next_category name (categories cd))) cd1
  < passes_left mp (option_map snd (next_category name (categories cd))) cd.
Proof.
  intros Hmp Hc Hrun Hlt.
  pose proof (passes_left_on mp (option_map snd (next_category name (categories cd))) cd
                Hrun Hlt) as Hrank.
  pose proof (at_restart_true (option_map snd (next_category name (categories cd))) cd)
    as Hrestart.
  remember (option_map snd (next_category name (categories cd))) as target eqn:Htarget.
  unfold category_body. destruct (queue cd) as [|[url depth] rest] eqn:Hq; [discriminate|].
  destruct (category_entry_frame E url depth (set_queue rest cd)) as (_ & _ & Hr1 & _ & Hp1).
  pose proof (category_entry_categories E url depth (set_queue rest cd)) as Hcat1.
  pose proof (category_entry_shared E url depth (set_queue rest cd)) as Hsh1.
  pose proof (category_entry_queue E url depth (set_queue rest cd)) as Hq1.
  cbn [running pages_crawled categories shared main_domain queue set_queue] in Hr1, Hp1, Hcat1,
    Hsh1, Hq1.
  destruct (process_url_marks E url (main_domain cd) (shared cd) depth) as [Hmark Hgrow].
  rewrite <- Hsh1 in Hmark, Hgrow.
  assert (Hnolinks : url ∈ visited (shared cd) ->
                     queue (category_entry E url depth (set_queue rest cd)) = rest).
  { intros Hin. rewrite Hq1, (process_url_seen E url _ _ depth Hin). apply app_nil_r. }
  pose proof (target_seen_mono target _ _ Hgrow) as Hmono.
  set (c1 := category_entry E url depth (set_queue rest cd)) in *.
  destruct (is_nil (results (shared c1))); cbn [negb]; [|discriminate].
  destruct (mp <=? pages_crawled c1)%Z eqn:Hlimit.
  - apply Z.leb_le in Hlimit. cbv zeta. crawl_cbn. rewrite Hcat1.
    assert (Hnot : at_restart target cd = false).
    { destruct (at_restart target cd); [|reflexivity].
      destruct (Hrestart eq_refl) as (u & d & _ & _ & Hzero). lia. }
    rewrite Hnot in Hrank.
    destruct (index_of_name name (categories cd) 0 <? len_list (categories cd) - 1)%Z
      eqn:Hmoves.
    + destruct (nth_error (categories cd) (Z.to_nat (index_of_name name (categories cd) 0 + 1)))
        as [next|] eqn:Hnext.
      * intros [= <-]. crawl_cbn. split; [exact Hcat1|]. split; [lia|].
        assert (target = Some (snd next)) as Htgt
          by (rewrite Htarget; unfold next_category; rewrite Hmoves, Hnext; reflexivity).
        rewrite passes_left_on by (crawl_cbn; first [congruence | lia]).
        crawl_cbn. unfold at_restart. crawl_cbn. rewrite Htgt, String.eqb_refl.
        cbn [Z.eqb andb]. rewrite <- Htgt.
        change (target_seen target _) with (target_seen target (shared c1)).
        rewrite Hrank.
        destruct (target_seen target (shared cd)) eqn:Hseen.
        -- rewrite (Hmono eq_refl). lia.
        -- destruct (target_seen target (shared c1)); lia.
      * intros [= <-]. crawl_cbn. split; [exact Hcat1|]. split; [lia|].
        rewrite passes_left_off by (right; crawl_cbn; lia).
        rewrite Hrank. destruct (target_seen target (shared cd)); lia.
    + intros [= <-]. crawl_cbn. split; [exact Hcat1|]. split; [lia|].
      rewrite passes_left_off by (left; reflexivity).
      rewrite Hrank. destruct (target_seen target (shared cd)); lia.
  - apply Z.leb_gt in Hlimit. intros [= <-]. split; [exact Hcat1|]. split; [lia|].
    rewrite (passes_left_on mp target c1) by (try congruence; lia).
    destruct (queue c1) as [|e1 rest1] eqn:Hqueue1.
    + rewrite Hrank. destruct (at_restart target cd), (target_seen target (shared cd)); lia.
    + assert (Hnot1 : at_restart target c1 = false).
      { destruct (at_restart target c1) eqn:Hat1; [|reflexivity].
        destruct (at_restart_true target c1 Hat1) as (u & d & _ & _ & Hzero). lia. }
      rewrite Hnot1, Hrank.
      destruct (at_restart target cd) eqn:Hat.
      * destruct (Hrestart eq_refl) as (u & d & [= -> -> ->] & Htgt & Hzero).
        assert (Hafter : target_seen target (shared c1) = true)
          by (rewrite Htgt; apply bool_decide_eq_true; exact Hmark).
        rewrite Hafter.
        destruct (target_seen target (shared cd)) eqn:Hseen; [|lia].
        rewrite Htgt in Hseen. apply bool_decide_eq_true in Hseen.
        discriminate (Hnolinks Hseen).
      * destruct (target_seen target (shared cd)) eqn:Hseen.
        -- rewrite (Hmono eq_refl). lia.
        -- destruct (target_seen target (shared c1)); lia.
Qed.

Lemma category_loop_fuel (E : Env) (mp : Z) (name : string) (fuel : nat) (cd : CrawlData) :
  2 <= mp ->
  0 <= pages_crawled cd ->
  passes_left mp (option_map snd (next_category name (categories cd))) cd <= Z.of_nat fuel ->
  exists cd', category_loop E mp name fuel cd = Some cd'.
Proof.
  intros Hmp. revert cd. induction fuel as [|fuel IH]; intros cd Hc Hrank.
  - simpl. destruct (running cd && (pages_crawled cd <? mp)%Z)%bool eqn:Hcond; [|eauto].
    apply andb_true_iff in Hcond as [Hrun Hlt]. apply Z.ltb_lt in Hlt.
    pose proof (passes_left_positive mp
                  (option_map snd (next_category name (categories cd))) cd
                  ltac:(lia) Hrun Hlt).
    lia.
  - rewrite category_loop_unfold.
    destruct (running cd && (pages_crawled cd <? mp)%Z)%bool eqn:Hcond; [|eauto].
    apply andb_true_iff in Hcond as [Hrun Hlt]. apply Z.ltb_lt in Hlt.
    destruct (category_body E mp name cd) as [cd1 [|]] eqn:Hbody; [|eauto].
    destruct (category_body_passes_left E mp name cd cd1 Hmp Hc Hrun Hlt Hbody)
      as (Hcats & Hc1 & Hless).
    apply IH; [exact Hc1|]. rewrite Hcats. lia.
Qed.

(** X18.  A run of the script on a session that is crawling a category
    always ends.  With a page limit of at least 2 and a page counter that is
    not negative, the category loop makes at most twice the page limit plus
    two passes, whatever the site serves: when the loop restarts from the
    next category a second time, that page is visited, gives no link, and the
    loop leaves on the empty queue. *)
Theorem category_run_ends (E : Env) (fuel : nat) (cd : CrawlData) :
  current_category cd <> None ->
  2 <= max_pages cd ->
  0 <= pages_crawled cd ->
  2 * max_pages cd + 2 <= Z.of_nat fuel ->
  exists cd', tick E fuel cd = Some cd'.
Proof.
  intros Hcat Hmp Hc Hfuel. unfold tick. destruct (running cd); [|eauto].
  destruct (current_category cd) as [[name category_url]|]; [|congruence].
  assert (forall cd0, max_pages cd0 = max_pages cd -> 0 <= pages_crawled cd0 ->
                      exists cd', category_loop E (max_pages cd0) name fuel cd0 = Some cd')
    as Hloop.
  { intros cd0 Hmax Hc0. rewrite Hmax. apply category_loop_fuel; [exact Hmp | exact Hc0 |].
    pose proof (passes_left_bound (max_pages cd)
                  (option_map snd (next_category name (categories cd0))) cd0
                  ltac:(lia) Hc0).
    lia. }
  destruct (pages_crawled cd =? 0)%Z; apply Hloop; crawl_cbn; first [reflexivity | lia].
Qed.

Lemma category_run_ends_witness :
  exists cd', tick Sites.twins 18 Sites.twin_session = Some cd'.
Proof.
  apply (category_run_ends Sites.twins 18 Sites.twin_session).
  - discriminate.
  - vm_compute. discriminate.
  - vm_compute. discriminate.
  - vm_compute. discriminate.
Defined.

(** ** The main-domain loop on a site without categories *)

Lemma process_url_soup (E : Env) (url main_domain : string) (sh : Shared) (depth : Z)
    (soup : Soup) :
  snd (fst (process_url E url main_domain sh depth)) = Some soup ->
  exists r, http_get E url = GetOk r /\ soup = resp_soup r.
Proof.
  destruct (process_url_cases E url main_domain sh depth)
    as [[Hin ->] | [Hnew [(msg & Hget & ->) | (r & Hget & [(Hct & ->) | [(Hct & Hext & Hd & ->)
                                                       | (Hct & Hgate & ->)]])]]];
    cbn [fst snd]; try discriminate.
  intros [= <-]. exists r. auto.
Qed.

Lemma main_loop_off (E : Env) (mp : Z) (fuel : nat) (cd : CrawlData) :
  running cd = false -> main_loop E mp fuel cd = Some cd.
Proof. intros Hoff. destruct fuel; simpl; rewrite Hoff; reflexivity. Qed.

Lemma main_body_without_categories (E : Env) (mp : Z) (cd cd1 : CrawlData) :
  (forall u r, http_get E u = GetOk r -> extract_categories E (resp_soup r) u = []) ->
  categories cd = [] ->
  main_body E mp cd = (cd1, Next) ->
  running cd1 = false \/
  (categories cd1 = [] /\ pages_crawled cd1 = pages_crawled cd + 1).
Proof.
  intros Hnone Hcats. unfold main_body.
  destruct (queue cd) as [|[url depth] rest]; [discriminate|].
  destruct (main_entry_frame E url depth (set_queue rest cd)) as (_ & _ & _ & _ & Hp1).
  pose proof (main_entry_categories E url depth (set_queue rest cd)) as Hcat1.
  cbn [pages_crawled categories shared main_domain set_queue] in Hp1, Hcat1.
  assert (Hempty : categories (main_entry E url depth (set_queue rest cd)) = []).
  { rewrite Hcat1.
    destruct (snd (fst (process_url E url (main_domain cd) (shared cd) depth)))
      as [soup|] eqn:Hsoup; [|exact Hcats].
    destruct (pages_crawled cd =? 0)%Z; [|exact Hcats].
    apply process_url_soup in Hsoup as (r & Hget & ->). apply Hnone, Hget. }
  set (c1 := main_entry E url depth (set_queue rest cd)) in *.
  destruct (is_nil (results (shared c1))); cbn [negb]; [|discriminate].
  destruct (mp <=? pages_crawled c1)%Z.
  - cbv zeta. crawl_cbn. rewrite Hempty. intros [= <-]. left. reflexivity.
  - intros [= <-]. right. split; assumption.
Qed.

Lemma main_loop_fuel (E : Env) (mp : Z) (fuel : nat) (cd : CrawlData) :
  (forall u r, http_get E u = GetOk r -> extract_categories E (resp_soup r) u = []) ->
  categories cd = [] ->
  mp - pages_crawled cd <= Z.of_nat fuel ->
  exists cd', main_loop E mp fuel cd = Some cd'.
Proof.
  intros Hnone. revert cd. induction fuel as [|fuel IH]; intros cd Hcats Hfuel.
  - simpl. destruct (running cd && (pages_crawled cd <? mp)%Z)%bool eqn:Hcond; [|eauto].
    apply andb_true_iff in Hcond as [_ Hlt]. apply Z.ltb_lt in Hlt. lia.
  - rewrite main_loop_unfold.
    destruct (running cd && (pages_crawled cd <? mp)%Z)%bool; [|eauto].
    destruct (main_body E mp cd) as [cd1 [|]] eqn:Hbody; [|eauto].
    destruct (main_body_without_categories E mp cd cd1 Hnone Hcats Hbody)
      as [Hoff | [Hcats1 Hp1]].
    + rewrite (main_loop_off E mp fuel cd1 Hoff). eauto.
    + apply IH; [exact Hcats1 | lia].
Qed.

(** X19.  On a site none of whose pages yields a category, a run of the
    script on a main-domain session without categories always ends, after at
    most as many passes of the loop as pages are left in the budget: the
    counter grows with every entry taken from the queue and the loop leaves
    at the page limit, on a match or on the empty queue. *)
Theorem main_run_ends_without_categories (E : Env) (fuel : nat) (cd : CrawlData) :
  (forall u r, http_get E u = GetOk r -> extract_categories E (resp_soup r) u = []) ->
  current_category cd = None ->
  categories cd = [] ->
  max_pages cd - pages_crawled cd <= Z.of_nat fuel ->
  exists cd', tick E fuel cd = Some cd'.
Proof.
  intros Hnone Hcur Hcats Hfuel. unfold tick. destruct (running cd); [|eauto].
  rewrite Hcur. apply main_loop_fuel; assumption.
Qed.

Lemma main_run_ends_without_categories_witness :
  exists cd',
    tick Sites.foreign 8 (press_start Sites.foreign "example.com" Sites.fresh) = Some cd'.
Proof.
  apply (main_run_ends_without_categories Sites.foreign 8
           (press_start Sites.foreign "example.com" Sites.fresh)).
  - intros u r. unfold Sites.foreign, Sites.site. cbn [http_get Sites.lookup_page Sites.html].
    repeat match goal with
           | |- context [String.eqb ?a u] =>
               destruct (String.eqb_spec a u) as [<- | _];
               [intros [= <-]; vm_compute; reflexivity|]
           end.
    discriminate.
  - reflexivity.
  - reflexivity.
  - vm_compute. discriminate.
Defined.

(** ** The page limit of a session *)

Lemma main_body_pages_nonneg (E : Env) (mp : Z) (cd : CrawlData) :
  0 <= pages_crawled cd -> 0 <= pages_crawled (fst (main_body E mp cd)).
Proof.
  intros Hc. unfold main_body. destruct (queue cd) as [|[url depth] rest]; [crawl_cbn; lia|].
  destruct (main_entry_frame E url depth (set_queue rest cd)) as (_ & _ & _ & _ & Hp).
  cbn [pages_crawled set_queue] in Hp.
  set (c := main_entry E url depth (set_queue rest cd)) in *.
  split_body; crawl_cbn; lia.
Qed.

Lemma category_body_pages_nonneg (E : Env) (mp : Z) (name : string) (cd : CrawlData) :
  0 <= pages_crawled cd -> 0 <= pages_crawled (fst (category_body E mp name cd)).
Proof.
  intros Hc. unfold category_body. destruct (queue cd) as [|[url depth] rest]; [crawl_cbn; lia|].
  destruct (category_entry_frame E url depth (set_queue rest cd)) as (_ & _ & _ & _ & Hp).
  cbn [pages_crawled set_queue] in Hp.
  set (c := category_entry E url depth (set_queue rest cd)) in *.
  split_body; crawl_cbn; lia.
Qed.

(** X20.  In every session the program can reach the page limit is 8, the
    value written at lines 189, 212, 240 and 431 and never assigned again,
    and the page counter is not negative. *)
Theorem page_limit_is_8 (E : Env) (cd : CrawlData) :
  reachable E cd -> max_pages cd = 8 /\ 0 <= pages_crawled cd.
Proof.
  induction 1 as [log | url_input cd _ IH | cd _ IH | cd _ IH
                  | cd name category_url _ IH _ | mp cd _ IH | mp name cd _ IH].
  - split; [reflexivity | cbn; lia].
  - unfold press_start. destruct (_ && _)%bool; crawl_cbn; [split; [reflexivity | lia] | exact IH].
  - split; [reflexivity | cbn; lia].
  - exact IH.
  - crawl_cbn. exact IH.
  - destruct IH as [Hmax Hc]. destruct (main_body_frame E mp cd) as [_ Hm].
    split; [congruence | apply main_body_pages_nonneg, Hc].
  - destruct IH as [Hmax Hc]. destruct (category_body_frame E mp name cd) as [_ Hm].
    split; [congruence | apply category_body_pages_nonneg, Hc].
Qed.

Lemma page_limit_is_8_witness :
  let cd := fst (main_body Sites.shop 8 (press_start Sites.shop "example.com" Sites.fresh)) in
  max_pages cd = 8 /\ 0 <= pages_crawled cd.
Proof.
  apply (page_limit_is_8 Sites.shop).
  apply reach_main_body, reach_start. exact (reach_init Sites.shop []).
Defined.

(** * The program with its exceptions *)

(** ** A pass whose call of [process_url] raises *)




(** C2, as the code has it.  On the site [Sites.broken] the second page
    crawled has an anchor whose href holds a keyword, followed by an anchor
    on whose href [urljoin] raises.  The run started by the start button
    records two matches for that page and is then left by the exception of
    line 117: the test of lines 288-294 is not reached and the session stays
    running, with a match in its results and the next entry still queued.
    The next run of the script, without any resume, takes that entry from the
    queue and requests it; only then is the session paused. *)
Theorem malformed_href_defeats_pause :
  exists cd1 cd2,
    Raising.run_start Sites.broken 40 "example.com" Sites.fresh
      = Some (Aborted "Invalid IPv6 URL" cd1) /\
    results (shared cd1)
      = [("https://example.com/p1", KeywordInResolvedURL, "https://example.com/gowithguide");
         ("https://example.com/p1", KeywordInURL, "https://example.com/gowithguide")] /\
    running cd1 = true /\
    queue cd1 = [("https://example.com/p2", 0)] /\
    http_log (shared cd1) = ["https://example.com"; "https://example.com/p1"] /\
    Raising.tick Sites.broken 40 cd1 = Some (Finished cd2) /\
    http_log (shared cd2)
      = ["https://example.com"; "https://example.com/p1"; "https://example.com/p2"] /\
    running cd2 = false.
Proof.
  eexists _, _. split; [vm_compute; reflexivity|].
  split; [reflexivity|]. split; [reflexivity|]. split; [reflexivity|]. split; [reflexivity|].
  split; [vm_compute; reflexivity|]. split; reflexivity.
Qed.

(** ** Category extraction *)

(** The gate of line 272 and the [try] of lines 273-281: a pass of the
    main-domain loop replaces the category list exactly when the page counter
    was 0 before it, [process_url] returned a document and
    [extract_categories] returned; when [extract_categories] raises the list
    is kept and the feed gets an entry. *)
Lemma main_entry_gate (E : Env) (url : string) (depth : Z) (cd : CrawlData) :
  categories (session (Raising.main_entry E url depth cd)) =
  match Raising.process_url E url (main_domain cd) (shared cd) depth with
  | (Returned (_, Some soup), _) =>
      if (pages_crawled cd =? 0)%Z
      then match Raising.extract_categories E soup url with
           | Returned homepage_categories => homepage_categories
           | Raised _ => categories cd
           end
      else categories cd
  | _ => categories cd
  end.
Proof.
  unfold Raising.main_entry.
  destruct (Raising.process_url E url (main_domain cd) (shared cd) depth)
    as [[[new_links soup]|msg] sh]; [|reflexivity].
  cbn [session]. crawl_simpl. destruct soup as [soup|]; crawl_simpl; [|reflexivity].
  replace (pages_crawled cd + 1 =? 1)%Z with (pages_crawled cd =? 0)%Z
    by (destruct (Z.eqb_spec (pages_crawled cd) 0), (Z.eqb_spec (pages_crawled cd + 1) 1);
        first [reflexivity | lia]).
  destruct (pages_crawled cd =? 0)%Z; [|reflexivity].
  destruct (Raising.extract_categories E soup url) as [cats|msg]; crawl_simpl; [|reflexivity].
  destruct (is_nil cats); crawl_simpl; reflexivity.
Qed.

(** C8, as the code has it.  On the shop site the run started by the start
    button extracts the categories from the home page, crawls eight pages
    without a match and moves to the first category, which sets the page
    counter back to 0.  The gate of line 272 tests the counter, so the next
    pass extracts categories a second time, from the category page, and the
    list found on the home page is replaced. *)
Theorem categories_extracted_twice :
  exists cd,
    Raising.run_start Sites.shop 40 "example.com" Sites.fresh = Some (Finished cd) /\
    List.filter is_found_categories (status (shared cd))
      = [MsgFoundCategories ["travel"]; MsgFoundCategories ["blog"]] /\
    categories cd = [("blog", "https://example.com/category/blog")] /\
    current_category cd = Some ("travel", "https://example.com/category/travel").
Proof.
  eexists. split; [vm_compute; reflexivity|].
  split; [vm_compute; reflexivity|]. split; reflexivity.
Qed.

(** ** The start button *)

(** X10.  Pressing Start on an idle session with an empty queue: the seed
    is the input without its surrounding white space if that starts with
    [http://] or [https://], and that with [https://] put in front
    otherwise; so the seed always starts with one of the two, the empty input
    included.  If [urlparse] accepts the seed, the handler replaces the
    session by a new crawl of that one seed at depth 0, with the host of the
    seed as main domain, the request log kept and everything else empty; if
    [urlparse] raises, the session is left as it was but for the running
    flag, which is set. *)
Theorem press_start_seed (E : Env) (url_input : string) (cd : CrawlData) :
  running cd = false ->
  queue cd = [] ->
  let typed := PyStr.strip url_input in
  let seed :=
    if PyStr.startswith_any ["http://"; "https://"] typed then typed
    else "https://" ++ typed in
  PyStr.startswith_any ["http://"; "https://"] seed = true /\
  Raising.press_start E url_input cd =
  match urlparse_error E seed with
  | None =>
      Finished
        (mkCrawlData true [(seed, 0)]
           (mkShared ∅ [] [MsgStarting seed] (http_log (shared cd)))
           (netloc E seed) [] None 0 8)
  | Some msg => Aborted msg (set_running true cd)
  end.
Proof.
  intros Hrun Hq typed seed. split.
  - subst seed. destruct (PyStr.startswith_any ["http://"; "https://"] typed) eqn:Hscheme;
      [exact Hscheme|].
    unfold PyStr.startswith_any, PyStr.startswith. cbn [existsb].
    apply orb_true_iff. right. apply orb_true_iff. left.
    apply prefix_spec. eexists. reflexivity.
  - unfold Raising.press_start. crawl_cbn. rewrite Hrun, Hq. cbn [negb andb is_nil].
    fold typed. fold seed. destruct (urlparse_error E seed); reflexivity.
Qed.

Lemma press_start_seed_witness :
  let typed := PyStr.strip " example.com " in
  let seed :=
    if PyStr.startswith_any ["http://"; "https://"] typed then typed
    else "https://" ++ typed in
  PyStr.startswith_any ["http://"; "https://"] seed = true /\
  Raising.press_start Sites.lonely " example.com " Sites.fresh =
  match urlparse_error Sites.lonely seed with
  | None =>
      Finished
        (mkCrawlData true [(seed, 0)]
           (mkShared ∅ [] [MsgStarting seed] (http_log (shared Sites.fresh)))
           (netloc Sites.lonely seed) [] None 0 8)
  | Some msg => Aborted msg (set_running true Sites.fresh)
  end.
Proof.
  apply (press_start_seed Sites.lonely " example.com " Sites.fresh); reflexivity.
Defined.

Lemma set_running_back (cd : CrawlData) :
  running cd = true -> set_running true (set_running false cd) = cd.
Proof. destruct cd. cbn. intros ->. reflexivity. Qed.

(** X11.  The Start button doubles as a pause button.  In the run of the
    script in which it is pressed on a running session, the handler clears
    the running flag and the loops do nothing: the run ends with the session
    as it was but paused.  If the queue is not empty, the run in which Start
    is pressed again, whatever the input field holds, is the run the session
    would have had without the pause.  If the queue is empty the second press
    does not resume: whenever Start on a session just reset begins a crawl,
    the second press begins that very crawl, and the results and the visited
    set are lost. *)
Theorem pause_resume (E : Env) (fuel : nat) (u1 u2 : string) (cd : CrawlData) :
  running cd = true ->
  Raising.run_start E fuel u1 cd = Some (Finished (set_running false cd)) /\
  (queue cd <> [] ->
   Raising.run_start E fuel u2 (set_running false cd) = Raising.tick E fuel cd) /\
  (queue cd = [] ->
   forall crawl,
     Raising.press_start E u2 (press_reset cd) = Finished crawl ->
     Raising.run_start E fuel u2 (set_running false cd) = Raising.tick E fuel crawl).
Proof.
  intros Hrun. split; [|split].
  - unfold Raising.run_start, Raising.press_start. crawl_cbn. rewrite Hrun. reflexivity.
  - intros Hq. unfold Raising.run_start, Raising.press_start. crawl_cbn.
    rewrite (is_nil_false _ Hq). cbn [negb andb].
    change (mkCrawlData true (queue cd) (shared cd) (main_domain cd) (categories cd)
              (current_category cd) (pages_crawled cd) (max_pages cd))
      with (set_running true (set_running false cd)).
    rewrite (set_running_back cd Hrun). reflexivity.
  - intros Hq crawl. unfold Raising.run_start, Raising.press_start, press_reset, reset_data.
    crawl_cbn. rewrite Hq. cbn [negb andb is_nil].
    destruct (urlparse_error E _); [discriminate|]. intros [= <-]. reflexivity.
Qed.

Lemma pause_resume_witness :
  let cd :=
    match Raising.run_start Sites.broken 40 "example.com" Sites.fresh with
    | Some r => session r
    | None => Sites.fresh
    end in
  Raising.run_start Sites.broken 40 "" cd = Some (Finished (set_running false cd)) /\
  (queue cd <> [] ->
   Raising.run_start Sites.broken 40 "other.org" (set_running false cd)
   = Raising.tick Sites.broken 40 cd) /\
  (queue cd = [] ->
   forall crawl,
     Raising.press_start Sites.broken "other.org" (press_reset cd) = Finished crawl ->
     Raising.run_start Sites.broken 40 "other.org" (set_running false cd)
     = Raising.tick Sites.broken 40 crawl).
Proof.
  intros cd. apply (pause_resume Sites.broken 40 "" "other.org" cd).
  vm_compute. reflexivity.
Defined.

(** ** Continue *)





Lemma raising_tick_paused (E : Env) (fuel : nat) (cd : CrawlData) :
  running cd = false -> Raising.tick E fuel cd = Some (Finished cd).
Proof. intros Hrun. unfold Raising.tick. rewrite Hrun. reflexivity. Qed.




(** ** Calls that return *)

Lemma scan_element_returned (E : Env) (u : string) (acc acc' : list MatchRecord * list Status)
    (element : option Element) :
  Raising.scan_element E u acc element = (acc', None) -> scan_element E u acc element = acc'.
Proof.
  destruct element as [el|]; [|intros [= <-]; reflexivity].
  unfold Raising.scan_element, scan_element. cbv zeta.
  destruct (if PyStr.is_empty (Bs4.get el "href" "") then None
            else urljoin_error E u (Bs4.get el "href" "")); [discriminate|].
  destruct (PyStr.contains "background-image" (Bs4.get el "style" ""));
    [|intros [= <-]; reflexivity].
  destruct (Re.search_bg_url (Bs4.get el "style" "")) as [bg_url|];
    [|intros [= <-]; reflexivity].
  destruct (urljoin_error E u bg_url); [discriminate|]. intros [= <-]. reflexivity.
Qed.

Lemma scan_elements_returned (E : Env) (u : string) (elements : list (option Element))
    (acc acc' : list MatchRecord * list Status) :
  Raising.scan_elements E u elements acc = (acc', None) ->
  fold_left (scan_element E u) elements acc = acc'.
Proof.
  revert acc. induction elements as [|element elements IH]; intros acc; simpl.
  - intros [= <-]. reflexivity.
  - destruct (Raising.scan_element E u acc element) as [acc1 [msg|]] eqn:Hone;
      [discriminate|].
    rewrite (scan_element_returned E u acc acc1 element Hone). apply IH.
Qed.

Lemma extract_links_returned (E : Env) (final_url main_domain : string)
    (visited : gset string) (depth : Z) (soup : Soup) (links : list (string * Z)) :
  Raising.extract_links E final_url main_domain visited depth (Bs4.find_all_a_href soup)
    = Returned links ->
  extract_links E final_url main_domain visited depth soup = links.
Proof.
  unfold extract_links. generalize (Bs4.find_all_a_href soup). intros anchors. revert links.
  induction anchors as [|link anchors IH]; intros links; simpl.
  - intros [= <-]. reflexivity.
  - destruct (urljoin_error E final_url (Bs4.get link "href" "")); [discriminate|].
    destruct (urlparse_error E (urljoin E final_url (Bs4.get link "href" "")));
      [discriminate|].
    destruct (Raising.extract_links E final_url main_domain visited depth anchors)
      as [rest|msg]; [|discriminate].
    intros [= <-]. rewrite (IH rest eq_refl). reflexivity.
Qed.

(** X21.  A call of [process_url] that returns has the value, and leaves
    the shared objects, that the definition without exceptions gives: what is
    proved of [process_url] holds of every call that returns. *)
Theorem returning_call_of_process_url (E : Env) (url main_domain : string) (sh sh' : Shared)
    (depth : Z) (out : list (string * Z) * option Soup) :
  Raising.process_url E url main_domain sh depth = (Returned out, sh') ->
  process_url E url main_domain sh depth = (out, sh').
Proof.
  unfold Raising.process_url, process_url.
  destruct (bool_decide (url ∈ visited sh)); [intros [= <- <-]; reflexivity|].
  destruct (http_get E url) as [response|msg]; [|intros [= <- <-]; reflexivity].
  destruct (negb (PyStr.contains "text/html" (resp_content_type response)));
    [intros [= <- <-]; reflexivity|].
  destruct (urlparse_error E (resp_url response)); [discriminate|].
  destruct (negb (is_subdomain_of (netloc E (resp_url response)) main_domain)
            && (1 <? depth)%Z)%bool; [intros [= <- <-]; reflexivity|].
  destruct (Raising.scan_elements E (resp_url response) (elements_to_check (resp_soup response))
              (results sh, (status sh ++ [MsgCrawled url])%list))
    as [[results' status'] [msg|]] eqn:Hscan; [discriminate|].
  rewrite (scan_elements_returned E _ _ _ _ Hscan).
  destruct (Raising.extract_links E (resp_url response) main_domain ({[url]} ∪ visited sh)
              depth (Bs4.find_all_a_href (resp_soup response))) as [links|msg] eqn:Hlinks;
    [|discriminate].
  rewrite (extract_links_returned E _ _ _ _ _ _ Hlinks).
  intros [= <- <-]. reflexivity.
Qed.

Lemma returning_call_of_process_url_witness :
  process_url Sites.broken "https://example.com" "example.com" (shared Sites.fresh) 0
  = (([("https://example.com/p1", 0); ("https://example.com/p2", 0)],
      Some [Sites.anchor "https://example.com/p1" "Page one";
            Sites.anchor "https://example.com/p2" "Page two"]),
     mkShared ({["https://example.com"]} ∪ ∅) [] [MsgCrawled "https://example.com"]
       ["https://example.com"]).
Proof.
  apply (returning_call_of_process_url Sites.broken). vm_compute. reflexivity.
Defined.

(** ** Environments in which nothing raises *)

Lemma scan_elements_total (E : Env) (u : string) (elements : list (option Element))
    (acc : list MatchRecord * list Status) :
  never_raises E ->
  Raising.scan_elements E u elements acc = (fold_left (scan_element E u) elements acc, None).
Proof.
  intros [Hjoin _]. revert acc. induction elements as [|element elements IH]; intros acc; simpl;
    [reflexivity|].
  assert (Raising.scan_element E u acc element = (scan_element E u acc element, None)) as ->;
    [|apply IH].
  destruct element as [el|]; [|reflexivity].
  unfold Raising.scan_element, scan_element. cbv zeta.
  rewrite (Hjoin u (Bs4.get el "href" "")).
  destruct (PyStr.is_empty (Bs4.get el "href" ""));
    (destruct (PyStr.contains "background-image" (Bs4.get el "style" "")); [|reflexivity];
     destruct (Re.search_bg_url (Bs4.get el "style" "")) as [bg_url|]; [|reflexivity];
     rewrite (Hjoin u bg_url); reflexivity).
Qed.

Lemma process_url_total (E : Env) (url main_domain : string) (sh : Shared) (depth : Z) :
  never_raises E ->
  Raising.process_url E url main_domain sh depth
  = (Returned (fst (process_url E url main_domain sh depth)),
     snd (process_url E url main_domain sh depth)).
Proof.
  intros Hnever. pose proof Hnever as [Hjoin Hparse].
  unfold Raising.process_url, process_url.
  destruct (bool_decide (url ∈ visited sh)); [reflexivity|].
  destruct (http_get E url) as [response|msg]; [|reflexivity].
  destruct (negb (PyStr.contains "text/html" (resp_content_type response))); [reflexivity|].
  rewrite Hparse.
  destruct (negb (is_subdomain_of (netloc E (resp_url response)) main_domain)
            && (1 <? depth)%Z)%bool; [reflexivity|].
  rewrite (scan_elements_total E _ _ _ Hnever).
  destruct (fold_left _ _ _) as [results' status'].
  assert (Raising.extract_links E (resp_url response) main_domain ({[url]} ∪ visited sh) depth
            (Bs4.find_all_a_href (resp_soup response))
          = Returned (extract_links E (resp_url response) main_domain ({[url]} ∪ visited sh)
                        depth (resp_soup response))) as ->; [|reflexivity].
  unfold extract_links. generalize (Bs4.find_all_a_href (resp_soup response)).
  intros anchors. induction anchors as [|link anchors IH]; simpl; [reflexivity|].
  rewrite Hjoin, Hparse, IH. reflexivity.
Qed.

Lemma extract_categories_names_total (E : Env) (base_url href text : string)
    (names : list string) (categories : list (string * string)) :
  never_raises E ->
  Raising.extract_categories_names E base_url href text names categories
  = Returned
      (categories ++
       flat_map
         (fun category =>
            if ((PyStr.contains category href || PyStr.contains category text)
                && PyStr.contains "/category/" href)%bool
            then [(category, urljoin E base_url href)]
            else [])
         names)%list.
Proof.
  intros [Hjoin _]. revert categories.
  induction names as [|category names IH]; intros categories; simpl.
  - rewrite app_nil_r. reflexivity.
  - destruct ((PyStr.contains category href || PyStr.contains category text)
              && PyStr.contains "/category/" href)%bool.
    + rewrite Hjoin, IH, <- app_assoc. reflexivity.
    + apply IH.
Qed.

Lemma extract_categories_total (E : Env) (soup : Soup) (base_url : string) :
  never_raises E ->
  Raising.extract_categories E soup base_url = Returned (extract_categories E soup base_url).
Proof.
  intros Hnever. pose proof Hnever as [Hjoin _].
  unfold Raising.extract_categories, extract_categories.
  assert (forall links acc,
            Raising.extract_categories_links E base_url links acc
            = Returned (fold_left (extract_categories_link E base_url) links acc)) as ->.
  { induction links as [|link links IH]; intros acc; simpl; [reflexivity|].
    assert (Raising.extract_categories_link E base_url acc link
            = Returned (extract_categories_link E base_url acc link)) as ->; [|apply IH].
    destruct acc as [cats others].
    unfold Raising.extract_categories_link, extract_categories_link.
    destruct (PyStr.is_empty _ || PyStr.startswith_any _ _)%bool; [reflexivity|].
    rewrite (extract_categories_names_total E _ _ _ _ _ Hnever).
    destruct (PyStr.contains "/category/" _ && forallb _ category_names)%bool; [|reflexivity].
    destruct (Re.search_category _); [|reflexivity].
    rewrite Hjoin. reflexivity. }
  destruct (fold_left _ _ _) as [cats others]. reflexivity.
Qed.

Lemma main_body_total (E : Env) (mp : Z) (cd : CrawlData) :
  never_raises E ->
  Raising.main_body E mp cd = (Finished (fst (main_body E mp cd)), snd (main_body E mp cd)).
Proof.
  intros Hnever. unfold Raising.main_body, main_body.
  destruct (queue cd) as [|[url depth] rest]; [reflexivity|].
  assert (Raising.main_entry E url depth (set_queue rest cd)
          = Finished (main_entry E url depth (set_queue rest cd))) as ->.
  { unfold Raising.main_entry, main_entry. rewrite (process_url_total E _ _ _ _ Hnever).
    destruct (process_url E url _ _ depth) as [[new_links soup] sh]. cbn [fst snd].
    destruct soup as [soup|]; [|reflexivity].
    destruct (_ =? 1)%Z; [|reflexivity].
    rewrite (extract_categories_total E soup url Hnever). reflexivity. }
  change (main_after_entry mp (main_entry E url depth (set_queue rest cd)))
    with (main_body E mp (set_queue ((url, depth) :: rest) cd)).
  unfold main_body. cbn [queue set_queue].
  destruct (negb _); [reflexivity|]. destruct (_ <=? _)%Z; [|reflexivity].
  destruct (categories _); reflexivity.
Qed.

Lemma category_body_total (E : Env) (mp : Z) (name : string) (cd : CrawlData) :
  never_raises E ->
  Raising.category_body E mp name cd
  = (Finished (fst (category_body E mp name cd)), snd (category_body E mp name cd)).
Proof.
  intros Hnever. unfold Raising.category_body, category_body.
  destruct (queue cd) as [|[url depth] rest]; [reflexivity|].
  assert (Raising.category_entry E url depth (set_queue rest cd)
          = Finished (category_entry E url depth (set_queue rest cd))) as ->.
  { unfold Raising.category_entry, category_entry. rewrite (process_url_total E _ _ _ _ Hnever).
    destruct (process_url E url _ _ depth) as [[new_links soup] sh]. reflexivity. }
  unfold category_after_entry.
  destruct (negb _); [reflexivity|]. destruct (_ <=? _)%Z; [|reflexivity].
  cbv zeta. destruct (_ <? _)%Z; [|reflexivity].
  destruct (nth_error _ _); reflexivity.
Qed.

(** X22.  In an environment in which [urljoin] and [urlparse] never raise,
    the program with its exceptions is the program without: the handler of
    the start button and every run of the script end at their last line, with
    the session [press_start] and [tick] give. *)
Theorem nothing_raises_nothing_changes (E : Env) (fuel : nat) (cd : CrawlData)
    (url_input : string) :
  never_raises E ->
  Raising.tick E fuel cd = option_map Finished (tick E fuel cd) /\
  Raising.press_start E url_input cd = Finished (press_start E url_input cd).
Proof.
  intros Hnever. split.
  - assert (Hmain : forall mp fuel0 c,
              Raising.main_loop E mp fuel0 c = option_map Finished (main_loop E mp fuel0 c)).
    { intros mp. induction fuel0 as [|fuel0 IH]; intros c; simpl;
        destruct (running c && (pages_crawled c <? mp)%Z)%bool; try reflexivity.
      rewrite (main_body_total E mp c Hnever).
      destruct (main_body E mp c) as [c1 [|]]; cbn [fst snd]; [apply IH | reflexivity]. }
    assert (Hcat : forall mp name fuel0 c,
              Raising.category_loop E mp name fuel0 c
              = option_map Finished (category_loop E mp name fuel0 c)).
    { intros mp name. induction fuel0 as [|fuel0 IH]; intros c; simpl;
        destruct (running c && (pages_crawled c <? mp)%Z)%bool; try reflexivity.
      rewrite (category_body_total E mp name c Hnever).
      destruct (category_body E mp name c) as [c1 [|]]; cbn [fst snd];
        [apply IH | reflexivity]. }
    unfold Raising.tick, tick. destruct (running cd); [|reflexivity].
    destruct (current_category cd) as [[name category_url]|]; [apply Hcat | apply Hmain].
  - destruct Hnever as [_ Hparse]. unfold Raising.press_start, press_start.
    destruct (_ && _)%bool; [|reflexivity]. rewrite Hparse. reflexivity.
Qed.

Lemma nothing_raises_nothing_changes_witness :
  Raising.tick Sites.shop 40 (press_start Sites.shop "example.com" Sites.fresh)
  = option_map Finished (tick Sites.shop 40 (press_start Sites.shop "example.com" Sites.fresh)) /\
  Raising.press_start Sites.shop "example.com"
    (press_start Sites.shop "example.com" Sites.fresh)
  = Finished (press_start Sites.shop "example.com"
                (press_start Sites.shop "example.com" Sites.fresh)).
Proof.
  apply (nothing_raises_nothing_changes Sites.shop 40
           (press_start Sites.shop "example.com" Sites.fresh) "example.com").
  split; reflexivity.
Defined.
